(** * polygon-edge: fork registry, header-extra handlers and the RLP object decoders

    A shallow embedding of
      - [forkmanager/fork.go]                      (the fork registry),
      - [consensus/polybft/extra_fork_london.go],
        [consensus/polybft/extra_fork_nikaragva.go] (two header-extra variants),
      - the [types] RLP decoders ([UnmarshalRLPFrom] of Block, Header,
        Receipts, Receipt, Log, Transactions, LegacyTransaction,
        StateTransaction and TransactionType), and the decoders from raw
        bytes built on them ([UnmarshalRlp] and [UnmarshalRLP] of Block,
        Header, Receipts, Receipt and Transaction),
    followed by the properties established about them.

    Conventions.  Go's [uint64] and [big.Int] values are numbers in [N]; no
    arithmetic that could wrap is performed on them by the embedded code (only
    comparisons and byte conversions).  Bytes are [Byte.byte].  Indices and
    lengths (Go [int]) are [nat], except where the code subtracts below zero,
    which is done in [Z].  A Go [error] is a value of the type [error] below;
    the [nil] error is [None].  A run-time panic is an explicit outcome. *)

From Stdlib Require Import ZArith NArith Lia List Bool.
From Stdlib Require Import Strings.String Strings.Byte.
From stdpp Require Import base option list strings gmap pretty.

Local Open Scope string_scope.
Local Open Scope list_scope.
Local Open Scope nat_scope.

(* ===================================================================== *)
(** ** The Go run time that the embedded code relies on *)
(* ===================================================================== *)

Module Go.

(** [error] values.  The repository builds its errors with [fmt.Errorf] and
    [errors.New]; the text is kept.  The errors of the fastrlp library are
    separate constructors, since only their kind matters here. *)
Inductive error : Type :=
| Errorf (text : string)
| errNoBytes
| errNoArray
| errBadLength (expected found : nat)
| errUint64TooLong (found : nat).

(** [err.Error()] for the errors whose text the repository controls. *)
Definition Error (e : error) : option string :=
  match e with
  | Errorf text => Some text
  | _ => None
  end.

(** The value carried by a panic. *)
Inductive panic : Type :=
| PanicError (e : error)
| IndexOutOfRange (index : Z) (length : nat)
| NilDereference.

(** Outcome of a call that may panic. *)
Inductive outcome (A : Type) : Type :=
| Returns (a : A)
| Panics (p : panic).
Arguments Returns {A} a.
Arguments Panics {A} p.

(** [%d] of a non-negative integer ([int], [uint64]). *)
Definition fmt_d (n : nat) : string := pretty n.
Definition fmt_d_N (n : N) : string := pretty n.

(** [strings.Contains(s, sub)]. *)
Fixpoint prefix_of (sub s : string) : bool :=
  match sub, s with
  | EmptyString, _ => true
  | String a sub', String b s' => if Ascii.eqb a b then prefix_of sub' s' else false
  | String _ _, EmptyString => false
  end.

Fixpoint Contains (s sub : string) : bool :=
  prefix_of sub s ||
  match s with
  | EmptyString => false
  | String _ s' => Contains s' sub
  end.

(** The error text names the count [n]: its decimal numeral occurs in it. *)
Definition names_count (e : error) (n : nat) : bool :=
  match Error e with
  | Some text => Contains text (fmt_d n)
  | None => false
  end.

(** [sort.Search(n, f)]: the loop of the standard library,
    [i, j := 0, n; for i < j { h := int(uint(i+j) >> 1); if !f(h) { i = h + 1 } else { j = h } }; return i].
    Every round shrinks [j - i], so [n] rounds are enough and the counter
    never cuts the loop short (lemma [search_loop_spec]). *)
Fixpoint search_loop (rounds : nat) (f : nat -> bool) (i j : nat) : nat :=
  match rounds with
  | O => i
  | S rounds' =>
      if i <? j then
        let h := (i + j) / 2 in
        if negb (f h) then search_loop rounds' f (h + 1) j
        else search_loop rounds' f i h
      else i
  end.

Definition Search (n : nat) (f : nat -> bool) : nat := search_loop n f 0 n.

(** [copy(s[d:], s[i:])] on one slice [s] (a memmove). *)
Definition copy_within {A} (s : list A) (d i : nat) : list A :=
  let n := min (length s - d) (length s - i) in
  take d s ++ take n (drop i s) ++ drop (d + n) s.

(** [s = append(s, zero); copy(s[index+1:], s[index:]); s[index] = x]. *)
Definition insert_at {A} (zero : A) (s : list A) (index : nat) (x : A) : list A :=
  let s1 := s ++ [zero] in
  let s2 := copy_within s1 (index + 1) index in
  <[index := x]> s2.

(** [s[i]] for a Go [int] index: panics outside [0 <= i < len(s)]. *)
Definition index_Z {A} (s : list A) (i : Z) : outcome A :=
  if (i <? 0)%Z then Panics (IndexOutOfRange i (length s))
  else match s !! Z.to_nat i with
       | Some x => Returns x
       | None => Panics (IndexOutOfRange i (length s))
       end.

(** *** Slices of bytes

    A slice is a window on a backing array: [array] holds the cells from
    the start of the window up to its capacity, [len] is the length of the
    window.  [a[:]] and [a[:0]] of an array [a] share the array. *)
Record slice : Type := mkSlice {
  array : list byte;
  len : nat
}.

Definition cap (s : slice) : nat := length (array s).
Definition contents (s : slice) : list byte := take (len s) (array s).

(** [a[:]] *)
Definition slice_all (a : list byte) : slice := mkSlice a (length a).
(** [a[:0]] *)
Definition slice_to0 (a : list byte) : slice := mkSlice a 0.

(** [append(dst[:0], b...)].  When [b] fits the capacity the bytes are
    written through to the backing array; otherwise a new array is
    allocated and the old one is left as it was.  The result is the new
    slice together with the state of the array that [dst] is a window on. *)
Definition append_reset (dst : slice) (b : list byte) : slice * list byte :=
  if length b <=? cap dst then
    let a' := b ++ drop (length b) (array dst) in
    (mkSlice a' (length b), a')
  else
    (mkSlice b (length b), array dst).

(** [copy(dst, src)] on an array [dst]: [min(len(dst), len(src))] bytes. *)
Definition copy_bytes (dst src : list byte) : list byte :=
  take (length dst) src ++ drop (length src) dst.

(** *** encoding/binary, big endian *)

(** [byte(v)]: the low eight bits. *)
Definition byte_of_N (v : N) : byte :=
  match Byte.of_N (v mod 256) with
  | Some b => b
  | None => x00
  end.

(** The [k] low-order bytes of [v], most significant first. *)
Fixpoint be_bytes (k : nat) (v : N) : list byte :=
  match k with
  | O => []
  | S k' => be_bytes k' (v / 256) ++ [byte_of_N v]
  end.

(** The number a byte string denotes, most significant byte first. *)
Definition be_value (b : list byte) : N :=
  fold_left (fun acc x => (acc * 256 + Byte.to_N x)%N) b 0%N.

(** [binary.BigEndian.PutUint64(b[:], v)] on an eight-byte array. *)
Definition PutUint64 (v : N) : list byte := be_bytes 8 v.
(** [binary.BigEndian.Uint64(b)] of eight bytes. *)
Definition Uint64 (b : list byte) : N := be_value b.

(** *** Methods with a receiver, an error result and possible panics

    A method body is a function from the state of its receiver to a result
    and the state the receiver is left in; the receiver keeps what was
    written to it before an error was returned.  [OutOfRounds] is the one
    result that is not Go's: a [for] loop is unrolled a bounded number of
    rounds, and the bound is shown to be never reached
    ([for_loop_rounds]). *)
Inductive result (A : Type) : Type :=
| Ok (a : A)
| Err (e : error)
| Panic (p : panic)
| OutOfRounds.
Arguments Ok {A} a.
Arguments Err {A} e.
Arguments Panic {A} p.
Arguments OutOfRounds {A}.

Definition M (R A : Type) : Type := R -> result A * R.

(** The call came back to its caller, with a value or with an error. *)
Definition returns {R A} (x : result A * R) : Prop :=
  match fst x with
  | Ok _ | Err _ => True
  | Panic _ | OutOfRounds => False
  end.

Definition ret {R A} (a : A) : M R A := fun s => (Ok a, s).

Definition bind {R A B} (m : M R A) (k : A -> M R B) : M R B :=
  fun s =>
    match m s with
    | (Ok a, s') => k a s'
    | (Err e, s') => (Err e, s')
    | (Panic p, s') => (Panic p, s')
    | (OutOfRounds, s') => (OutOfRounds, s')
    end.

#[export] Instance M_ret {R} : MRet (M R) := fun A => @ret R A.
#[export] Instance M_bind {R} : MBind (M R) := fun A B k m => @bind R A B m k.

Definition get {R} : M R R := fun s => (Ok s, s).
Definition modify {R} (f : R -> R) : M R unit := fun s => (Ok tt, f s).
(** [return err] *)
Definition throw {R A} (e : error) : M R A := fun s => (Err e, s).
Definition panic_with {R A} (p : panic) : M R A := fun s => (Panic p, s).

(** [if err != nil { return err }] *)
Definition check {R} (err : option error) : M R unit :=
  match err with
  | None => ret tt
  | Some e => throw e
  end.

(** [s[i]] *)
Definition index {R A} (s : list A) (i : nat) : M R A :=
  match s !! i with
  | Some x => ret x
  | None => panic_with (IndexOutOfRange (Z.of_nat i) (length s))
  end.

(** A method called on a part of the receiver that it updates in place. *)
Definition zoom {R T A} (proj : R -> T) (inj : T -> R -> R) (m : M T A) : M R A :=
  fun s => let '(r, t) := m (proj s) in (r, inj t s).

(** [x := init; if err := x.method(...); err != nil { return err }] for a
    local [x]: the value of [x] afterwards, or the error. *)
Definition with_new {R T A} (init : T) (m : M T A) : M R T :=
  fun s =>
    match m init with
    | (Ok _, t) => (Ok t, s)
    | (Err e, _) => (Err e, s)
    | (Panic p, _) => (Panic p, s)
    | (OutOfRounds, _) => (OutOfRounds, s)
    end.

(** [for _, x := range xs { body }] *)
Fixpoint for_range {R A} (xs : list A) (body : A -> M R unit) : M R unit :=
  match xs with
  | [] => ret tt
  | x :: xs' => bind (body x) (fun _ => for_range xs' body)
  end.

(** [for i, x := range xs { body }], counting from [i]. *)
Fixpoint for_range_from {R A} (i : nat) (xs : list A) (body : nat -> A -> M R unit)
  : M R unit :=
  match xs with
  | [] => ret tt
  | x :: xs' => bind (body i x) (fun _ => for_range_from (S i) xs' body)
  end.

(** [for i := i0; i < n; i++ { body }], where the body may advance [i]
    itself: [body i] returns the value of [i] at the end of the round. *)
Fixpoint for_loop {R} (rounds : nat) (n : nat) (body : nat -> M R nat) (i : nat)
  : M R unit :=
  match rounds with
  | O => fun s => (OutOfRounds, s)
  | S rounds' =>
      if i <? n then bind (body i) (fun i' => for_loop rounds' n body (i' + 1))
      else ret tt
  end.

(** [m] leaves the part [f] of the receiver as it was, however it ends. *)
Definition frames {R A T} (f : R -> T) (m : M R A) : Prop :=
  forall r, f (snd (m r)) = f r.

(** [m] leaves the part [f] of the receiver as it was whenever it does not
    return normally. *)
Definition frames_unless_ok {R A T} (f : R -> T) (m : M R A) : Prop :=
  forall r, (forall a, fst (m r) <> Ok a) -> f (snd (m r)) = f r.

End Go.

(* ===================================================================== *)
(** ** forkmanager/fork.go *)
(* ===================================================================== *)

Module forkmanager.
Import Go.

Abbreviation ForkHandlerName := string.
Abbreviation ForkName := string.
Abbreviation uint64 := N.

Definition BaseFork : ForkName := "basev1".
Definition LondonFork : ForkName := "london".
Definition NikaragvaFork : ForkName := "nikaragva".

Record Fork : Type := mkFork {
  Name : ForkName;
  FromBlockNumber : uint64
}.

Section WithHandlers.
(** [interface{}], the type of the registered handlers, and its [nil]. *)
Context {any : Type} (nil_any : any).

Record ForkHandler : Type := mkForkHandler {
  HFromBlockNumber : uint64;
  Handler : any
}.

Record forkManager : Type := mkForkManager {
  forkMap : gmap string Fork;
  forks : list Fork;
  handlersMap : gmap string (list ForkHandler)
}.

(** The instance built by the first call of [GetInstance]. *)
Definition newInstance : forkManager :=
  let fork := {| Name := BaseFork; FromBlockNumber := 0%N |} in
  {| forks := [fork];
     forkMap := {[ Name fork := fork ]};
     handlersMap := ∅ |}.

(** [GetInstance], over the package variable [forkManagerInstance]. *)
Definition GetInstance (forkManagerInstance : option forkManager)
  : option forkManager * forkManager :=
  match forkManagerInstance with
  | None => (Some newInstance, newInstance)
  | Some fm => (Some fm, fm)
  end.

Definition RegisterFork (fm : forkManager) (name : ForkName) (fromBlock : uint64)
  : forkManager :=
  let fork := {| Name := name; FromBlockNumber := fromBlock |} in
  let forkMap' := <[name := fork]> (forkMap fm) in
  if length (forks fm) =? 0 then
    {| forkMap := forkMap'; forks := forks fm ++ [fork]; handlersMap := handlersMap fm |}
  else
    (* keep everything in sorted order *)
    let index := Search (length (forks fm)) (fun i =>
      match forks fm !! i with
      | Some f => (fromBlock <=? FromBlockNumber f)%N
      | None => false
      end) in
    {| forkMap := forkMap';
       forks := insert_at {| Name := EmptyString; FromBlockNumber := 0%N |} (forks fm) index fork;
       handlersMap := handlersMap fm |}.

Definition RegisterHandler (fm : forkManager) (forkName : ForkName)
    (handlerName : ForkHandlerName) (handler : any)
  : forkManager * option error :=
  match forkMap fm !! forkName with
  | None => (fm, Some (Errorf ("fork does not exist: " +:+ forkName)))
  | Some fork =>
      let entry := {| HFromBlockNumber := FromBlockNumber fork; Handler := handler |} in
      match handlersMap fm !! handlerName with
      | None =>
          ({| forkMap := forkMap fm; forks := forks fm;
              handlersMap := <[handlerName := [entry]]> (handlersMap fm) |}, None)
      | Some handlers =>
          (* keep everything in sorted order *)
          let index := Search (length handlers) (fun i =>
            match handlers !! i with
            | Some h => (FromBlockNumber fork <=? HFromBlockNumber h)%N
            | None => false
            end) in
          let handlers' :=
            insert_at {| HFromBlockNumber := 0%N; Handler := nil_any |} handlers index entry in
          ({| forkMap := forkMap fm; forks := forks fm;
              handlersMap := <[handlerName := handlers']> (handlersMap fm) |}, None)
      end
  end.

Definition GetHandler (fm : forkManager) (name : ForkHandlerName) (blockNumber : uint64)
  : outcome any :=
  match handlersMap fm !! name with
  | None => Panics (PanicError (Errorf ("handlers not registered for " +:+ name)))
  | Some handlers =>
      let pos := (Z.of_nat (Search (length handlers) (fun i =>
        match handlers !! i with
        | Some h => (blockNumber <? HFromBlockNumber h)%N
        | None => false
        end)) - 1)%Z in
      match index_Z handlers pos with
      | Returns h => Returns (Handler h)
      | Panics p => Panics p
      end
  end.

Definition IsForkSupported (fm : forkManager) (name : ForkName) : bool :=
  match forkMap fm !! name with
  | Some _ => true
  | None => false
  end.

Definition IsForkEnabled (fm : forkManager) (name : ForkName) (blockNumber : uint64) : bool :=
  match forkMap fm !! name with
  | None => false
  | Some fork => (FromBlockNumber fork <=? blockNumber)%N
  end.

Definition GetForkBlock (fm : forkManager) (name : ForkName) : uint64 * option error :=
  match forkMap fm !! name with
  | None => (0%N, Some (Errorf ("fork does not exists: " +:+ name)))
  | Some fork => (FromBlockNumber fork, None)
  end.

(** A start-up sequence: the registrations made, in order, on the fresh
    instance.  A failed [RegisterHandler] leaves the registry as it was. *)
Inductive call : Type :=
| CallRegisterFork (name : ForkName) (fromBlock : uint64)
| CallRegisterHandler (forkName : ForkName) (handlerName : ForkHandlerName) (handler : any).

Definition exec (fm : forkManager) (c : call) : forkManager :=
  match c with
  | CallRegisterFork name fromBlock => RegisterFork fm name fromBlock
  | CallRegisterHandler forkName handlerName handler =>
      fst (RegisterHandler fm forkName handlerName handler)
  end.

Definition run (calls : list call) : forkManager := fold_left exec calls newInstance.

(** The capability named by a handler registration. *)
Definition registers (name : ForkHandlerName) (c : call) : bool :=
  match c with
  | CallRegisterFork _ _ => false
  | CallRegisterHandler _ handlerName _ => String.eqb handlerName name
  end.

(** The start-up sequence of the fork-ordering scenario: forks activating
    at 100, 50 and 200 are registered in that order, then one handler per
    fork (the base fork included) for the capability [name]. *)
Definition scenario (name : ForkHandlerName) (hBase h100 h50 h200 : any) : list call :=
  [ CallRegisterFork "fork100" 100%N;
    CallRegisterFork "fork50" 50%N;
    CallRegisterFork "fork200" 200%N;
    CallRegisterHandler BaseFork name hBase;
    CallRegisterHandler "fork100" name h100;
    CallRegisterHandler "fork50" name h50;
    CallRegisterHandler "fork200" name h200 ].

(** The fork registrations of a start-up sequence. *)
Definition registers_fork (c : call) : bool :=
  match c with
  | CallRegisterFork _ _ => true
  | CallRegisterHandler _ _ _ => false
  end.

End WithHandlers.

(** Ascending order of a table, by the block numbers [key] reads off. *)
Definition ascending {A} (key : A -> uint64) (l : list A) : Prop :=
  forall i j a b, i <= j -> l !! i = Some a -> l !! j = Some b -> (key a <= key b)%N.

(** The registry invariant: the fork list and every handler table are ascending. *)
Definition tables_ascending {any} (fm : @forkManager any) : Prop :=
  ascending FromBlockNumber (forks fm) /\
  forall name handlers, handlersMap fm !! name = Some handlers ->
    ascending HFromBlockNumber handlers.

(** The invariant kept between the two views of the forks: every fork of
    the map is filed under its own name and stands in the list. *)
Definition map_in_list {any} (fm : @forkManager any) : Prop :=
  forall name f, forkMap fm !! name = Some f -> Name f = name /\ f ∈ forks fm.

(** [later] stands after [earlier] in the table [l]. *)
Definition placed_after {A} (l : list A) (earlier later : A) : Prop :=
  exists i j, l !! i = Some earlier /\ l !! j = Some later /\ i < j.

End forkmanager.

(* ===================================================================== *)
(** ** github.com/umbracle/fastrlp: the interface the decoders call *)
(* ===================================================================== *)

(** The library is not part of the repository.  The element tree and the
    accessor methods below follow the library: an accessor checks the kind
    of the element (and, where a width is given, its length) and hands the
    bytes over.  [GetBytes] does so with [append(dst[:0], v.b...)];
    [GetHash] and [GetAddr] are [GetBytes] with the widths 32 and 20. *)
Module fastrlp.
Import Go.

(** An element: an atom (a byte string) or a list of elements. *)
#[local] Set Warnings "-register-all".
Inductive Value : Type :=
| VBytes (b : list byte)
| VArray (l : list Value).

Inductive Type_ : Type := TypeArray | TypeBytes.

(** [v.Type()] *)
Definition Value_Type (v : Value) : Type_ :=
  match v with
  | VBytes _ => TypeBytes
  | VArray _ => TypeArray
  end.

Definition isTypeBytes (v : Value) : bool :=
  match Value_Type v with
  | TypeBytes => true
  | TypeArray => false
  end.

(** [v.GetElems()] *)
Definition GetElems (v : Value) : list Value * option error :=
  match v with
  | VArray l => (l, None)
  | VBytes _ => ([], Some errNoArray)
  end.

(** [v.Bytes()] *)
Definition Bytes (v : Value) : list byte * option error :=
  match v with
  | VBytes b => (b, None)
  | VArray _ => ([], Some errNoBytes)
  end.

(** [v.Get(i)], for an index inside the array; beyond it the library
    returns [nil] or panics, and the caller, which goes on to call a method
    of the result, panics in both cases ([None]). *)
Definition Get (v : Value) (i : nat) : option Value :=
  match v with
  | VArray l => l !! i
  | VBytes _ => None
  end.

(** [v.GetBytes(dst, bits...)]: the slice returned ([nil] with an error),
    the state of the array behind [dst] afterwards, and the error. *)
Definition GetBytes (v : Value) (dst : slice) (bits : option nat)
  : slice * list byte * option error :=
  match v with
  | VArray _ => (mkSlice [] 0, array dst, Some errNoBytes)
  | VBytes b =>
      match bits with
      | Some n =>
          if negb (length b =? n) then
            (mkSlice [] 0, array dst, Some (errBadLength n (length b)))
          else
            let '(s, a) := append_reset dst b in (s, a, None)
      | None =>
          let '(s, a) := append_reset dst b in (s, a, None)
      end
  end.

(** [v.GetHash(buf)]: the state of the array behind [buf], and the error. *)
Definition GetHash (v : Value) (buf : slice) : list byte * option error :=
  let '(_, a, err) := GetBytes v buf (Some 32) in (a, err).

(** [v.GetAddr(buf)] *)
Definition GetAddr (v : Value) (buf : slice) : list byte * option error :=
  let '(_, a, err) := GetBytes v buf (Some 20) in (a, err).

(** [v.GetUint64()]: at most eight bytes, read as a big-endian number. *)
Definition GetUint64 (v : Value) : N * option error :=
  match v with
  | VArray _ => (0%N, Some errNoBytes)
  | VBytes b =>
      if 8 <? length b then (0%N, Some (errUint64TooLong (length b)))
      else (Uint64 (replicate (8 - length b) x00 ++ b), None)
  end.

(** [v.GetBigInt(b)]: [b.SetBytes(v.b)]; the value of [b] afterwards. *)
Definition GetBigInt (v : Value) (b : N) : N * option error :=
  match v with
  | VArray _ => (b, Some errNoBytes)
  | VBytes bs => (be_value bs, None)
  end.

End fastrlp.

(* ===================================================================== *)
(** ** package types: the chain objects and their RLP decoders *)
(* ===================================================================== *)

Module types.
Import Go fastrlp.

Abbreviation TransactionType := byte (only parsing).

(** Modelled from the spec: the struct [Header] is declared outside src/.
    Its fields are those of the data model, in the order of the encoding,
    followed by [Hash], the cached block hash.  The fixed-size arrays
    (hashes, the address, the bloom filter and the eight-byte nonce) are byte
    lists; [wf_Header] states their lengths. *)
Module Header.
Record t : Type := mk {
  ParentHash : list byte;
  Sha3Uncles : list byte;
  Miner : list byte;
  StateRoot : list byte;
  TxRoot : list byte;
  ReceiptsRoot : list byte;
  LogsBloom : list byte;
  Difficulty : N;
  Number : N;
  GasLimit : N;
  GasUsed : N;
  Timestamp : N;
  ExtraData : list byte;
  MixHash : list byte;
  Nonce : list byte;
  Hash : list byte
}.

(** The zero value, [Header{}]. *)
Definition zero : t :=
  {| ParentHash := replicate 32 x00;
     Sha3Uncles := replicate 32 x00;
     Miner := replicate 20 x00;
     StateRoot := replicate 32 x00;
     TxRoot := replicate 32 x00;
     ReceiptsRoot := replicate 32 x00;
     LogsBloom := replicate 256 x00;
     Difficulty := 0%N;
     Number := 0%N;
     GasLimit := 0%N;
     GasUsed := 0%N;
     Timestamp := 0%N;
     ExtraData := [];
     MixHash := replicate 32 x00;
     Nonce := replicate 8 x00;
     Hash := replicate 32 x00 |}.

(** Assignments to one field. *)
Definition set_ParentHash (x : list byte) (r : t) : t :=
  mk x (Sha3Uncles r) (Miner r) (StateRoot r) (TxRoot r) (ReceiptsRoot r) (LogsBloom r)
     (Difficulty r) (Number r) (GasLimit r) (GasUsed r) (Timestamp r) (ExtraData r)
     (MixHash r) (Nonce r) (Hash r).
Definition set_Sha3Uncles (x : list byte) (r : t) : t :=
  mk (ParentHash r) x (Miner r) (StateRoot r) (TxRoot r) (ReceiptsRoot r) (LogsBloom r)
     (Difficulty r) (Number r) (GasLimit r) (GasUsed r) (Timestamp r) (ExtraData r)
     (MixHash r) (Nonce r) (Hash r).
Definition set_Miner (x : list byte) (r : t) : t :=
  mk (ParentHash r) (Sha3Uncles r) x (StateRoot r) (TxRoot r) (ReceiptsRoot r)
     (LogsBloom r) (Difficulty r) (Number r) (GasLimit r) (GasUsed r) (Timestamp r)
     (ExtraData r) (MixHash r) (Nonce r) (Hash r).
Definition set_StateRoot (x : list byte) (r : t) : t :=
  mk (ParentHash r) (Sha3Uncles r) (Miner r) x (TxRoot r) (ReceiptsRoot r) (LogsBloom r)
     (Difficulty r) (Number r) (GasLimit r) (GasUsed r) (Timestamp r) (ExtraData r)
     (MixHash r) (Nonce r) (Hash r).
Definition set_TxRoot (x : list byte) (r : t) : t :=
  mk (ParentHash r) (Sha3Uncles r) (Miner r) (StateRoot r) x (ReceiptsRoot r)
     (LogsBloom r) (Difficulty r) (Number r) (GasLimit r) (GasUsed r) (Timestamp r)
     (ExtraData r) (MixHash r) (Nonce r) (Hash r).
Definition set_ReceiptsRoot (x : list byte) (r : t) : t :=
  mk (ParentHash r) (Sha3Uncles r) (Miner r) (StateRoot r) (TxRoot r) x (LogsBloom r)
     (Difficulty r) (Number r) (GasLimit r) (GasUsed r) (Timestamp r) (ExtraData r)
     (MixHash r) (Nonce r) (Hash r).
Definition set_LogsBloom (x : list byte) (r : t) : t :=
  mk (ParentHash r) (Sha3Uncles r) (Miner r) (StateRoot r) (TxRoot r) (ReceiptsRoot r) x
     (Difficulty r) (Number r) (GasLimit r) (GasUsed r) (Timestamp r) (ExtraData r)
     (MixHash r) (Nonce r) (Hash r).
Definition set_Difficulty (x : N) (r : t) : t :=
  mk (ParentHash r) (Sha3Uncles r) (Miner r) (StateRoot r) (TxRoot r) (ReceiptsRoot r)
     (LogsBloom r) x (Number r) (GasLimit r) (GasUsed r) (Timestamp r) (ExtraData r)
     (MixHash r) (Nonce r) (Hash r).
Definition set_Number (x : N) (r : t) : t :=
  mk (ParentHash r) (Sha3Uncles r) (Miner r) (StateRoot r) (TxRoot r) (ReceiptsRoot r)
     (LogsBloom r) (Difficulty r) x (GasLimit r) (GasUsed r) (Timestamp r) (ExtraData r)
     (MixHash r) (Nonce r) (Hash r).
Definition set_GasLimit (x : N) (r : t) : t :=
  mk (ParentHash r) (Sha3Uncles r) (Miner r) (StateRoot r) (TxRoot r) (ReceiptsRoot r)
     (LogsBloom r) (Difficulty r) (Number r) x (GasUsed r) (Timestamp r) (ExtraData r)
     (MixHash r) (Nonce r) (Hash r).
Definition set_GasUsed (x : N) (r : t) : t :=
  mk (ParentHash r) (Sha3Uncles r) (Miner r) (StateRoot r) (TxRoot r) (ReceiptsRoot r)
     (LogsBloom r) (Difficulty r) (Number r) (GasLimit r) x (Timestamp r) (ExtraData r)
     (MixHash r) (Nonce r) (Hash r).
Definition set_Timestamp (x : N) (r : t) : t :=
  mk (ParentHash r) (Sha3Uncles r) (Miner r) (StateRoot r) (TxRoot r) (ReceiptsRoot r)
     (LogsBloom r) (Difficulty r) (Number r) (GasLimit r) (GasUsed r) x (ExtraData r)
     (MixHash r) (Nonce r) (Hash r).
Definition set_ExtraData (x : list byte) (r : t) : t :=
  mk (ParentHash r) (Sha3Uncles r) (Miner r) (StateRoot r) (TxRoot r) (ReceiptsRoot r)
     (LogsBloom r) (Difficulty r) (Number r) (GasLimit r) (GasUsed r) (Timestamp r) x
     (MixHash r) (Nonce r) (Hash r).
Definition set_MixHash (x : list byte) (r : t) : t :=
  mk (ParentHash r) (Sha3Uncles r) (Miner r) (StateRoot r) (TxRoot r) (ReceiptsRoot r)
     (LogsBloom r) (Difficulty r) (Number r) (GasLimit r) (GasUsed r) (Timestamp r)
     (ExtraData r) x (Nonce r) (Hash r).
Definition set_Nonce (x : list byte) (r : t) : t :=
  mk (ParentHash r) (Sha3Uncles r) (Miner r) (StateRoot r) (TxRoot r) (ReceiptsRoot r)
     (LogsBloom r) (Difficulty r) (Number r) (GasLimit r) (GasUsed r) (Timestamp r)
     (ExtraData r) (MixHash r) x (Hash r).
Definition set_Hash (x : list byte) (r : t) : t :=
  mk (ParentHash r) (Sha3Uncles r) (Miner r) (StateRoot r) (TxRoot r) (ReceiptsRoot r)
     (LogsBloom r) (Difficulty r) (Number r) (GasLimit r) (GasUsed r) (Timestamp r)
     (ExtraData r) (MixHash r) (Nonce r) x.
End Header.

(** Modelled from the spec: the struct [Log], declared outside src/: the
    emitting address, the 32-byte topics and the data. *)
Module Log.
Record t : Type := mk {
  Address : list byte;
  Topics : list (list byte);
  Data : list byte
}.

(** The zero value, [Log{}]. *)
Definition zero : t :=
  {| Address := replicate 20 x00;
     Topics := [];
     Data := [] |}.

(** Assignments to one field. *)
Definition set_Address (x : list byte) (r : t) : t :=
  mk x (Topics r) (Data r).
Definition set_Topics (x : list (list byte)) (r : t) : t :=
  mk (Address r) x (Data r).
Definition set_Data (x : list byte) (r : t) : t :=
  mk (Address r) (Topics r) x.
End Log.

(** Modelled from the spec: the struct [Receipt], declared outside src/,
    with the fields that the decoder reads or writes.  [Status] is a pointer
    in Go ([None] is [nil]). *)
Module Receipt.
Record t : Type := mk {
  Root : list byte;
  CumulativeGasUsed : N;
  LogsBloom : list byte;
  Logs : list Log.t;
  Status : option N;
  TransactionType : byte
}.

(** The zero value, [Receipt{}]. *)
Definition zero : t :=
  {| Root := replicate 32 x00;
     CumulativeGasUsed := 0%N;
     LogsBloom := replicate 256 x00;
     Logs := [];
     Status := None;
     TransactionType := x00 |}.

(** Assignments to one field. *)
Definition set_Root (x : list byte) (r : t) : t :=
  mk x (CumulativeGasUsed r) (LogsBloom r) (Logs r) (Status r) (TransactionType r).
Definition set_CumulativeGasUsed (x : N) (r : t) : t :=
  mk (Root r) x (LogsBloom r) (Logs r) (Status r) (TransactionType r).
Definition set_LogsBloom (x : list byte) (r : t) : t :=
  mk (Root r) (CumulativeGasUsed r) x (Logs r) (Status r) (TransactionType r).
Definition set_Logs (x : list Log.t) (r : t) : t :=
  mk (Root r) (CumulativeGasUsed r) (LogsBloom r) x (Status r) (TransactionType r).
Definition set_Status (x : option N) (r : t) : t :=
  mk (Root r) (CumulativeGasUsed r) (LogsBloom r) (Logs r) x (TransactionType r).
Definition set_TransactionType (x : byte) (r : t) : t :=
  mk (Root r) (CumulativeGasUsed r) (LogsBloom r) (Logs r) (Status r) x.
End Receipt.

(** Modelled from the spec: the struct [LegacyTransaction], declared outside
    src/, with its nine encoded fields.  The [*big.Int] and [*Address] fields
    are pointers ([None] is [nil]). *)
Module LegacyTransaction.
Record t : Type := mk {
  Nonce : N;
  GasPrice : option N;
  Gas : N;
  To : option (list byte);
  Value : option N;
  Input : list byte;
  V : option N;
  R : option N;
  S : option N
}.

(** The zero value, [LegacyTransaction{}]. *)
Definition zero : t :=
  {| Nonce := 0%N;
     GasPrice := None;
     Gas := 0%N;
     To := None;
     Value := None;
     Input := [];
     V := None;
     R := None;
     S := None |}.

(** Assignments to one field. *)
Definition set_Nonce (x : N) (r : t) : t :=
  mk x (GasPrice r) (Gas r) (To r) (Value r) (Input r) (V r) (R r) (S r).
Definition set_GasPrice (x : option N) (r : t) : t :=
  mk (Nonce r) x (Gas r) (To r) (Value r) (Input r) (V r) (R r) (S r).
Definition set_Gas (x : N) (r : t) : t :=
  mk (Nonce r) (GasPrice r) x (To r) (Value r) (Input r) (V r) (R r) (S r).
Definition set_To (x : option (list byte)) (r : t) : t :=
  mk (Nonce r) (GasPrice r) (Gas r) x (Value r) (Input r) (V r) (R r) (S r).
Definition set_Value (x : option N) (r : t) : t :=
  mk (Nonce r) (GasPrice r) (Gas r) (To r) x (Input r) (V r) (R r) (S r).
Definition set_Input (x : list byte) (r : t) : t :=
  mk (Nonce r) (GasPrice r) (Gas r) (To r) (Value r) x (V r) (R r) (S r).
Definition set_V (x : option N) (r : t) : t :=
  mk (Nonce r) (GasPrice r) (Gas r) (To r) (Value r) (Input r) x (R r) (S r).
Definition set_R (x : option N) (r : t) : t :=
  mk (Nonce r) (GasPrice r) (Gas r) (To r) (Value r) (Input r) (V r) x (S r).
Definition set_S (x : option N) (r : t) : t :=
  mk (Nonce r) (GasPrice r) (Gas r) (To r) (Value r) (Input r) (V r) (R r) x.
End LegacyTransaction.

(** Modelled from the spec: the struct [StateTransaction], declared outside
    src/, with its seven encoded fields. *)
Module StateTransaction.
Record t : Type := mk {
  Nonce : N;
  To : option (list byte);
  Input : list byte;
  Signatures : list (list byte);
  V : option N;
  R : option N;
  S : option N
}.

(** The zero value, [StateTransaction{}]. *)
Definition zero : t :=
  {| Nonce := 0%N;
     To := None;
     Input := [];
     Signatures := [];
     V := None;
     R := None;
     S := None |}.

(** Assignments to one field. *)
Definition set_Nonce (x : N) (r : t) : t :=
  mk x (To r) (Input r) (Signatures r) (V r) (R r) (S r).
Definition set_To (x : option (list byte)) (r : t) : t :=
  mk (Nonce r) x (Input r) (Signatures r) (V r) (R r) (S r).
Definition set_Input (x : list byte) (r : t) : t :=
  mk (Nonce r) (To r) x (Signatures r) (V r) (R r) (S r).
Definition set_Signatures (x : list (list byte)) (r : t) : t :=
  mk (Nonce r) (To r) (Input r) x (V r) (R r) (S r).
Definition set_V (x : option N) (r : t) : t :=
  mk (Nonce r) (To r) (Input r) (Signatures r) x (R r) (S r).
Definition set_R (x : option N) (r : t) : t :=
  mk (Nonce r) (To r) (Input r) (Signatures r) (V r) x (S r).
Definition set_S (x : option N) (r : t) : t :=
  mk (Nonce r) (To r) (Input r) (Signatures r) (V r) (R r) x.
End StateTransaction.

(** Modelled from the spec: [TxPayload], the interface of the transaction
    payloads, declared outside src/; the two payloads of the data model
    implement it. *)
Inductive TxPayload : Type :=
| PLegacy (t : LegacyTransaction.t)
| PState (t : StateTransaction.t).

(** Modelled from the spec: the struct [Transaction], declared outside src/:
    the payload and the cached hash. *)
Module Transaction.
Record t : Type := mk {
  Payload : TxPayload;
  Hash : list byte
}.
End Transaction.

(** Modelled from the spec: the struct [Block], declared outside src/: one
    header (a pointer), the transactions and the uncle headers. *)
Module Block.
Record t : Type := mk {
  Header : option Header.t;
  Transactions : list Transaction.t;
  Uncles : list Header.t
}.

Definition zero : t := {| Header := None; Transactions := []; Uncles := [] |}.

Definition set_Header (x : option Header.t) (r : t) : t :=
  mk x (Transactions r) (Uncles r).
Definition set_Transactions (x : list Transaction.t) (r : t) : t :=
  mk (Header r) x (Uncles r).
Definition set_Uncles (x : list Header.t) (r : t) : t :=
  mk (Header r) (Transactions r) x.
End Block.

(** The lengths of the fixed-size arrays of a header. *)
Definition wf_Header (h : Header.t) : Prop :=
  length (Header.ParentHash h) = 32 /\ length (Header.Sha3Uncles h) = 32 /\
  length (Header.Miner h) = 20 /\ length (Header.StateRoot h) = 32 /\
  length (Header.TxRoot h) = 32 /\ length (Header.ReceiptsRoot h) = 32 /\
  length (Header.LogsBloom h) = 256 /\ length (Header.MixHash h) = 32 /\
  length (Header.Nonce h) = 8 /\ length (Header.Hash h) = 32.

(** The range of the [uint64] fields of a header. *)
Definition uint64_Header (h : Header.t) : Prop :=
  (Header.Difficulty h < 2 ^ 64)%N /\ (Header.Number h < 2 ^ 64)%N /\
  (Header.GasLimit h < 2 ^ 64)%N /\ (Header.GasUsed h < 2 ^ 64)%N /\
  (Header.Timestamp h < 2 ^ 64)%N.

(** Modelled from the spec: [h.SetNonce(i)] is not under src/.  The 64-bit
    nonce is carried as eight bytes:
    [binary.BigEndian.PutUint64(h.Nonce[:], i)]. *)
Definition SetNonce (i : N) (h : Header.t) : Header.t :=
  Header.set_Nonce (PutUint64 i) h.

(** Modelled from the spec: [r.SetStatus(s)] is not under src/.  It records
    the status outcome: [r.Status = &s]. *)
Definition SetStatus (s : N) (r : Receipt.t) : Receipt.t :=
  Receipt.set_Status (Some s) r.

(** *** The header encoder *)

(** Modelled from the spec: [arena.NewUint], the atom of an unsigned
    integer, is its big-endian encoding with no leading zero byte, the
    empty string for zero. *)
Fixpoint trim_zeros (b : list byte) : list byte :=
  match b with
  | x00 :: b' => trim_zeros b'
  | _ => b
  end.

Definition NewUint (i : N) : Value := VBytes (trim_zeros (PutUint64 i)).

(** Modelled from the spec: [Header.MarshalRLPWith] is not under src/.  The
    header is encoded as the list of its fifteen fields in the order parent
    hash, uncle-set hash, miner, state root, transaction root, receipt
    root, logs bloom, difficulty, number, gas limit, gas used, timestamp,
    extra data, mix hash, nonce; the nonce is carried as its eight bytes. *)
Definition Header_MarshalRLPWith (h : Header.t) : Value :=
  VArray
    [ VBytes (Header.ParentHash h);
      VBytes (Header.Sha3Uncles h);
      VBytes (Header.Miner h);
      VBytes (Header.StateRoot h);
      VBytes (Header.TxRoot h);
      VBytes (Header.ReceiptsRoot h);
      VBytes (Header.LogsBloom h);
      NewUint (Header.Difficulty h);
      NewUint (Header.Number h);
      NewUint (Header.GasLimit h);
      NewUint (Header.GasUsed h);
      NewUint (Header.Timestamp h);
      VBytes (Header.ExtraData h);
      VBytes (Header.MixHash h);
      VBytes (Header.Nonce h) ].

Section Decoders.

(** What the decoders use from the rest of the repository and from the
    hashing library:
    - [WriteRlp v], the Keccak-256 digest of the canonical byte encoding
      of the element tree [v] ([hasher.WriteRlp]);
    - [TxTypeLegacy], [ToTransactionType] and [newTxPayload], the table
      of the transaction types;
    - [BytesToAddress];
    - [txHash], the hash [Transaction.ComputeHash] caches. *)
Context (WriteRlp : Value -> list byte)
        (TxTypeLegacy : TransactionType)
        (ToTransactionType : byte -> TransactionType * option error)
        (newTxPayload : TransactionType -> option TxPayload * option error)
        (BytesToAddress : list byte -> list byte)
        (txHash : TxPayload -> list byte).

(** Modelled from the spec: [Header.ComputeHash] is not under src/.  The
    cached hash is the hash of the header's canonical encoding. *)
Definition Header_ComputeHash (h : Header.t) : Header.t :=
  Header.set_Hash (WriteRlp (Header_MarshalRLPWith h)) h.

(** [txn.ComputeHash()] *)
Definition Transaction_ComputeHash (txn : Transaction.t) : Transaction.t :=
  Transaction.mk (Transaction.Payload txn) (txHash (Transaction.Payload txn)).

(** **** The assignments the decoders are made of *)

(** [if err = e.GetHash(field[...]); err != nil { return err }], where
    [window] is the slice expression applied to the array field. *)
Definition read_hash {R} (e : Value) (window : list byte -> slice)
    (field : R -> list byte) (set : list byte -> R -> R) : M R unit :=
  r ← get;
  let '(a, err) := GetHash e (window (field r)) in
  modify (set a);; check err.

(** The same with [GetAddr]. *)
Definition read_addr {R} (e : Value) (window : list byte -> slice)
    (field : R -> list byte) (set : list byte -> R -> R) : M R unit :=
  r ← get;
  let '(a, err) := GetAddr e (window (field r)) in
  modify (set a);; check err.

(** [if _, err = e.GetBytes(field[:0], n); err != nil { return err }] on
    an array field. *)
Definition read_fixed {R} (e : Value) (n : nat)
    (field : R -> list byte) (set : list byte -> R -> R) : M R unit :=
  r ← get;
  let '(_, a, err) := GetBytes e (slice_to0 (field r)) (Some n) in
  modify (set a);; check err.

(** [if field, err = e.GetBytes(field[:0]); err != nil { return err }] on
    a slice field.  The field holds the contents of the slice; its
    capacity, which the contents returned do not depend on, is taken to
    be its length. *)
Definition read_bytes {R} (e : Value)
    (field : R -> list byte) (set : list byte -> R -> R) : M R unit :=
  r ← get;
  let '(s, _, err) := GetBytes e (slice_to0 (field r)) None in
  modify (set (contents s));; check err.

(** [if field, err = e.GetUint64(); err != nil { return err }] *)
Definition read_uint64 {R} (e : Value) (set : N -> R -> R) : M R unit :=
  let '(x, err) := GetUint64 e in
  modify (set x);; check err.

(** [field = new(big.Int); if err = e.GetBigInt(field); err != nil { return err }] *)
Definition read_bigint {R} (e : Value) (set : option N -> R -> R) : M R unit :=
  modify (set (Some 0%N));;
  let '(x, err) := GetBigInt e 0%N in
  modify (set (Some x));; check err.

(** [if vv, _ := v.Get(i).Bytes(); len(vv) == 20 { addr := BytesToAddress(vv); t.To = &addr } else { t.To = nil }] *)
Definition read_to {R} (v : Value) (i : nat) (set : option (list byte) -> R -> R)
  : M R unit :=
  match Get v i with
  | None => panic_with NilDereference
  | Some e =>
      let '(vv, _) := Bytes e in
      if length vv =? 20 then modify (set (Some (BytesToAddress vv)))
      else modify (set None)
  end.

(** **** The decoders *)

Definition TransactionType_UnmarshalRLPFrom (v : Value) : M TransactionType unit :=
  let '(bytes, err) := Bytes v in
  check err;;
  let l := length bytes in
  if negb (l =? 1) then
    throw (Errorf ("expected 1 byte transaction type, but size is " +:+ fmt_d l))
  else
    b0 ← index bytes 0;
    let '(t, err) := ToTransactionType b0 in
    modify (fun _ => t);; check err.

Definition Header_UnmarshalRLPFrom (v : Value) : M Header.t unit :=
  let '(elems, err) := GetElems v in
  check err;;
  let num := length elems in
  if negb (num =? 15) then
    throw (Errorf ("not enough elements to decode header, expected 15 but found "
                   +:+ fmt_d num))
  else
    (* parentHash *)
    e ← index elems 0; read_hash e slice_all Header.ParentHash Header.set_ParentHash;;
    (* sha3uncles *)
    e ← index elems 1; read_hash e slice_all Header.Sha3Uncles Header.set_Sha3Uncles;;
    (* miner *)
    e ← index elems 2; read_addr e slice_all Header.Miner Header.set_Miner;;
    (* stateroot *)
    e ← index elems 3; read_hash e slice_all Header.StateRoot Header.set_StateRoot;;
    (* txroot *)
    e ← index elems 4; read_hash e slice_all Header.TxRoot Header.set_TxRoot;;
    (* receiptroot *)
    e ← index elems 5; read_hash e slice_all Header.ReceiptsRoot Header.set_ReceiptsRoot;;
    (* logsBloom *)
    e ← index elems 6; read_fixed e 256 Header.LogsBloom Header.set_LogsBloom;;
    (* difficulty *)
    e ← index elems 7; read_uint64 e Header.set_Difficulty;;
    (* number *)
    e ← index elems 8; read_uint64 e Header.set_Number;;
    (* gasLimit *)
    e ← index elems 9; read_uint64 e Header.set_GasLimit;;
    (* gasused *)
    e ← index elems 10; read_uint64 e Header.set_GasUsed;;
    (* timestamp *)
    e ← index elems 11; read_uint64 e Header.set_Timestamp;;
    (* extraData *)
    e ← index elems 12; read_bytes e Header.ExtraData Header.set_ExtraData;;
    (* mixHash *)
    e ← index elems 13; read_hash e slice_to0 Header.MixHash Header.set_MixHash;;
    (* nonce *)
    e ← index elems 14;
    let '(nonce, err) := GetUint64 e in
    check err;;
    modify (SetNonce nonce);;
    (* compute the hash after the decoding *)
    modify Header_ComputeHash;;
    check err.

Definition Log_UnmarshalRLPFrom (v : Value) : M Log.t unit :=
  let '(elems, err) := GetElems v in
  check err;;
  if negb (length elems =? 3) then throw (Errorf "bad elems")
  else
    (* address *)
    e ← index elems 0; read_addr e slice_all Log.Address Log.set_Address;;
    (* topics *)
    e ← index elems 1;
    let '(topicElems, err) := GetElems e in
    check err;;
    modify (Log.set_Topics (replicate (length topicElems) (replicate 32 x00)));;
    for_range_from 0 topicElems (fun indx topic =>
      l ← get;
      slot ← index (Log.Topics l) indx;
      let '(a, err) := GetHash topic (slice_all slot) in
      modify (Log.set_Topics (<[indx := a]> (Log.Topics l)));; check err);;
    (* data *)
    e ← index elems 2; read_bytes e Log.Data Log.set_Data.

Definition Receipt_UnmarshalRLPFrom (v : Value) : M Receipt.t unit :=
  let '(elems, err) := GetElems v in
  check err;;
  if negb (length elems =? 4) then throw (Errorf "expected 4 elements")
  else
    (* root or status *)
    e ← index elems 0;
    let '(buf, err) := Bytes e in
    check err;;
    (let size := length buf in
     if size =? 32 then
       (* root *)
       modify (fun r => Receipt.set_Root (copy_bytes (Receipt.Root r) buf) r)
     else if size =? 1 then
       (* status *)
       b0 ← index buf 0; modify (SetStatus (Byte.to_N b0))
     else modify (SetStatus 0%N));;
    (* cumulativeGasUsed *)
    e ← index elems 1; read_uint64 e Receipt.set_CumulativeGasUsed;;
    (* logsBloom *)
    e ← index elems 2; read_fixed e 256 Receipt.LogsBloom Receipt.set_LogsBloom;;
    (* logs *)
    match Get v 3 with
    | None => panic_with NilDereference
    | Some e =>
        let '(logsElems, err) := GetElems e in
        check err;;
        for_range logsElems (fun elem =>
          log ← with_new Log.zero (Log_UnmarshalRLPFrom elem);
          modify (fun r => Receipt.set_Logs (Receipt.Logs r ++ [log]) r))
    end.

(** One round of the loop of [Receipts.UnmarshalRLPFrom], entered with
    the index [i]; the index at the end of the round is returned. *)
Definition Receipts_loop_body (elems : list Value) (i : nat)
  : M (list Receipt.t) nat :=
  e ← index elems i;
  '(txType, i) ←
    (if isTypeBytes e then
       (* Parse Transaction Type if Bytes come first *)
       txType ← with_new TxTypeLegacy (TransactionType_UnmarshalRLPFrom e);
       mret (txType, i + 1)
     else mret (TxTypeLegacy, i));
  e ← index elems i;
  rr ← with_new (Receipt.set_TransactionType txType Receipt.zero)
                (Receipt_UnmarshalRLPFrom e);
  modify (fun r => r ++ [rr]);;
  mret i.

Definition Receipts_UnmarshalRLPFrom (v : Value) : M (list Receipt.t) unit :=
  let '(elems, err) := GetElems v in
  check err;;
  for_loop (S (length elems)) (length elems) (Receipts_loop_body elems) 0.

Definition LegacyTransaction_UnmarshalRLPFrom (v : Value) : M LegacyTransaction.t unit :=
  let '(elems, err) := GetElems v in
  check err;;
  let num := length elems in
  if negb (num =? 9) then
    throw (Errorf ("not enough elements to decode transaction, expected 9 but found "
                   +:+ fmt_d num))
  else
    (* nonce *)
    e ← index elems 0; read_uint64 e LegacyTransaction.set_Nonce;;
    (* gasPrice *)
    e ← index elems 1; read_bigint e LegacyTransaction.set_GasPrice;;
    (* gas *)
    e ← index elems 2; read_uint64 e LegacyTransaction.set_Gas;;
    (* to *)
    read_to v 3 LegacyTransaction.set_To;;
    (* value *)
    e ← index elems 4; read_bigint e LegacyTransaction.set_Value;;
    (* input *)
    e ← index elems 5; read_bytes e LegacyTransaction.Input LegacyTransaction.set_Input;;
    (* V *)
    e ← index elems 6; read_bigint e LegacyTransaction.set_V;;
    (* R *)
    e ← index elems 7; read_bigint e LegacyTransaction.set_R;;
    (* S *)
    e ← index elems 8; read_bigint e LegacyTransaction.set_S.

Definition StateTransaction_UnmarshalRLPFrom (v : Value) : M StateTransaction.t unit :=
  let '(elems, err) := GetElems v in
  check err;;
  let num := length elems in
  if negb (num =? 7) then
    throw (Errorf ("not enough elements to decode transaction, expected 7 but found "
                   +:+ fmt_d num))
  else
    (* nonce *)
    e ← index elems 0; read_uint64 e StateTransaction.set_Nonce;;
    (* to *)
    read_to v 1 StateTransaction.set_To;;
    (* input *)
    e ← index elems 2; read_bytes e StateTransaction.Input StateTransaction.set_Input;;
    (* Signatures *)
    e ← index elems 3;
    let '(sigElems, err) := GetElems e in
    check err;;
    modify (StateTransaction.set_Signatures (replicate (length sigElems) []));;
    for_range_from 0 sigElems (fun i e =>
      t ← get;
      slot ← index (StateTransaction.Signatures t) i;
      let '(s, _, err) := GetBytes e (slice_to0 slot) None in
      modify (StateTransaction.set_Signatures
                (<[i := contents s]> (StateTransaction.Signatures t)));;
      check err);;
    (* V *)
    e ← index elems 4; read_bigint e StateTransaction.set_V;;
    (* R *)
    e ← index elems 5; read_bigint e StateTransaction.set_R;;
    (* S *)
    e ← index elems 6; read_bigint e StateTransaction.set_S.

(** [payload.UnmarshalRLPFrom(p, v)] through the interface. *)
Definition TxPayload_UnmarshalRLPFrom (v : Value) : M TxPayload unit :=
  fun payload =>
    match payload with
    | PLegacy t =>
        let '(r, t') := LegacyTransaction_UnmarshalRLPFrom v t in (r, PLegacy t')
    | PState t =>
        let '(r, t') := StateTransaction_UnmarshalRLPFrom v t in (r, PState t')
    end.

(** One round of the loop of [Transactions.UnmarshalRLPFrom], entered
    with the index [i]; the index at the end of the round is returned. *)
Definition Transactions_loop_body (txns : list Value) (i : nat)
  : M (list Transaction.t) nat :=
  e ← index txns i;
  '(txType, i) ←
    (if isTypeBytes e then
       txType ← with_new TxTypeLegacy (TransactionType_UnmarshalRLPFrom e);
       mret (txType, i + 1)
     else mret (TxTypeLegacy, i));
  let '(payload, err) := newTxPayload txType in
  check err;;
  e ← index txns i;
  payload ← match payload with
            | None => panic_with NilDereference
            | Some payload => with_new payload (TxPayload_UnmarshalRLPFrom e)
            end;
  let txn := Transaction_ComputeHash (Transaction.mk payload (replicate 32 x00)) in
  modify (fun tt => tt ++ [txn]);;
  mret i.

Definition Transactions_UnmarshalRLPFrom (v : Value) : M (list Transaction.t) unit :=
  let '(txns, err) := GetElems v in
  check err;;
  for_loop (S (length txns)) (length txns) (Transactions_loop_body txns) 0.

Definition Block_UnmarshalRLPFrom (v : Value) : M Block.t unit :=
  let '(elems, err) := GetElems v in
  check err;;
  let num := length elems in
  if negb (num =? 3) then
    throw (Errorf ("not enough elements to decode block, expected 3 but found "
                   +:+ fmt_d num))
  else
    (* header *)
    modify (Block.set_Header (Some Header.zero));;
    e ← index elems 0;
    zoom (fun b => default Header.zero (Block.Header b))
         (fun h => Block.set_Header (Some h))
         (Header_UnmarshalRLPFrom e);;
    (* transactions *)
    e ← index elems 1;
    txns ← with_new [] (Transactions_UnmarshalRLPFrom e);
    modify (Block.set_Transactions txns);;
    (* uncles *)
    e ← index elems 2;
    let '(uncles, err) := GetElems e in
    check err;;
    for_range uncles (fun uncle =>
      bUncle ← with_new Header.zero (Header_UnmarshalRLPFrom uncle);
      modify (fun b => Block.set_Uncles (Block.Uncles b ++ [bUncle]) b)).

(** **** The two scanning loops, read as recursions on the stream

    [Transactions_scan n txns] is what the loop of
    [Transactions.UnmarshalRLPFrom] does from the moment [txns] is what
    is left of a stream of [n] elements: a list element is decoded in
    place as a legacy transaction; an atom is read as the type of the
    next element, which is decoded accordingly, and when no element is
    left after it the access [txns[i]] is out of range.  That the loops
    compute these recursions is [Transactions_loop_scan] and
    [Receipts_loop_scan]. *)
Definition Transactions_decode_one (payload : option TxPayload) (e : Value)
  : M (list Transaction.t) unit :=
  payload ← match payload with
            | None => panic_with NilDereference
            | Some payload => with_new payload (TxPayload_UnmarshalRLPFrom e)
            end;
  let txn := Transaction_ComputeHash (Transaction.mk payload (replicate 32 x00)) in
  modify (fun tt => tt ++ [txn]).

Fixpoint Transactions_scan (n : nat) (txns : list Value)
  : M (list Transaction.t) unit :=
  match txns with
  | [] => mret tt
  | e :: rest =>
      if isTypeBytes e then
        txType ← with_new TxTypeLegacy (TransactionType_UnmarshalRLPFrom e);
        let '(payload, err) := newTxPayload txType in
        check err;;
        match rest with
        | [] => panic_with (IndexOutOfRange (Z.of_nat n) n)
        | e' :: rest' =>
            Transactions_decode_one payload e';; Transactions_scan n rest'
        end
      else
        let '(payload, err) := newTxPayload TxTypeLegacy in
        check err;;
        Transactions_decode_one payload e;; Transactions_scan n rest
  end.

Definition Receipts_decode_one (txType : TransactionType) (e : Value)
  : M (list Receipt.t) unit :=
  rr ← with_new (Receipt.set_TransactionType txType Receipt.zero)
                (Receipt_UnmarshalRLPFrom e);
  modify (fun r => r ++ [rr]).

Fixpoint Receipts_scan (n : nat) (elems : list Value) : M (list Receipt.t) unit :=
  match elems with
  | [] => mret tt
  | e :: rest =>
      if isTypeBytes e then
        txType ← with_new TxTypeLegacy (TransactionType_UnmarshalRLPFrom e);
        match rest with
        | [] => panic_with (IndexOutOfRange (Z.of_nat n) n)
        | e' :: rest' => Receipts_decode_one txType e';; Receipts_scan n rest'
        end
      else
        Receipts_decode_one TxTypeLegacy e;; Receipts_scan n rest
  end.

End Decoders.

(** A table of transaction types to run the decoders on: [0x00] is the
    legacy type, [0x02] the type of the typed (state) transaction, and no
    other byte is a type. *)
Definition sample_ToTransactionType (b : byte) : TransactionType * option error :=
  match b with
  | x00 | x02 => (b, None)
  | _ => (b, Some (Errorf "undefined transaction type"))
  end.

Definition sample_newTxPayload (t : TransactionType) : option TxPayload * option error :=
  match t with
  | x00 => (Some (PLegacy LegacyTransaction.zero), None)
  | x02 => (Some (PState StateTransaction.zero), None)
  | _ => (None, Some (Errorf "unsupported transaction type"))
  end.

(** A legacy transaction and a typed transaction, as element trees. *)
Definition sample_legacy : Value :=
  VArray [ VBytes [x01]; VBytes [x02]; VBytes [x52; x08]; VBytes (replicate 20 x11);
           VBytes [x05]; VBytes []; VBytes [x1b]; VBytes [x07]; VBytes [x08] ].

Definition sample_typed : Value :=
  VArray [ VBytes [x03]; VBytes []; VBytes [xaa]; VArray [VBytes [x01; x02]];
           VBytes [x1c]; VBytes [x09]; VBytes [x0a] ].

(** What the two payload decoders make of them. *)
Definition sample_legacy_decoded : LegacyTransaction.t :=
  Eval vm_compute in
    snd (LegacyTransaction_UnmarshalRLPFrom (fun a => a) sample_legacy
           LegacyTransaction.zero).

Definition sample_typed_decoded : StateTransaction.t :=
  Eval vm_compute in
    snd (StateTransaction_UnmarshalRLPFrom (fun a => a) sample_typed
           StateTransaction.zero).

(** Every bytes atom of the stream is followed by a further element. *)
Definition followed (elems : list Value) : Prop :=
  forall i b, elems !! i = Some (VBytes b) -> i + 1 < length elems.

(** The inputs that [Header.UnmarshalRLPFrom] accepts: fifteen atoms of
    these widths. *)
Definition header_atoms (v : Value)
    (parent uncles miner state tx receipts bloom : list byte)
    (difficulty number gasLimit gasUsed timestamp : list byte)
    (extra mix nonce : list byte) : Prop :=
  v = VArray [ VBytes parent; VBytes uncles; VBytes miner; VBytes state; VBytes tx;
               VBytes receipts; VBytes bloom; VBytes difficulty; VBytes number;
               VBytes gasLimit; VBytes gasUsed; VBytes timestamp; VBytes extra;
               VBytes mix; VBytes nonce ] /\
  length parent = 32 /\ length uncles = 32 /\ length miner = 20 /\
  length state = 32 /\ length tx = 32 /\ length receipts = 32 /\
  length bloom = 256 /\
  length difficulty <= 8 /\ length number <= 8 /\ length gasLimit <= 8 /\
  length gasUsed <= 8 /\ length timestamp <= 8 /\
  length mix = 32 /\ length nonce <= 8.

(** The header that the fifteen atoms make when read into the receiver
    [h]: the numbers are the big-endian values of their atoms, the nonce is
    stored on eight bytes, and the hash is computed last. *)
Definition decoded_header (WriteRlp : Value -> list byte) (h : Header.t)
    (parent uncles miner state tx receipts bloom : list byte)
    (difficulty number gasLimit gasUsed timestamp : list byte)
    (extra mix nonce : list byte) : Header.t :=
  Header_ComputeHash WriteRlp
    (Header.mk parent uncles miner state tx receipts bloom
       (be_value difficulty) (be_value number) (be_value gasLimit)
       (be_value gasUsed) (be_value timestamp) extra mix
       (PutUint64 (be_value nonce)) (Header.Hash h)).

(** The recipient that [read_to] stores for the element [e]: the address
    made of a 20-byte atom, and [nil] for any other element. *)
Definition recipient (BytesToAddress : list byte -> list byte) (e : Value)
  : option (list byte) :=
  match e with
  | VBytes b => if length b =? 20 then Some (BytesToAddress b) else None
  | VArray _ => None
  end.

(** *** Decoding from raw bytes *)

(** A call made to [fastrlp.DefaultParserPool]. *)
Inductive pool_event : Type := PoolGet | PoolPut.

(** The state of a call that borrows a parser: the receiver and the calls
    made to the pool so far, in order. *)
Definition pooled (R : Type) : Type := (R * list pool_event)%type.

Definition pool_call {R} (e : pool_event) : M (pooled R) unit :=
  modify (fun s => (fst s, snd s ++ [e])).

(** A method of the receiver, called where the pool is in the state too. *)
Definition on_receiver {R A} (m : M R A) : M (pooled R) A :=
  zoom fst (fun r s => (r, snd s)) m.

(** [err := f(...)]: the error result of a call, as a value. *)
Definition error_of {R A} (m : M R A) : M R (option error) :=
  fun s =>
    match m s with
    | (Ok _, s') => (Ok None, s')
    | (Err e, s') => (Ok (Some e), s')
    | (Panic p, s') => (Panic p, s')
    | (OutOfRounds, s') => (OutOfRounds, s')
    end.

(** The fields of the receiver of [Transaction.UnmarshalRLP]: the payload,
    an interface value that may be [nil] ([None]), and the cached hash. *)
Record TransactionFields : Type := mkTransactionFields {
  FPayload : option TxPayload;
  FHash : list byte
}.

Section TopLevel.

(** [Parse] is [fastrlp.Parser.Parse], the parser of the library, which
    is not part of the repository.  [RLPSingleByteUpperLimit] is a
    constant of the package declared outside src/.  The other names are
    those of the section [Decoders]. *)
Context (Parse : list byte -> Value * option error)
        (RLPSingleByteUpperLimit : byte)
        (WriteRlp : Value -> list byte)
        (TxTypeLegacy : TransactionType)
        (ToTransactionType : byte -> TransactionType * option error)
        (newTxPayload : TransactionType -> option TxPayload * option error)
        (BytesToAddress : list byte -> list byte)
        (txHash : TxPayload -> list byte).

(** [UnmarshalRlp(obj, input)] *)
Definition UnmarshalRlp {R} (obj : Value -> M R unit) (input : list byte)
  : M (pooled R) unit :=
  pool_call PoolGet;;
  let '(v, err) := Parse input in
  match err with
  | Some e => pool_call PoolPut;; throw e
  | None =>
      err ← error_of (on_receiver (obj v));
      match err with
      | Some e => pool_call PoolPut;; throw e
      | None => pool_call PoolPut;; mret tt
      end
  end.

(** [Block.UnmarshalRLP(input)] *)
Definition Block_UnmarshalRLP (input : list byte) : M (pooled Block.t) unit :=
  UnmarshalRlp
    (Block_UnmarshalRLPFrom WriteRlp TxTypeLegacy ToTransactionType newTxPayload
       BytesToAddress txHash) input.

(** [Header.UnmarshalRLP(input)] *)
Definition Header_UnmarshalRLP (input : list byte) : M (pooled Header.t) unit :=
  UnmarshalRlp (Header_UnmarshalRLPFrom WriteRlp) input.

(** [Receipts.UnmarshalRLP(input)] *)
Definition Receipts_UnmarshalRLP (input : list byte)
  : M (pooled (list Receipt.t)) unit :=
  UnmarshalRlp (Receipts_UnmarshalRLPFrom TxTypeLegacy ToTransactionType) input.

(** [txType := TxTypeLegacy; offset := 0;
     if len(input) > 0 && input[0] <= RLPSingleByteUpperLimit {
       if txType, err = ToTransactionType(input[0]); err != nil { return err }
       offset = 1 }],
    the opening of [Receipt.UnmarshalRLP] and [Transaction.UnmarshalRLP]:
    the values of [txType] and [offset] afterwards. *)
Definition leading_type {R} (input : list byte) : M R (TransactionType * nat) :=
  match input with
  | b0 :: _ =>
      if (Byte.to_N b0 <=? Byte.to_N RLPSingleByteUpperLimit)%N then
        let '(txType, err) := ToTransactionType b0 in
        check err;; mret (txType, 1)
      else mret (TxTypeLegacy, 0)
  | [] => mret (TxTypeLegacy, 0)
  end.

(** [Receipt.UnmarshalRLP(input)] *)
Definition Receipt_UnmarshalRLP (input : list byte) : M (pooled Receipt.t) unit :=
  '(txType, offset) ← leading_type input;
  modify (fun s => (Receipt.set_TransactionType txType (fst s), snd s));;
  UnmarshalRlp Receipt_UnmarshalRLPFrom (drop offset input).

(** [Transaction.UnmarshalRLP(input)].  The method value
    [t.Payload.UnmarshalRLPFrom] is taken before [UnmarshalRlp] is
    called, and taking it from a [nil] interface panics. *)
Definition Transaction_UnmarshalRLP (input : list byte)
  : M (pooled TransactionFields) unit :=
  '(txType, offset) ← leading_type input;
  let '(payload, err) := newTxPayload txType in
  modify (fun s => (mkTransactionFields payload (FHash (fst s)), snd s));;
  check err;;
  match payload with
  | None => panic_with NilDereference
  | Some payload =>
      UnmarshalRlp
        (fun v => zoom (fun _ => payload)
                       (fun p t => mkTransactionFields (Some p) (FHash t))
                       (TxPayload_UnmarshalRLPFrom BytesToAddress v))
        (drop offset input)
  end.

End TopLevel.

End types.

(* ===================================================================== *)
(** ** package polybft: the london and nikaragva header-extra handlers *)
(* ===================================================================== *)

Module polybft.
Import Go.

Section Handlers.
(** [Signature], [validator.ValidatorSetDelta] and [CheckpointData] are
    declared in other files of the package and are only copied here;
    [emptySignature] is the zero value [Signature{}].  [Logger] is
    [hclog.Logger]: a logger is used through [Warn] alone, and what
    matters of it is the lines it was given. *)
Context {Signature ValidatorSetDelta CheckpointData Logger : Type}
        (emptySignature : Signature).

(** Modelled from the spec: the struct [Extra] is declared outside src/.
    Its fields are the shared envelope of the data model (block number,
    parent, validators, checkpoint, committed signature), the two
    fork-specific strings and the logger that the handlers refer to.
    Pointer and interface fields are options, [None] being [nil]. *)
Record Extra : Type := mkExtra {
  BlockNumber : N;
  Parent : option Signature;
  Validators : option ValidatorSetDelta;
  Checkpoint : option CheckpointData;
  Committed : option Signature;
  Dummy1 : string;
  Dummy2 : string;
  ExtraLogger : option Logger
}.

(** The outcome of a method that logs: the lines written with
    [logger.Warn], in order, and the error returned.  A [nil] logger
    makes the first [Warn] panic. *)
Definition logged (A : Type) : Type := outcome (list string * A).

(** [ExtraHandlerLondon.ValidateAdditional(extra, header, logger)] *)
Definition ExtraHandlerLondon_ValidateAdditional
    (extra : Extra) (header : types.Header.t) (logger : option Logger)
  : logged (option error) :=
  match logger with
  | None => Panics NilDereference
  | Some _ =>
      let lines := ["ValidateAdditional London style"] in
      if String.eqb (Dummy1 extra) EmptyString then
        Returns (lines, Some (Errorf ("dummy1 is empty for block "
                                      +:+ fmt_d_N (types.Header.Number header))))
      else Returns (lines, None)
  end.

(** [ExtraHandlerAdditionalLondon.GetIbftExtraClean(extra)] *)
Definition ExtraHandlerAdditionalLondon_GetIbftExtraClean (extra : Extra) : Extra :=
  {| BlockNumber := BlockNumber extra;
     Parent := Parent extra;
     Validators := Validators extra;
     Checkpoint := Checkpoint extra;
     Committed := Some emptySignature;
     Dummy1 := Dummy1 extra;
     Dummy2 := EmptyString;
     ExtraLogger := None |}.

(** [ExtraHandlerNikaragva.ValidateAdditional(extra, header, logger)] *)
Definition ExtraHandlerNikaragva_ValidateAdditional
    (extra : Extra) (header : types.Header.t) (logger : option Logger)
  : logged (option error) :=
  match logger with
  | None => Panics NilDereference
  | Some _ =>
      let lines := ["ValidateAdditional Nikaragva style"] in
      if String.eqb (Dummy1 extra) EmptyString then
        Returns (lines, Some (Errorf ("dummy1 is empty for block "
                                      +:+ fmt_d_N (types.Header.Number header))))
      else if String.eqb (Dummy2 extra) EmptyString then
        Returns (lines, Some (Errorf ("dummy2 is empty for block "
                                      +:+ fmt_d_N (types.Header.Number header))))
      else Returns (lines, None)
  end.

(** [ExtraHandlerAdditionalNikaragva.GetIbftExtraClean(extra)] *)
Definition ExtraHandlerAdditionalNikaragva_GetIbftExtraClean (extra : Extra) : Extra :=
  {| BlockNumber := BlockNumber extra;
     Parent := Parent extra;
     Validators := Validators extra;
     Checkpoint := Checkpoint extra;
     Committed := Some emptySignature;
     Dummy1 := Dummy1 extra;
     Dummy2 := Dummy2 extra;
     ExtraLogger := None |}.

(** The error of a call that returned, if any. *)
Definition returned_error (r : logged (option error)) : option error :=
  match r with
  | Returns (_, err) => err
  | Panics _ => None
  end.

End Handlers.

End polybft.

(* ===================================================================== *)
(** ** Properties of the Go run-time model *)
(* ===================================================================== *)

Section SearchFacts.
Import Go.

(** The binary search loop returns the partition point of a predicate that
    is monotone on [0, n): everything below is rejected, everything from
    the result on is accepted. *)
Lemma search_loop_spec (n : nat) (f : nat -> bool) :
  (forall a b, a <= b -> b < n -> f a = true -> f b = true) ->
  forall rounds i j,
    j - i <= rounds -> i <= j -> j <= n ->
    (forall k, k < i -> f k = false) ->
    (forall k, j <= k -> k < n -> f k = true) ->
    let r := search_loop rounds f i j in
    i <= r /\ r <= j /\
    (forall k, k < r -> f k = false) /\
    (forall k, r <= k -> k < n -> f k = true).
Proof.
  intros Hmono rounds.
  induction rounds as [|rounds IH]; intros i j Hfuel Hij Hjn Hlo Hhi; cbn [search_loop].
  - assert (i = j) by lia. subst j. repeat split; auto.
  - destruct (Nat.ltb_spec i j) as [Hlt|Hge].
    + assert (Hh : i <= (i + j) / 2 /\ (i + j) / 2 < j).
      { split.
        - apply Nat.div_le_lower_bound; lia.
        - apply Nat.Div0.div_lt_upper_bound; lia. }
      destruct Hh as [Hh1 Hh2].
      destruct (f ((i + j) / 2)) eqn:Hf; cbn [negb].
      * specialize (IH i ((i + j) / 2)).
        destruct IH as (H1 & H2 & H3 & H4); try lia; auto.
        { intros k Hk1 Hk2. apply (Hmono ((i + j) / 2) k); auto. }
        repeat split; auto; lia.
      * specialize (IH ((i + j) / 2 + 1) j).
        destruct IH as (H1 & H2 & H3 & H4); try lia; auto.
        { intros k Hk. destruct (f k) eqn:Hfk; auto.
          rewrite (Hmono k ((i + j) / 2)) in Hf; try lia; auto. }
        repeat split; auto; lia.
    + assert (i = j) by lia. subst j. repeat split; auto.
Qed.

Lemma Search_spec (n : nat) (f : nat -> bool) :
  (forall a b, a <= b -> b < n -> f a = true -> f b = true) ->
  Search n f <= n /\
  (forall k, k < Search n f -> f k = false) /\
  (forall k, Search n f <= k -> k < n -> f k = true).
Proof.
  intros Hmono. unfold Search.
  destruct (search_loop_spec n f Hmono n 0 n) as (_ & H2 & H3 & H4); try lia.
  auto.
Qed.

(** The three statements of [insert_at] put [x] at [index] and shift the
    tail by one. *)
Lemma insert_at_spec {A} (zero : A) (s : list A) (index : nat) (x : A) :
  index <= length s ->
  insert_at zero s index x = take index s ++ x :: drop index s.
Proof.
  intros Hle. unfold insert_at, copy_within.
  rewrite length_app. cbn [length].
  replace (length s + 1 - (index + 1)) with (length s - index) by lia.
  replace (length s + 1 - index) with (S (length s - index)) by lia.
  rewrite Nat.min_l by lia.
  replace (index + 1 + (length s - index)) with (length s + 1) by lia.
  rewrite (drop_ge (s ++ [zero]) (length s + 1)) by (rewrite length_app; cbn [length]; lia).
  rewrite app_nil_r.
  rewrite drop_app_le by lia.
  rewrite (take_app_le (drop index s)) by (rewrite length_drop; lia).
  rewrite (take_ge (drop index s)) by (rewrite length_drop; lia).
  replace (index + 1) with (S index) by lia.
  destruct (decide (index = length s)) as [->|Hne].
  - rewrite take_ge by (rewrite length_app; cbn [length]; lia).
    rewrite drop_ge by lia. rewrite app_nil_r.
    rewrite take_ge by lia.
    rewrite insert_app_r_alt by lia.
    rewrite Nat.sub_diag. reflexivity.
  - assert (Hlt : index < length s) by lia.
    rewrite take_app_le by lia.
    destruct (lookup_lt_is_Some_2 s index Hlt) as [y Hy].
    rewrite (take_S_r s index y Hy).
    rewrite <- app_assoc.
    rewrite insert_app_r_alt by (rewrite length_take; lia).
    rewrite length_take. rewrite Nat.min_l by lia. rewrite Nat.sub_diag.
    reflexivity.
Qed.

End SearchFacts.

(* ===================================================================== *)
(** ** Properties of the fork registry *)
(* ===================================================================== *)

Section ForkManagerFacts.
Import Go forkmanager.

(** Where the registration search lands in an ascending table: strictly
    smaller block numbers before it, the rest from it on. *)
Lemma insertion_point {A} (key : A -> uint64) (l : list A) (v : uint64) :
  ascending key l ->
  let index := Search (length l) (fun i =>
    match l !! i with Some a => (v <=? key a)%N | None => false end) in
  index <= length l /\
  (forall k a, k < index -> l !! k = Some a -> (key a < v)%N) /\
  (forall k a, index <= k -> l !! k = Some a -> (v <= key a)%N).
Proof.
  intros Hasc index.
  destruct (Search_spec (length l) (fun i =>
    match l !! i with Some a => (v <=? key a)%N | None => false end))
    as (H1 & H2 & H3).
  { intros a b Hab Hb.
    destruct (lookup_lt_is_Some_2 l a) as [xa Hxa]; [lia|].
    destruct (lookup_lt_is_Some_2 l b) as [xb Hxb]; [lia|].
    rewrite Hxa, Hxb. intros Hv.
    apply N.leb_le in Hv. apply N.leb_le.
    specialize (Hasc a b xa xb Hab Hxa Hxb). lia. }
  fold index in H1, H2, H3.
  split; [exact H1|]. split.
  - intros k a Hk Ha. specialize (H2 k Hk). cbv beta in H2. rewrite Ha in H2.
    apply N.leb_gt in H2. exact H2.
  - intros k a Hk Ha.
    assert (Hlt : k < length l) by (eapply lookup_lt_Some; eauto).
    specialize (H3 k Hk Hlt). cbv beta in H3. rewrite Ha in H3.
    apply N.leb_le in H3. exact H3.
Qed.

(** Inserting at the insertion point keeps the table ascending. *)
Lemma ascending_insert {A} (key : A -> uint64) (l : list A) (index : nat) (x : A) :
  ascending key l ->
  index <= length l ->
  (forall k a, k < index -> l !! k = Some a -> (key a < key x)%N) ->
  (forall k a, index <= k -> l !! k = Some a -> (key x <= key a)%N) ->
  ascending key (take index l ++ x :: drop index l).
Proof.
  intros Hasc Hle Hlo Hhi i j a b Hij Ha Hb.
  assert (Hlen : length (take index l) = index) by (rewrite length_take; lia).
  assert (Hget : forall k c, (take index l ++ x :: drop index l) !! k = Some c ->
            (k < index /\ l !! k = Some c) \/ (k = index /\ c = x) \/
            (index < k /\ l !! (k - 1) = Some c)).
  { intros k c Hk.
    destruct (Nat.lt_trichotomy k index) as [Hlt|[Heq|Hgt]].
    - left. split; [exact Hlt|].
      rewrite lookup_app_l in Hk by lia.
      rewrite lookup_take_lt in Hk by lia. exact Hk.
    - right; left. split; [exact Heq|]. subst k.
      rewrite lookup_app_r in Hk by lia.
      rewrite Hlen, Nat.sub_diag in Hk. rewrite lookup_cons in Hk. congruence.
    - right; right. split; [exact Hgt|].
      rewrite lookup_app_r in Hk by lia.
      rewrite Hlen in Hk.
      destruct (k - index) as [|m] eqn:Hm; [lia|].
      rewrite lookup_cons in Hk. rewrite lookup_drop in Hk.
      replace (k - 1) with (index + m) by lia. exact Hk. }
  destruct (Hget i a Ha) as [[Hi Hia]|[[Hi Hia]|[Hi Hia]]];
    destruct (Hget j b Hb) as [[Hj Hjb]|[[Hj Hjb]|[Hj Hjb]]]; subst; try lia.
  - eapply Hasc; [|exact Hia|exact Hjb]. lia.
  - specialize (Hlo i a Hi Hia). lia.
  - specialize (Hlo i a Hi Hia).
    specialize (Hhi (j - 1) b ltac:(lia) Hjb). lia.
  - apply (Hhi (j - 1) b); [lia|exact Hjb].
  - eapply Hasc; [|exact Hia|exact Hjb]. lia.
Qed.

End ForkManagerFacts.

Section ForkManagerTheorems.
Import Go forkmanager.
Context {any : Type} (nil_any : any).

Local Abbreviation forkManager := (@forkManager any).
Local Abbreviation RegisterHandler := (RegisterHandler nil_any).
Local Abbreviation exec := (exec nil_any).
Local Abbreviation run := (run nil_any).

Lemma ascending_nil {A} (key : A -> uint64) : ascending key [].
Proof. intros i j a b _ Ha. rewrite lookup_nil in Ha. discriminate. Qed.

Lemma ascending_singleton {A} (key : A -> uint64) (x : A) : ascending key [x].
Proof.
  intros i j a b _ Ha Hb.
  apply list_lookup_singleton_Some in Ha as [_ <-].
  apply list_lookup_singleton_Some in Hb as [_ <-]. lia.
Qed.

(** What [RegisterFork] does to the fork list. *)
Lemma RegisterFork_forks (fm : forkManager) (name : ForkName) (fromBlock : uint64) :
  ascending FromBlockNumber (forks fm) ->
  exists before after,
    forks fm = before ++ after /\
    forks (RegisterFork fm name fromBlock) = before ++ mkFork name fromBlock :: after /\
    Forall (fun f => (FromBlockNumber f < fromBlock)%N) before /\
    Forall (fun f => (fromBlock <= FromBlockNumber f)%N) after /\
    ascending FromBlockNumber (forks (RegisterFork fm name fromBlock)).
Proof.
  intros Hasc. unfold RegisterFork.
  destruct (Nat.eqb_spec (length (forks fm)) 0) as [Hz|Hnz]; cbn [forks].
  - apply nil_length_inv in Hz. rewrite Hz.
    exists [], []. repeat split; auto. apply ascending_singleton.
  - destruct (insertion_point FromBlockNumber (forks fm) fromBlock Hasc) as (Hle & Hlo & Hhi).
    set (index := Search _ _) in *.
    rewrite insert_at_spec by exact Hle.
    exists (take index (forks fm)), (drop index (forks fm)).
    split; [symmetry; apply take_drop|]. split; [reflexivity|].
    split; [|split].
    + apply Forall_lookup. intros k f Hk.
      apply lookup_take_Some in Hk as [Hk Hlt]. eauto.
    + apply Forall_lookup. intros k f Hk.
      rewrite lookup_drop in Hk. apply (Hhi (index + k)); [lia|exact Hk].
    + apply (ascending_insert FromBlockNumber (forks fm) index (mkFork name fromBlock));
        auto.
Qed.

(** What a successful [RegisterHandler] does to the capability's table. *)
Lemma RegisterHandler_table (fm : forkManager) forkName handlerName (handler : any)
    (fork : Fork) (handlers : list ForkHandler) :
  forkMap fm !! forkName = Some fork ->
  handlersMap fm !! handlerName = Some handlers ->
  ascending HFromBlockNumber handlers ->
  exists before after,
    handlers = before ++ after /\
    RegisterHandler fm forkName handlerName handler =
      (mkForkManager (forkMap fm) (forks fm)
         (<[handlerName := before ++ mkForkHandler (FromBlockNumber fork) handler :: after]>
            (handlersMap fm)), None) /\
    Forall (fun h => (HFromBlockNumber h < FromBlockNumber fork)%N) before /\
    Forall (fun h => (FromBlockNumber fork <= HFromBlockNumber h)%N) after /\
    ascending HFromBlockNumber
      (before ++ mkForkHandler (FromBlockNumber fork) handler :: after).
Proof.
  intros Hfork Htable Hasc. unfold RegisterHandler. rewrite Hfork, Htable.
  destruct (insertion_point HFromBlockNumber handlers (FromBlockNumber fork) Hasc)
    as (Hle & Hlo & Hhi).
  set (index := Search _ _) in *.
  rewrite insert_at_spec by exact Hle.
  exists (take index handlers), (drop index handlers).
  split; [symmetry; apply take_drop|]. split; [reflexivity|].
  split; [|split].
  - apply Forall_lookup. intros k f Hk.
    apply lookup_take_Some in Hk as [Hk Hlt]. eauto.
  - apply Forall_lookup. intros k f Hk.
    rewrite lookup_drop in Hk. apply (Hhi (index + k)); [lia|exact Hk].
  - apply (ascending_insert HFromBlockNumber handlers index
             (mkForkHandler (FromBlockNumber fork) handler)); auto.
Qed.

Lemma newInstance_ascending : tables_ascending (@newInstance any).
Proof.
  split; cbn.
  - apply ascending_singleton.
  - intros name handlers H. rewrite lookup_empty in H. discriminate.
Qed.

Lemma RegisterFork_ascending (fm : forkManager) name fromBlock :
  tables_ascending fm -> tables_ascending (RegisterFork fm name fromBlock).
Proof.
  intros [Hf Hh]. split.
  - destruct (RegisterFork_forks fm name fromBlock Hf) as (? & ? & _ & _ & _ & _ & H). exact H.
  - unfold RegisterFork. destruct (length (forks fm) =? 0); cbn [handlersMap]; exact Hh.
Qed.

Lemma RegisterHandler_ascending (fm : forkManager) forkName handlerName (handler : any) :
  tables_ascending fm ->
  tables_ascending (fst (RegisterHandler fm forkName handlerName handler)).
Proof.
  intros [Hf Hh].
  destruct (forkMap fm !! forkName) as [fork|] eqn:Hfork.
  2:{ unfold RegisterHandler. rewrite Hfork. cbn. split; assumption. }
  destruct (handlersMap fm !! handlerName) as [handlers|] eqn:Htable.
  - destruct (RegisterHandler_table fm forkName handlerName handler fork handlers
                Hfork Htable (Hh _ _ Htable)) as (b & a & _ & -> & _ & _ & Hasc).
    cbn [fst]. split; cbn [forks handlersMap]; [exact Hf|].
    intros name hs. rewrite lookup_insert. case_decide.
    + intros [= <-]. exact Hasc.
    + apply Hh.
  - unfold RegisterHandler. rewrite Hfork, Htable. cbn [fst].
    split; cbn [forks handlersMap]; [exact Hf|].
    intros name hs. rewrite lookup_insert. case_decide.
    + intros [= <-]. apply ascending_singleton.
    + apply Hh.
Qed.

Lemma exec_ascending (fm : forkManager) (c : call) :
  tables_ascending fm -> tables_ascending (exec fm c).
Proof.
  destruct c; cbn [forkmanager.exec].
  - apply RegisterFork_ascending.
  - apply RegisterHandler_ascending.
Qed.

Lemma fold_exec_ascending (calls : list call) (fm : forkManager) :
  tables_ascending fm -> tables_ascending (fold_left exec calls fm).
Proof.
  revert fm. induction calls as [|c calls IH]; intros fm H; cbn [fold_left]; auto.
  apply IH, exec_ascending, H.
Qed.

Lemma run_ascending (calls : list call) : tables_ascending (run calls).
Proof. apply fold_exec_ascending, newInstance_ascending. Qed.


(** [GetHandler] on an ascending table: the entry returned is the last one
    whose block number does not exceed the query. *)
Lemma GetHandler_ascending (fm : forkManager) (name : ForkHandlerName)
    (blockNumber : uint64) (handlers : list ForkHandler) :
  handlersMap fm !! name = Some handlers ->
  ascending HFromBlockNumber handlers ->
  (exists e, e ∈ handlers /\ (HFromBlockNumber e <= blockNumber)%N) ->
  exists pos e,
    handlers !! pos = Some e /\
    GetHandler fm name blockNumber = Returns (Handler e) /\
    (HFromBlockNumber e <= blockNumber)%N /\
    (forall k e', pos < k -> handlers !! k = Some e' ->
                  (blockNumber < HFromBlockNumber e')%N) /\
    (forall e', e' ∈ handlers -> (HFromBlockNumber e' <= blockNumber)%N ->
                (HFromBlockNumber e' <= HFromBlockNumber e)%N).
Proof.
  intros Htable Hasc (e0 & Hin & He0).
  apply list_elem_of_lookup in Hin as [k0 Hk0].
  unfold GetHandler. rewrite Htable.
  destruct (Search_spec (length handlers) (fun i =>
    match handlers !! i with
    | Some h => (blockNumber <? HFromBlockNumber h)%N
    | None => false
    end)) as (Hle & Hlo & Hhi).
  { intros a b Hab Hb.
    destruct (lookup_lt_is_Some_2 handlers a) as [xa Hxa]; [lia|].
    destruct (lookup_lt_is_Some_2 handlers b) as [xb Hxb]; [lia|].
    rewrite Hxa, Hxb. intros Hv.
    apply N.ltb_lt in Hv. apply N.ltb_lt.
    specialize (Hasc a b xa xb Hab Hxa Hxb). lia. }
  set (r := Search _ _) in *.
  assert (Hk0r : k0 < r).
  { destruct (Nat.lt_ge_cases k0 r) as [H|H]; [exact H|exfalso].
    specialize (Hhi k0 H (lookup_lt_Some _ _ _ Hk0)). cbv beta in Hhi.
    rewrite Hk0 in Hhi. apply N.ltb_lt in Hhi. lia. }
  destruct (lookup_lt_is_Some_2 handlers (r - 1)) as [e He]; [lia|].
  exists (r - 1), e.
  assert (Hekey : (HFromBlockNumber e <= blockNumber)%N).
  { specialize (Hlo (r - 1) ltac:(lia)). cbv beta in Hlo. rewrite He in Hlo.
    apply N.ltb_ge in Hlo. exact Hlo. }
  split; [exact He|]. split; [|split; [exact Hekey|split]].
  - unfold index_Z.
    destruct (Z.ltb_spec (Z.of_nat r - 1) 0) as [Hneg|_]; [lia|].
    replace (Z.to_nat (Z.of_nat r - 1)) with (r - 1) by lia.
    rewrite He. reflexivity.
  - intros k e' Hk He'.
    specialize (Hhi k ltac:(lia) (lookup_lt_Some _ _ _ He')). cbv beta in Hhi.
    rewrite He' in Hhi. apply N.ltb_lt in Hhi. exact Hhi.
  - intros e' Hin' He'.
    apply list_elem_of_lookup in Hin' as [k Hk].
    destruct (Nat.le_gt_cases k (r - 1)) as [H|H].
    + exact (Hasc k (r - 1) e' e H Hk He).
    + specialize (Hhi k ltac:(lia) (lookup_lt_Some _ _ _ Hk)). cbv beta in Hhi.
      rewrite Hk in Hhi. apply N.ltb_lt in Hhi. lia.
Qed.

(** With every entry of the table above the query, the index computed is
    [-1] and the slice access panics. *)
Lemma GetHandler_below_first (fm : forkManager) (name : ForkHandlerName)
    (blockNumber : uint64) (handlers : list ForkHandler) :
  handlersMap fm !! name = Some handlers ->
  Forall (fun e => (blockNumber < HFromBlockNumber e)%N) handlers ->
  GetHandler fm name blockNumber = Panics (IndexOutOfRange (-1) (length handlers)).
Proof.
  intros Htable Hall. unfold GetHandler. rewrite Htable.
  destruct (Search_spec (length handlers) (fun i =>
    match handlers !! i with
    | Some h => (blockNumber <? HFromBlockNumber h)%N
    | None => false
    end)) as (Hle & Hlo & Hhi).
  { intros a b Hab Hb _.
    destruct (lookup_lt_is_Some_2 handlers b) as [xb Hxb]; [lia|].
    rewrite Hxb. apply N.ltb_lt.
    exact (proj1 (Forall_lookup _ _) Hall b xb Hxb). }
  set (r := Search _ _) in *.
  assert (r = 0).
  { destruct r as [|r']; [reflexivity|exfalso].
    specialize (Hlo 0 ltac:(lia)). cbv beta in Hlo.
    destruct (lookup_lt_is_Some_2 handlers 0) as [x0 Hx0]; [lia|].
    rewrite Hx0 in Hlo. apply N.ltb_ge in Hlo.
    pose proof (proj1 (Forall_lookup _ _) Hall 0 x0 Hx0) as H0. cbv beta in H0. lia. }
  rewrite H. reflexivity.
Qed.

(** A registration that fails or names another capability leaves the
    capability's table as it was. *)
Lemma exec_other_capability (fm : forkManager) (c : call) (name : ForkHandlerName) :
  registers name c = false ->
  handlersMap (exec fm c) !! name = handlersMap fm !! name.
Proof.
  destruct c as [n b|forkName handlerName handler]; cbn [registers forkmanager.exec].
  - intros _. unfold RegisterFork. destruct (length (forks fm) =? 0); reflexivity.
  - intros Hne. apply String.eqb_neq in Hne.
    unfold forkmanager.RegisterHandler.
    destruct (forkMap fm !! forkName); [|reflexivity].
    destruct (handlersMap fm !! handlerName); cbn [fst handlersMap];
      rewrite lookup_insert_ne by exact Hne; reflexivity.
Qed.

Lemma fold_exec_never_registered (calls : list call) (fm : forkManager)
    (name : ForkHandlerName) :
  forallb (fun c => negb (registers name c)) calls = true ->
  handlersMap (fold_left exec calls fm) !! name = handlersMap fm !! name.
Proof.
  revert fm. induction calls as [|c calls IH]; intros fm H; cbn [fold_left]; [reflexivity|].
  cbn [forallb] in H. apply andb_true_iff in H as [Hc Hrest].
  rewrite IH by exact Hrest.
  apply exec_other_capability. apply negb_true_iff in Hc. exact Hc.
Qed.

Lemma scenario_table (name : ForkHandlerName) (hBase h100 h50 h200 : any) :
  handlersMap (run (scenario name hBase h100 h50 h200)) !! name =
  Some [ mkForkHandler 0%N hBase; mkForkHandler 50%N h50;
         mkForkHandler 100%N h100; mkForkHandler 200%N h200 ].
Proof.
  unfold forkmanager.run, forkmanager.scenario. cbn [fold_left forkmanager.exec].
  remember (RegisterFork (RegisterFork (RegisterFork newInstance "fork100" 100%N)
                                       "fork50" 50%N) "fork200" 200%N) as fm3 eqn:Hfm3.
  assert (Hmap : forkMap fm3 !! BaseFork = Some (mkFork BaseFork 0%N) /\
                 forkMap fm3 !! "fork100" = Some (mkFork "fork100" 100%N) /\
                 forkMap fm3 !! "fork50" = Some (mkFork "fork50" 50%N) /\
                 forkMap fm3 !! "fork200" = Some (mkFork "fork200" 200%N) /\
                 handlersMap fm3 = ∅).
  { subst fm3. repeat split; vm_compute; reflexivity. }
  clear Hfm3.
  destruct Hmap as (Hb & H100 & H50 & H200 & Hempty).
  unfold forkmanager.RegisterHandler at 4.
  rewrite Hb, Hempty, lookup_empty. cbn [fst].
  unfold forkmanager.RegisterHandler at 3. cbn [forkMap handlersMap forks].
  rewrite H100, lookup_insert_eq. cbn [fst].
  unfold forkmanager.RegisterHandler at 2. cbn [forkMap handlersMap forks].
  rewrite H50, lookup_insert_eq. cbn [fst].
  unfold forkmanager.RegisterHandler at 1. cbn [forkMap handlersMap forks].
  rewrite H200, lookup_insert_eq. cbn [fst handlersMap].
  rewrite lookup_insert_eq. vm_compute. reflexivity.
Qed.


(** C2.  In every registry state reached by a start-up sequence, [GetHandler]
    returns the handler of the table entry with the greatest activation
    height that is less than or equal to the query height (no later entry
    of the table is active yet, and no active entry has a greater height).
    In the fork-ordering scenario (forks registered at 100, 50 and 200 and
    one handler per fork, base fork included) the query at height 75
    returns the handler tied to height 50, the query at 0 the base handler
    and the query at 250 the handler tied to height 200. *)
Theorem GetHandler_latest_active_fork
    (calls : list call) (name : ForkHandlerName) (blockNumber : uint64)
    (handlers : list ForkHandler) (hBase h100 h50 h200 : any) :
  handlersMap (run calls) !! name = Some handlers ->
  (exists e, e ∈ handlers /\ (HFromBlockNumber e <= blockNumber)%N) ->
  (exists pos e,
      handlers !! pos = Some e /\
      GetHandler (run calls) name blockNumber = Returns (Handler e) /\
      (HFromBlockNumber e <= blockNumber)%N /\
      (forall k e', pos < k -> handlers !! k = Some e' ->
                    (blockNumber < HFromBlockNumber e')%N) /\
      (forall e', e' ∈ handlers -> (HFromBlockNumber e' <= blockNumber)%N ->
                  (HFromBlockNumber e' <= HFromBlockNumber e)%N)) /\
  (let fm := run (scenario name hBase h100 h50 h200) in
   GetHandler fm name 75%N = Returns h50 /\
   GetHandler fm name 0%N = Returns hBase /\
   GetHandler fm name 250%N = Returns h200).
Proof.
  intros Htable Hactive. split.
  - apply GetHandler_ascending; auto.
    exact (proj2 (run_ascending calls) name handlers Htable).
  - cbv zeta. unfold GetHandler. rewrite scenario_table.
    repeat split; vm_compute; reflexivity.
Qed.

(** An entry of the height of the new one stands after it. *)
Lemma tie_after_new_entry {A} (key : A -> uint64) (before after : list A)
    (x old : A) (height : uint64) :
  Forall (fun a => (key a < height)%N) before ->
  old ∈ before ++ after -> key old = height ->
  placed_after (before ++ x :: after) x old.
Proof.
  intros Hbefore Hin Hkey.
  apply elem_of_app in Hin as [Hin|Hin].
  - pose proof (proj1 (Forall_forall _ _) Hbefore old Hin) as Hlt.
    cbv beta in Hlt. lia.
  - apply list_elem_of_lookup in Hin as [k Hk].
    exists (length before), (length before + S k).
    split; [rewrite lookup_app_r, Nat.sub_diag by lia; reflexivity|].
    split; [|lia].
    rewrite lookup_app_r by lia.
    replace (length before + S k - length before) with (S k) by lia.
    exact Hk.
Qed.

(** C3 (amended).  Every registry state reached by a start-up sequence has
    its fork list and its handler tables ascending by activation height,
    and [RegisterFork] and [RegisterHandler] keep them so, whatever is
    registered.  [RegisterFork] inserts the new entry after the entries of
    strictly smaller height and before every entry of the same or a
    greater height, so that an entry of the same height registered earlier
    stands after the new one.  [RegisterHandler] for a known fork does the
    same in the table of the capability, at the height of the fork, and
    makes a table of one entry when the capability has none. *)
Theorem registration_keeps_tables_ascending
    (calls : list call) (name : ForkName) (fromBlock : uint64)
    (forkName : ForkName) (handlerName : ForkHandlerName) (handler : any) :
  tables_ascending (run calls) /\
  tables_ascending (RegisterFork (run calls) name fromBlock) /\
  tables_ascending (fst (RegisterHandler (run calls) forkName handlerName handler)) /\
  (exists before after,
      forks (run calls) = before ++ after /\
      forks (RegisterFork (run calls) name fromBlock) =
        before ++ mkFork name fromBlock :: after /\
      Forall (fun f => (FromBlockNumber f < fromBlock)%N) before /\
      Forall (fun f => (fromBlock <= FromBlockNumber f)%N) after) /\
  (forall earlier,
      earlier ∈ forks (run calls) -> FromBlockNumber earlier = fromBlock ->
      placed_after (forks (RegisterFork (run calls) name fromBlock))
                   (mkFork name fromBlock) earlier) /\
  (forall fork handlers,
      forkMap (run calls) !! forkName = Some fork ->
      handlersMap (run calls) !! handlerName = Some handlers ->
      (exists before after,
          handlers = before ++ after /\
          RegisterHandler (run calls) forkName handlerName handler =
            (mkForkManager (forkMap (run calls)) (forks (run calls))
               (<[handlerName :=
                    before ++ mkForkHandler (FromBlockNumber fork) handler :: after]>
                  (handlersMap (run calls))), None) /\
          Forall (fun h => (HFromBlockNumber h < FromBlockNumber fork)%N) before /\
          Forall (fun h => (FromBlockNumber fork <= HFromBlockNumber h)%N) after) /\
      (forall earlier handlers',
          earlier ∈ handlers -> HFromBlockNumber earlier = FromBlockNumber fork ->
          handlersMap (fst (RegisterHandler (run calls) forkName handlerName handler))
            !! handlerName = Some handlers' ->
          placed_after handlers'
                       (mkForkHandler (FromBlockNumber fork) handler) earlier)) /\
  (forall fork,
      forkMap (run calls) !! forkName = Some fork ->
      handlersMap (run calls) !! handlerName = None ->
      RegisterHandler (run calls) forkName handlerName handler =
        (mkForkManager (forkMap (run calls)) (forks (run calls))
           (<[handlerName := [mkForkHandler (FromBlockNumber fork) handler]]>
              (handlersMap (run calls))), None)).
Proof.
  pose proof (run_ascending calls) as Hinv.
  split; [exact Hinv|].
  split; [apply RegisterFork_ascending, Hinv|].
  split; [apply RegisterHandler_ascending, Hinv|].
  destruct (RegisterFork_forks (run calls) name fromBlock (proj1 Hinv))
    as (b & a & H1 & H2 & H3 & H4 & _).
  split; [exists b, a; auto|].
  split.
  { intros earlier Hin Hkey. rewrite H2.
    apply (tie_after_new_entry FromBlockNumber b a _ earlier fromBlock H3);
      [rewrite <- H1; exact Hin|exact Hkey]. }
  split.
  - intros fork handlers Hfork Htable.
    destruct (RegisterHandler_table (run calls) forkName handlerName handler fork handlers
                Hfork Htable (proj2 Hinv _ _ Htable))
      as (hb & ha & G1 & G2 & G3 & G4 & _).
    split; [exists hb, ha; auto|].
    intros earlier handlers' Hin Hkey. rewrite G2. cbn [fst handlersMap].
    rewrite lookup_insert_eq. intros [= <-].
    apply (tie_after_new_entry HFromBlockNumber hb ha _ earlier (FromBlockNumber fork) G3);
      [rewrite <- G1; exact Hin|exact Hkey].
  - intros fork Hfork Hnone.
    unfold forkmanager.RegisterHandler. rewrite Hfork, Hnone. reflexivity.
Qed.

(** C4.  After a start-up sequence that registers no handler for the
    capability [name], and in any registry that holds no table for [name],
    [GetHandler] for [name] does not return: it panics with the error
    "handlers not registered for <name>".  [RegisterHandler] with a fork name
    that is not in the registry returns the error "fork does not exist:
    <name>" and leaves the registry unchanged, and [GetForkBlock] returns
    its error likewise. *)
Theorem GetHandler_unregistered_panics
    (calls : list call) (name : ForkHandlerName) (blockNumber : uint64)
    (fm : forkManager) (forkName : ForkName) (handlerName : ForkHandlerName)
    (handler : any) :
  forallb (fun c => negb (registers name c)) calls = true ->
  forkMap fm !! forkName = None ->
  GetHandler (run calls) name blockNumber =
    Panics (PanicError (Errorf ("handlers not registered for " +:+ name))) /\
  (handlersMap fm !! name = None ->
   GetHandler fm name blockNumber =
     Panics (PanicError (Errorf ("handlers not registered for " +:+ name)))) /\
  RegisterHandler fm forkName handlerName handler =
    (fm, Some (Errorf ("fork does not exist: " +:+ forkName))) /\
  GetForkBlock fm forkName =
    (0%N, Some (Errorf ("fork does not exists: " +:+ forkName))).
Proof.
  intros Hnever Hunknown. split; [|split; [|split]].
  - unfold GetHandler, forkmanager.run.
    rewrite (fold_exec_never_registered calls newInstance name Hnever).
    cbn [newInstance handlersMap]. rewrite lookup_empty. reflexivity.
  - intros Hnone. unfold GetHandler. rewrite Hnone. reflexivity.
  - unfold forkmanager.RegisterHandler. rewrite Hunknown. reflexivity.
  - unfold GetForkBlock. rewrite Hunknown. reflexivity.
Qed.

End ForkManagerTheorems.

(** The fork-ordering scenario with the capability "extra" and the handlers
    named after their forks, queried at height 75. *)
Lemma GetHandler_latest_active_fork_witness :
  let calls := forkmanager.scenario "extra" "base" "h100" "h50" "h200" in
  let fm := forkmanager.run "nil" calls in
  (exists pos e,
      [ forkmanager.mkForkHandler 0%N "base"; forkmanager.mkForkHandler 50%N "h50";
        forkmanager.mkForkHandler 100%N "h100"; forkmanager.mkForkHandler 200%N "h200" ]
        !! pos = Some e /\
      forkmanager.GetHandler fm "extra" 75%N = Go.Returns (forkmanager.Handler e)) /\
  forkmanager.GetHandler fm "extra" 75%N = Go.Returns "h50".
Proof.
  cbv zeta.
  destruct (GetHandler_latest_active_fork "nil"
              (forkmanager.scenario "extra" "base" "h100" "h50" "h200") "extra" 75%N
              [ forkmanager.mkForkHandler 0%N "base"; forkmanager.mkForkHandler 50%N "h50";
                forkmanager.mkForkHandler 100%N "h100"; forkmanager.mkForkHandler 200%N "h200" ]
              "base" "h100" "h50" "h200")
    as [(pos & e & H1 & H2 & _) (H75 & _)].
  - vm_compute. reflexivity.
  - exists (forkmanager.mkForkHandler 50%N "h50"). split.
    + apply list_elem_of_lookup. exists 1. reflexivity.
    + vm_compute. discriminate.
  - split; [exists pos, e; split; assumption | exact H75].
Defined.

(** A third fork "berlin" at height 50, registered after the scenario, and a
    second handler for height 50: both are placed before the entries of
    height 50 that were there. *)
Lemma registration_keeps_tables_ascending_witness :
  let fm := forkmanager.run "nil" (forkmanager.scenario "extra" "base" "h100" "h50" "h200") in
  forkmanager.tables_ascending (forkmanager.RegisterFork fm "berlin" 50%N) /\
  forkmanager.tables_ascending
    (fst (forkmanager.RegisterHandler "nil" fm "fork50" "extra" "h50bis")) /\
  forkmanager.placed_after (forkmanager.forks (forkmanager.RegisterFork fm "berlin" 50%N))
    (forkmanager.mkFork "berlin" 50%N) (forkmanager.mkFork "fork50" 50%N) /\
  (exists before after,
      [ forkmanager.mkForkHandler 0%N "base"; forkmanager.mkForkHandler 50%N "h50";
        forkmanager.mkForkHandler 100%N "h100"; forkmanager.mkForkHandler 200%N "h200" ]
        = before ++ after /\
      Forall (fun h => (forkmanager.HFromBlockNumber h < 50)%N) before /\
      Forall (fun h => (50 <= forkmanager.HFromBlockNumber h)%N) after).
Proof.
  cbv zeta.
  destruct (registration_keeps_tables_ascending "nil"
              (forkmanager.scenario "extra" "base" "h100" "h50" "h200")
              "berlin" 50%N "fork50" "extra" "h50bis")
    as (_ & H1 & H2 & _ & Htie & Hhandler & _).
  split; [exact H1|]. split; [exact H2|]. split.
  - apply Htie; [|reflexivity].
    apply list_elem_of_lookup. exists 1. vm_compute. reflexivity.
  - destruct (Hhandler (forkmanager.mkFork "fork50" 50%N)
                [ forkmanager.mkForkHandler 0%N "base"; forkmanager.mkForkHandler 50%N "h50";
                  forkmanager.mkForkHandler 100%N "h100";
                  forkmanager.mkForkHandler 200%N "h200" ])
      as [(before & after & G1 & _ & G3 & G4) _].
    + vm_compute. reflexivity.
    + vm_compute. reflexivity.
    + exists before, after. split; [exact G1|]. split; [exact G3|exact G4].
Defined.

(** C3 as stated fails: two forks registered at the same height 5, first
    "a" and then "b"; the later one, "b", is placed before "a". *)
Lemma same_height_later_fork_first :
  let fm := forkmanager.RegisterFork
              (forkmanager.RegisterFork (@forkmanager.newInstance unit) "a" 5%N) "b" 5%N in
  forkmanager.forks fm =
    [ forkmanager.mkFork "basev1" 0%N; forkmanager.mkFork "b" 5%N; forkmanager.mkFork "a" 5%N ] /\
  ~ forkmanager.placed_after (forkmanager.forks fm)
      (forkmanager.mkFork "a" 5%N) (forkmanager.mkFork "b" 5%N).
Proof.
  cbv zeta.
  assert (H : forkmanager.forks
                (forkmanager.RegisterFork
                   (forkmanager.RegisterFork (@forkmanager.newInstance unit) "a" 5%N) "b" 5%N) =
              [ forkmanager.mkFork "basev1" 0%N; forkmanager.mkFork "b" 5%N;
                forkmanager.mkFork "a" 5%N ]) by (vm_compute; reflexivity).
  split; [exact H|].
  rewrite H. intros (i & j & Hi & Hj & Hlt).
  destruct i as [|[|[|i]]]; cbn in Hi; try discriminate.
  destruct j as [|[|[|j]]]; cbn in Hj; try discriminate; lia.
Qed.

(** An empty start-up sequence, the capability "extra" and the unknown fork
    "berlin". *)
Lemma GetHandler_unregistered_panics_witness :
  forkmanager.GetHandler (forkmanager.run tt []) "extra" 7%N =
    Go.Panics (Go.PanicError (Go.Errorf "handlers not registered for extra")) /\
  forkmanager.RegisterHandler tt forkmanager.newInstance "berlin" "extra" tt =
    (forkmanager.newInstance, Some (Go.Errorf "fork does not exist: berlin")).
Proof.
  destruct (GetHandler_unregistered_panics tt [] "extra" 7%N
              forkmanager.newInstance "berlin" "extra" tt) as (H1 & _ & H2 & _).
  - reflexivity.
  - vm_compute. reflexivity.
  - split; assumption.
Defined.

(* ===================================================================== *)
(** ** Properties of the header-extra handlers *)
(* ===================================================================== *)

Section ExtraHandlerTheorems.
Import Go polybft.
Context {Signature ValidatorSetDelta CheckpointData Logger : Type}
        (emptySignature : Signature).

Local Abbreviation Extra := (@Extra Signature ValidatorSetDelta CheckpointData Logger).

(** C8.  With a logger at hand, [ValidateAdditional] of the london handler
    returns an error exactly when [Dummy1] is the empty string, and
    [ValidateAdditional] of the nikaragva handler returns an error exactly
    when [Dummy1] or [Dummy2] is the empty string. *)
Theorem ValidateAdditional_error_iff_empty
    (extra : Extra) (header : types.Header.t) (logger : Logger) :
  (is_Some (returned_error
              (ExtraHandlerLondon_ValidateAdditional extra header (Some logger)))
     <-> Dummy1 extra = EmptyString) /\
  (is_Some (returned_error
              (ExtraHandlerNikaragva_ValidateAdditional extra header (Some logger)))
     <-> (Dummy1 extra = EmptyString \/ Dummy2 extra = EmptyString)) /\
  (exists lines err,
      ExtraHandlerLondon_ValidateAdditional extra header (Some logger)
        = Returns (lines, err)) /\
  (exists lines err,
      ExtraHandlerNikaragva_ValidateAdditional extra header (Some logger)
        = Returns (lines, err)).
Proof.
  unfold ExtraHandlerLondon_ValidateAdditional, ExtraHandlerNikaragva_ValidateAdditional.
  destruct (String.eqb_spec (Dummy1 extra) EmptyString) as [H1|H1];
    destruct (String.eqb_spec (Dummy2 extra) EmptyString) as [H2|H2];
    cbn [returned_error]; (split; [|split; [|split]]);
    try (eexists; eexists; reflexivity);
    (split; intros H;
     [ first [ assumption | left; assumption | right; assumption
             | destruct H as [x Hx]; discriminate ]
     | first [ eexists; reflexivity | contradiction
             | destruct H as [H|H]; contradiction ] ]).
Qed.

(** C9 (amended).  [GetIbftExtraClean] builds a new value and reads its
    argument only.  For both handlers the result has the block number, the
    parent signature, the validator set delta, the checkpoint and [Dummy1]
    of the argument, the committed signature reset to the empty
    [Signature] and no logger.  The nikaragva handler copies [Dummy2]; the
    london handler leaves [Dummy2] empty. *)
Theorem GetIbftExtraClean_frame (extra : Extra) :
  let london := ExtraHandlerAdditionalLondon_GetIbftExtraClean emptySignature extra in
  let nikaragva := ExtraHandlerAdditionalNikaragva_GetIbftExtraClean emptySignature extra in
  (BlockNumber london = BlockNumber extra /\ Parent london = Parent extra /\
   Validators london = Validators extra /\ Checkpoint london = Checkpoint extra /\
   Committed london = Some emptySignature /\ Dummy1 london = Dummy1 extra /\
   Dummy2 london = EmptyString /\ ExtraLogger london = None) /\
  (BlockNumber nikaragva = BlockNumber extra /\ Parent nikaragva = Parent extra /\
   Validators nikaragva = Validators extra /\ Checkpoint nikaragva = Checkpoint extra /\
   Committed nikaragva = Some emptySignature /\ Dummy1 nikaragva = Dummy1 extra /\
   Dummy2 nikaragva = Dummy2 extra /\ ExtraLogger nikaragva = None).
Proof. cbv zeta. repeat split. Qed.

End ExtraHandlerTheorems.

(** C9 as stated fails: an extra that carries [Dummy2] loses it when cleaned
    by the london handler. *)
Lemma london_clean_drops_Dummy2 :
  let extra := @polybft.mkExtra unit unit unit unit 7%N None None None None "one" "two" None in
  polybft.Dummy2 (polybft.ExtraHandlerAdditionalLondon_GetIbftExtraClean tt extra)
    <> polybft.Dummy2 extra.
Proof. cbv zeta. cbn. discriminate. Qed.

(* ===================================================================== *)
(** ** Properties of the byte-level run-time model *)
(* ===================================================================== *)

Section BytesFacts.
Import Go.

Lemma to_N_byte_of_N (v : N) : Byte.to_N (byte_of_N v) = (v mod 256)%N.
Proof.
  unfold byte_of_N.
  destruct (Byte.of_N (v mod 256)) as [b|] eqn:Hb.
  - apply Byte.to_of_N. exact Hb.
  - apply Byte.of_N_None_iff in Hb.
    pose proof (N.mod_upper_bound v 256 ltac:(discriminate)). lia.
Qed.

Lemma byte_of_N_to_N (x : byte) (q : N) : byte_of_N (q * 256 + Byte.to_N x) = x.
Proof.
  unfold byte_of_N.
  pose proof (Byte.to_N_bounded x) as Hx.
  replace ((q * 256 + Byte.to_N x) mod 256)%N with (Byte.to_N x).
  - rewrite Byte.of_to_N. reflexivity.
  - rewrite N.add_comm, N.Div0.mod_add. symmetry. apply N.mod_small. lia.
Qed.

Lemma be_value_snoc (b : list byte) (x : byte) :
  be_value (b ++ [x]) = (be_value b * 256 + Byte.to_N x)%N.
Proof. unfold be_value. rewrite fold_left_app. reflexivity. Qed.

(** Reading back the [k] bytes written gives the number modulo [256 ^ k]. *)
Lemma be_value_be_bytes (k : nat) (v : N) :
  be_value (be_bytes k v) = (v mod 256 ^ N.of_nat k)%N.
Proof.
  revert v. induction k as [|k IH]; intros v.
  - cbn. rewrite N.mod_1_r. reflexivity.
  - cbn [be_bytes]. rewrite be_value_snoc, IH, to_N_byte_of_N.
    rewrite Nat2N.inj_succ, N.pow_succ_r'.
    rewrite N.Div0.mod_mul_r. lia.
Qed.

Lemma length_be_bytes (k : nat) (v : N) : length (be_bytes k v) = k.
Proof.
  revert v. induction k as [|k IH]; intros v; cbn [be_bytes]; [reflexivity|].
  rewrite length_app, IH. cbn. lia.
Qed.

(** Writing the number read from [k] bytes gives the bytes back. *)
Lemma be_bytes_be_value (b : list byte) : be_bytes (length b) (be_value b) = b.
Proof.
  induction b as [|x b IH] using rev_ind; [reflexivity|].
  rewrite length_app. cbn [length]. rewrite Nat.add_1_r. cbn [be_bytes].
  rewrite be_value_snoc, byte_of_N_to_N.
  pose proof (Byte.to_N_bounded x) as Hx.
  replace ((be_value b * 256 + Byte.to_N x) / 256)%N with (be_value b).
  - rewrite IH. reflexivity.
  - symmetry. rewrite N.add_comm, N.div_add by discriminate.
    rewrite N.div_small by lia. reflexivity.
Qed.

Lemma be_value_zeros (n : nat) (b : list byte) :
  be_value (replicate n x00 ++ b) = be_value b.
Proof.
  unfold be_value. rewrite fold_left_app.
  replace (fold_left _ (replicate n x00) 0%N) with 0%N; [reflexivity|].
  induction n as [|n IH]; [reflexivity|]. cbn. exact IH.
Qed.

Lemma PutUint64_Uint64 (b : list byte) : length b = 8 -> PutUint64 (Uint64 b) = b.
Proof.
  intros H. unfold PutUint64, Uint64. rewrite <- H. apply be_bytes_be_value.
Qed.

Lemma Uint64_PutUint64 (v : N) : (v < 2 ^ 64)%N -> Uint64 (PutUint64 v) = v.
Proof.
  intros H. unfold PutUint64, Uint64. rewrite be_value_be_bytes.
  apply N.mod_small. exact H.
Qed.

(** [append(dst[:0], b...)] returns a slice holding [b]. *)
Lemma contents_append_reset (dst : slice) (b : list byte) :
  contents (fst (append_reset dst b)) = b.
Proof.
  unfold append_reset, contents.
  destruct (length b <=? cap dst); cbn [fst len array].
  - rewrite take_app_length. reflexivity.
  - apply firstn_all.
Qed.

End BytesFacts.

(* ===================================================================== *)
(** ** Properties of the accessors and of the decoding steps *)
(* ===================================================================== *)

Section StepFacts.
Import Go fastrlp types.

(** Running [m] first, when it returns normally. *)
Lemma step_ok {R A B} (m : M R A) (k : A -> M R B) (r r' : R) (a : A) :
  m r = (Ok a, r') -> (m ≫= k) r = k a r'.
Proof. intros H. unfold mbind, M_bind, bind. rewrite H. reflexivity. Qed.

(** An atom of the width asked for is stored in an array of that width,
    through any window on the array. *)
Lemma GetBytes_width (b : list byte) (dst : slice) (n : nat) :
  length b = n -> cap dst = n ->
  GetBytes (VBytes b) dst (Some n) = (mkSlice b n, b, None).
Proof.
  intros Hb Hcap. unfold GetBytes. rewrite Hb, Nat.eqb_refl. cbn [negb].
  unfold append_reset. rewrite Hb, Hcap, Nat.leb_refl.
  unfold cap in Hcap. rewrite drop_ge by lia. rewrite app_nil_r.
  reflexivity.
Qed.

Lemma GetBytes_any (b : list byte) (dst : slice) :
  exists s a, GetBytes (VBytes b) dst None = (s, a, None) /\ contents s = b.
Proof.
  unfold GetBytes.
  pose proof (contents_append_reset dst b) as H.
  destruct (append_reset dst b) as [s a]. exists s, a. split; [reflexivity|exact H].
Qed.

Lemma length_trim_zeros (b : list byte) : length (trim_zeros b) <= length b.
Proof.
  induction b as [|x b IH]; [reflexivity|].
  destruct x; cbn [trim_zeros length]; lia.
Qed.

Lemma be_value_trim_zeros (b : list byte) : be_value (trim_zeros b) = be_value b.
Proof.
  induction b as [|x b IH]; [reflexivity|].
  destruct x; try reflexivity.
  cbn [trim_zeros]. rewrite IH. symmetry. apply (be_value_zeros 1 b).
Qed.

(** The atom of an unsigned 64-bit integer is read back as that integer. *)
Lemma GetUint64_NewUint (v : N) : (v < 2 ^ 64)%N -> GetUint64 (NewUint v) = (v, None).
Proof.
  intros Hv. unfold GetUint64, NewUint.
  pose proof (length_trim_zeros (PutUint64 v)) as Hlen.
  unfold PutUint64 in Hlen at 2. rewrite length_be_bytes in Hlen.
  destruct (Nat.ltb_spec 8 (length (trim_zeros (PutUint64 v)))) as [H|_]; [lia|].
  unfold Uint64 at 1. rewrite be_value_zeros, be_value_trim_zeros.
  fold (Uint64 (PutUint64 v)). rewrite Uint64_PutUint64 by exact Hv. reflexivity.
Qed.

Lemma GetUint64_8 (b : list byte) : length b = 8 -> GetUint64 (VBytes b) = (Uint64 b, None).
Proof. intros H. unfold GetUint64. rewrite H. reflexivity. Qed.

Section Steps.
Context {R : Type} (field : R -> list byte) (set : list byte -> R -> R).

Lemma read_hash_all (b : list byte) (r : R) :
  length b = 32 -> length (field r) = 32 ->
  read_hash (VBytes b) slice_all field set r = (Ok tt, set b r).
Proof.
  intros Hb Hf. unfold read_hash, GetHash.
  erewrite step_ok by reflexivity. cbv beta.
  rewrite (GetBytes_width b (slice_all (field r)) 32 Hb Hf). reflexivity.
Qed.

Lemma read_hash_to0 (b : list byte) (r : R) :
  length b = 32 -> length (field r) = 32 ->
  read_hash (VBytes b) slice_to0 field set r = (Ok tt, set b r).
Proof.
  intros Hb Hf. unfold read_hash, GetHash.
  erewrite step_ok by reflexivity. cbv beta.
  rewrite (GetBytes_width b (slice_to0 (field r)) 32 Hb Hf). reflexivity.
Qed.

Lemma read_addr_all (b : list byte) (r : R) :
  length b = 20 -> length (field r) = 20 ->
  read_addr (VBytes b) slice_all field set r = (Ok tt, set b r).
Proof.
  intros Hb Hf. unfold read_addr, GetAddr.
  erewrite step_ok by reflexivity. cbv beta.
  rewrite (GetBytes_width b (slice_all (field r)) 20 Hb Hf). reflexivity.
Qed.

Lemma read_fixed_ok (b : list byte) (n : nat) (r : R) :
  length b = n -> length (field r) = n ->
  read_fixed (VBytes b) n field set r = (Ok tt, set b r).
Proof.
  intros Hb Hf. unfold read_fixed.
  erewrite step_ok by reflexivity. cbv beta.
  rewrite (GetBytes_width b (slice_to0 (field r)) n Hb Hf). reflexivity.
Qed.

Lemma read_bytes_ok (b : list byte) (r : R) :
  read_bytes (VBytes b) field set r = (Ok tt, set b r).
Proof.
  unfold read_bytes.
  erewrite step_ok by reflexivity. cbv beta.
  destruct (GetBytes_any b (slice_to0 (field r))) as (s & a & -> & ->). reflexivity.
Qed.

End Steps.

Lemma read_uint64_NewUint {R} (set : N -> R -> R) (v : N) (r : R) :
  (v < 2 ^ 64)%N -> read_uint64 (NewUint v) set r = (Ok tt, set v r).
Proof. intros Hv. unfold read_uint64. rewrite (GetUint64_NewUint v Hv). reflexivity. Qed.

End StepFacts.

(** One statement of a method body that returns normally. *)
Tactic Notation "step" tactic3(lem) := erewrite step_ok; [ | lem ]; cbv beta.

Section HeaderRoundTrip.
Import Go fastrlp types.
Context (WriteRlp : Value -> list byte).

Lemma Header_decode_encode (h h0 : Header.t) :
  wf_Header h -> uint64_Header h -> wf_Header h0 ->
  Header_UnmarshalRLPFrom WriteRlp (Header_MarshalRLPWith h) h0 =
    (Ok tt, Header_ComputeHash WriteRlp h).
Proof.
  intros (P1 & P2 & P3 & P4 & P5 & P6 & P7 & P8 & P9 & P10)
         (U1 & U2 & U3 & U4 & U5)
         (Q1 & Q2 & Q3 & Q4 & Q5 & Q6 & Q7 & Q8 & Q9 & Q10).
  unfold Header_UnmarshalRLPFrom, Header_MarshalRLPWith.
  cbn [GetElems length Nat.eqb negb check].
  step reflexivity.
  step reflexivity. step (apply read_hash_all; assumption).
  step reflexivity. step (apply read_hash_all; assumption).
  step reflexivity. step (apply read_addr_all; assumption).
  step reflexivity. step (apply read_hash_all; assumption).
  step reflexivity. step (apply read_hash_all; assumption).
  step reflexivity. step (apply read_hash_all; assumption).
  step reflexivity. step (apply read_fixed_ok; assumption).
  step reflexivity. step (apply read_uint64_NewUint; assumption).
  step reflexivity. step (apply read_uint64_NewUint; assumption).
  step reflexivity. step (apply read_uint64_NewUint; assumption).
  step reflexivity. step (apply read_uint64_NewUint; assumption).
  step reflexivity. step (apply read_uint64_NewUint; assumption).
  step reflexivity. step (apply read_bytes_ok).
  step reflexivity. step (apply read_hash_to0; assumption).
  step reflexivity.
  rewrite (GetUint64_8 _ P9).
  cbn [check]. step reflexivity. step reflexivity. step reflexivity.
  unfold mret, M_ret, ret. f_equal.
  unfold Header_ComputeHash, SetNonce, Header_MarshalRLPWith.
  rewrite (PutUint64_Uint64 _ P9).
  destruct h. reflexivity.
Qed.

(** C1.  Decoding the encoding of a header [h] into any header value
    succeeds; the header decoded has the fifteen fields of [h], the mix
    hash included, and its cached hash, computed as the last step of the
    decoding, is the hash of the encoding of [h]. *)
Theorem Header_round_trip (h h0 : Header.t) :
  wf_Header h -> uint64_Header h -> wf_Header h0 ->
  exists h',
    Header_UnmarshalRLPFrom WriteRlp (Header_MarshalRLPWith h) h0 = (Ok tt, h') /\
    Header.ParentHash h' = Header.ParentHash h /\
    Header.Sha3Uncles h' = Header.Sha3Uncles h /\
    Header.Miner h' = Header.Miner h /\
    Header.StateRoot h' = Header.StateRoot h /\
    Header.TxRoot h' = Header.TxRoot h /\
    Header.ReceiptsRoot h' = Header.ReceiptsRoot h /\
    Header.LogsBloom h' = Header.LogsBloom h /\
    Header.Difficulty h' = Header.Difficulty h /\
    Header.Number h' = Header.Number h /\
    Header.GasLimit h' = Header.GasLimit h /\
    Header.GasUsed h' = Header.GasUsed h /\
    Header.Timestamp h' = Header.Timestamp h /\
    Header.ExtraData h' = Header.ExtraData h /\
    Header.MixHash h' = Header.MixHash h /\
    Header.Nonce h' = Header.Nonce h /\
    Header.Hash h' = WriteRlp (Header_MarshalRLPWith h).
Proof.
  intros Hwf Hu Hwf0. exists (Header_ComputeHash WriteRlp h).
  split; [apply Header_decode_encode; assumption|].
  repeat split.
Qed.

End HeaderRoundTrip.

(** A header with a non-zero mix hash, a nonce with leading zero bytes and a
    zero difficulty, decoded into the zero header. *)
Lemma Header_round_trip_witness :
  let h := types.Header.mk
             (replicate 32 x01) (replicate 32 x02) (replicate 20 x03) (replicate 32 x04)
             (replicate 32 x05) (replicate 32 x06) (replicate 256 x07)
             0%N 1000%N 8000000%N 21000%N 1700000000%N
             [x0a; x0b] (replicate 32 xaa) [x00; x00; x00; x00; x00; x00; x01; x02]
             (replicate 32 x00) in
  exists h',
    types.Header_UnmarshalRLPFrom (fun _ => replicate 32 xff)
      (types.Header_MarshalRLPWith h) types.Header.zero = (Go.Ok tt, h') /\
    types.Header.MixHash h' = replicate 32 xaa /\
    types.Header.Nonce h' = [x00; x00; x00; x00; x00; x00; x01; x02] /\
    types.Header.Hash h' = replicate 32 xff.
Proof.
  cbv zeta.
  destruct (Header_round_trip (fun _ => replicate 32 xff)
              (types.Header.mk
                 (replicate 32 x01) (replicate 32 x02) (replicate 20 x03) (replicate 32 x04)
                 (replicate 32 x05) (replicate 32 x06) (replicate 256 x07)
                 0%N 1000%N 8000000%N 21000%N 1700000000%N
                 [x0a; x0b] (replicate 32 xaa) [x00; x00; x00; x00; x00; x00; x01; x02]
                 (replicate 32 x00))
              types.Header.zero)
    as (h' & Hdec & _ & _ & _ & _ & _ & _ & _ & _ & _ & _ & _ & _ & _ & Hmix & Hnonce & Hhash).
  - vm_compute. repeat split.
  - vm_compute. repeat split.
  - vm_compute. repeat split.
  - exists h'. repeat split; assumption.
Defined.

(* ===================================================================== *)
(** ** Arity checks *)
(* ===================================================================== *)

Section ArityFacts.
Import Go fastrlp types.

Lemma prefix_of_app (sub s t : string) :
  prefix_of sub s = true -> prefix_of sub (s +:+ t) = true.
Proof.
  revert s. induction sub as [|a sub IH]; intros s H; [reflexivity|].
  destruct s as [|b s]; [discriminate|].
  change (String b s +:+ t) with (String b (s +:+ t)).
  cbn [prefix_of] in *.
  destruct (Ascii.eqb a b); [apply IH, H|discriminate].
Qed.

Lemma Contains_app (s t sub : string) :
  Contains s sub = true -> Contains (s +:+ t) sub = true.
Proof.
  induction s as [|a s IH]; intros H.
  - cbn [Contains] in H. rewrite orb_false_r in H.
    destruct sub; [|discriminate]. destruct t; reflexivity.
  - cbn [Contains] in H. apply orb_true_iff in H as [H|H].
    + change (Contains (String a s +:+ t) sub)
        with (prefix_of sub (String a s +:+ t) || Contains (s +:+ t) sub).
      rewrite (prefix_of_app _ _ t H). reflexivity.
    + change (Contains (String a s +:+ t) sub)
        with (prefix_of sub (String a s +:+ t) || Contains (s +:+ t) sub).
      rewrite (IH H). apply orb_true_r.
Qed.

(** An error text that starts with words naming the count names it,
    whatever the count found that follows. *)
Lemma names_count_prefix (text : string) (n found : nat) :
  Contains text (fmt_d n) = true ->
  names_count (Errorf (text +:+ fmt_d found)) n = true.
Proof. intros H. unfold names_count. cbn [Error]. apply Contains_app, H. Qed.

Context (WriteRlp : Value -> list byte)
        (TxTypeLegacy : byte)
        (ToTransactionType : byte -> byte * option error)
        (newTxPayload : byte -> option TxPayload * option error)
        (BytesToAddress : list byte -> list byte)
        (txHash : TxPayload -> list byte).

Lemma Header_arity (elems : list Value) (h : Header.t) :
  length elems <> 15 ->
  Header_UnmarshalRLPFrom WriteRlp (VArray elems) h =
    (Err (Errorf ("not enough elements to decode header, expected 15 but found "
                  +:+ fmt_d (length elems))), h).
Proof.
  intros H. unfold Header_UnmarshalRLPFrom. cbn [GetElems check].
  step reflexivity. cbv zeta.
  destruct (Nat.eqb_spec (length elems) 15); [contradiction|reflexivity].
Qed.

Lemma Block_arity (elems : list Value) (b : Block.t) :
  length elems <> 3 ->
  Block_UnmarshalRLPFrom WriteRlp TxTypeLegacy ToTransactionType newTxPayload
      BytesToAddress txHash (VArray elems) b =
    (Err (Errorf ("not enough elements to decode block, expected 3 but found "
                  +:+ fmt_d (length elems))), b).
Proof.
  intros H. unfold Block_UnmarshalRLPFrom. cbn [GetElems check].
  step reflexivity. cbv zeta.
  destruct (Nat.eqb_spec (length elems) 3); [contradiction|reflexivity].
Qed.

Lemma LegacyTransaction_arity (elems : list Value) (t : LegacyTransaction.t) :
  length elems <> 9 ->
  LegacyTransaction_UnmarshalRLPFrom BytesToAddress (VArray elems) t =
    (Err (Errorf ("not enough elements to decode transaction, expected 9 but found "
                  +:+ fmt_d (length elems))), t).
Proof.
  intros H. unfold LegacyTransaction_UnmarshalRLPFrom. cbn [GetElems check].
  step reflexivity. cbv zeta.
  destruct (Nat.eqb_spec (length elems) 9); [contradiction|reflexivity].
Qed.

Lemma StateTransaction_arity (elems : list Value) (t : StateTransaction.t) :
  length elems <> 7 ->
  StateTransaction_UnmarshalRLPFrom BytesToAddress (VArray elems) t =
    (Err (Errorf ("not enough elements to decode transaction, expected 7 but found "
                  +:+ fmt_d (length elems))), t).
Proof.
  intros H. unfold StateTransaction_UnmarshalRLPFrom. cbn [GetElems check].
  step reflexivity. cbv zeta.
  destruct (Nat.eqb_spec (length elems) 7); [contradiction|reflexivity].
Qed.

Lemma Receipt_arity (elems : list Value) (r : Receipt.t) :
  length elems <> 4 ->
  Receipt_UnmarshalRLPFrom (VArray elems) r = (Err (Errorf "expected 4 elements"), r).
Proof.
  intros H. unfold Receipt_UnmarshalRLPFrom. cbn [GetElems check].
  step reflexivity.
  destruct (Nat.eqb_spec (length elems) 4); [contradiction|reflexivity].
Qed.

Lemma Log_arity (elems : list Value) (l : Log.t) :
  length elems <> 3 ->
  Log_UnmarshalRLPFrom (VArray elems) l = (Err (Errorf "bad elems"), l).
Proof.
  intros H. unfold Log_UnmarshalRLPFrom. cbn [GetElems check].
  step reflexivity.
  destruct (Nat.eqb_spec (length elems) 3); [contradiction|reflexivity].
Qed.

(** The count found, which ends the text, is named by it. *)
Lemma Contains_suffix (s sub : string) : Contains (s +:+ sub) sub = true.
Proof.
  assert (Hself : forall t : string, prefix_of t t = true).
  { induction t as [|a t IH]; [reflexivity|].
    cbn [prefix_of]. rewrite Ascii.eqb_refl. exact IH. }
  induction s as [|a s IH].
  - change (EmptyString +:+ sub) with sub.
    destruct sub as [|c sub]; [reflexivity|].
    cbn [Contains]. rewrite (Hself (String c sub)). reflexivity.
  - change (Contains (String a s +:+ sub) sub)
      with (prefix_of sub (String a s +:+ sub) || Contains (s +:+ sub) sub).
    rewrite IH. apply orb_true_r.
Qed.

Lemma names_count_found (text : string) (found : nat) :
  names_count (Errorf (text +:+ fmt_d found)) found = true.
Proof. unfold names_count. cbn [Error]. apply Contains_suffix. Qed.

(** C5 (amended).  A list whose number of elements differs from the arity
    of the object is rejected by the decoder, with the receiver untouched
    and with exactly these errors.  The error of Header, Block,
    LegacyTransaction and StateTransaction is the text "not enough
    elements to decode ..., expected N but found M" with the expected
    count N (15, 3, 9, 7) and the count M found; the error of Receipt is
    "expected 4 elements", which names the expected count only; the error
    of Log is the fixed text "bad elems", which names no count. *)
Theorem arity_mismatch_is_an_error
    (elems : list Value) (h : Header.t) (b : Block.t)
    (lt : LegacyTransaction.t) (st : StateTransaction.t)
    (r : Receipt.t) (l : Log.t) :
  let found := length elems in
  let header_error :=
    Errorf ("not enough elements to decode header, expected 15 but found "
            +:+ fmt_d found) in
  let block_error :=
    Errorf ("not enough elements to decode block, expected 3 but found "
            +:+ fmt_d found) in
  let legacy_error :=
    Errorf ("not enough elements to decode transaction, expected 9 but found "
            +:+ fmt_d found) in
  let state_error :=
    Errorf ("not enough elements to decode transaction, expected 7 but found "
            +:+ fmt_d found) in
  (found <> 15 ->
   Header_UnmarshalRLPFrom WriteRlp (VArray elems) h = (Err header_error, h) /\
   names_count header_error 15 = true /\ names_count header_error found = true) /\
  (found <> 3 ->
   Block_UnmarshalRLPFrom WriteRlp TxTypeLegacy ToTransactionType newTxPayload
     BytesToAddress txHash (VArray elems) b = (Err block_error, b) /\
   names_count block_error 3 = true /\ names_count block_error found = true) /\
  (found <> 9 ->
   LegacyTransaction_UnmarshalRLPFrom BytesToAddress (VArray elems) lt
     = (Err legacy_error, lt) /\
   names_count legacy_error 9 = true /\ names_count legacy_error found = true) /\
  (found <> 7 ->
   StateTransaction_UnmarshalRLPFrom BytesToAddress (VArray elems) st
     = (Err state_error, st) /\
   names_count state_error 7 = true /\ names_count state_error found = true) /\
  (found <> 4 ->
   Receipt_UnmarshalRLPFrom (VArray elems) r = (Err (Errorf "expected 4 elements"), r) /\
   names_count (Errorf "expected 4 elements") 4 = true) /\
  (found <> 3 ->
   Log_UnmarshalRLPFrom (VArray elems) l = (Err (Errorf "bad elems"), l)).
Proof.
  cbv zeta.
  split; [intros H|split; [intros H|split; [intros H|split; [intros H|split; intros H]]]].
  - split; [apply Header_arity, H|].
    split; [apply names_count_prefix; reflexivity|apply names_count_found].
  - split; [apply Block_arity, H|].
    split; [apply names_count_prefix; reflexivity|apply names_count_found].
  - split; [apply LegacyTransaction_arity, H|].
    split; [apply names_count_prefix; reflexivity|apply names_count_found].
  - split; [apply StateTransaction_arity, H|].
    split; [apply names_count_prefix; reflexivity|apply names_count_found].
  - split; [apply Receipt_arity, H|reflexivity].
  - apply Log_arity, H.
Qed.

End ArityFacts.

(** A header of fourteen elements and a header of sixteen; the empty list
    for the other decoders. *)
Lemma arity_mismatch_is_an_error_witness :
  types.Header_UnmarshalRLPFrom (fun _ => [])
    (fastrlp.VArray (replicate 14 (fastrlp.VBytes []))) types.Header.zero
  = (Go.Err (Go.Errorf "not enough elements to decode header, expected 15 but found 14"),
     types.Header.zero) /\
  types.Header_UnmarshalRLPFrom (fun _ => [])
    (fastrlp.VArray (replicate 16 (fastrlp.VBytes []))) types.Header.zero
  = (Go.Err (Go.Errorf "not enough elements to decode header, expected 15 but found 16"),
     types.Header.zero) /\
  types.LegacyTransaction_UnmarshalRLPFrom (fun a => a) (fastrlp.VArray [])
    types.LegacyTransaction.zero
  = (Go.Err (Go.Errorf "not enough elements to decode transaction, expected 9 but found 0"),
     types.LegacyTransaction.zero) /\
  types.Log_UnmarshalRLPFrom (fastrlp.VArray []) types.Log.zero
    = (Go.Err (Go.Errorf "bad elems"), types.Log.zero).
Proof.
  pose (params := fun elems =>
    arity_mismatch_is_an_error (fun _ => []) x00 (fun b => (b, None))
      (fun _ => (None, None)) (fun a => a) (fun _ => []) elems
      types.Header.zero types.Block.zero types.LegacyTransaction.zero
      types.StateTransaction.zero types.Receipt.zero types.Log.zero).
  split; [|split; [|split]].
  - apply (proj1 (params (replicate 14 (fastrlp.VBytes [])))). cbn. lia.
  - apply (proj1 (params (replicate 16 (fastrlp.VBytes [])))). cbn. lia.
  - apply (proj1 (proj2 (proj2 (params [])))). cbn. lia.
  - apply (proj2 (proj2 (proj2 (proj2 (proj2 (params [])))))). cbn. lia.
Defined.

(** C5 as stated fails for Log: the error returned for a list of two
    elements names no count. *)
Lemma Log_arity_error_names_no_count :
  ~ exists e s,
      types.Log_UnmarshalRLPFrom
        (fastrlp.VArray [fastrlp.VBytes []; fastrlp.VBytes []]) types.Log.zero = (Go.Err e, s) /\
      Go.names_count e 3 = true.
Proof.
  intros (e & s & H & Hname).
  vm_compute in H. injection H as <- _. vm_compute in Hname. discriminate.
Qed.

(* ===================================================================== *)
(** ** The root-or-status field of a receipt *)
(* ===================================================================== *)

Section ReceiptFacts.
Import Go fastrlp types.

Lemma with_new_ok {R T A} (init t : T) (m : M T A) (a : A) (r : R) :
  m init = (Ok a, t) -> with_new init m r = (Ok t, r).
Proof. intros H. unfold with_new. rewrite H. reflexivity. Qed.

Lemma copy_bytes_full (dst src : list byte) :
  length dst = length src -> copy_bytes dst src = src.
Proof.
  intros H. unfold copy_bytes. rewrite H, firstn_all, drop_ge by lia.
  apply app_nil_r.
Qed.

(** The loop over the logs of a receipt, when every log decodes. *)
Lemma Receipt_logs_loop (logsElems : list Value) (logs : list Log.t) (r : Receipt.t) :
  Forall2 (fun elem log => Log_UnmarshalRLPFrom elem Log.zero = (Ok tt, log))
          logsElems logs ->
  for_range logsElems (fun elem =>
    log ← with_new Log.zero (Log_UnmarshalRLPFrom elem);
    modify (fun r => Receipt.set_Logs (Receipt.Logs r ++ [log]) r)) r
  = (Ok tt, Receipt.set_Logs (Receipt.Logs r ++ logs) r).
Proof.
  intros H. revert r. induction H as [|elem log logsElems logs Hlog _ IH]; intros r.
  - cbn [for_range]. rewrite app_nil_r. destruct r. reflexivity.
  - cbn [for_range].
    change (bind ?m ?k) with (m ≫= k).
    step (erewrite step_ok; [|apply (with_new_ok _ _ _ _ _ Hlog)]; reflexivity).
    rewrite IH. destruct r. cbn. rewrite <- app_assoc. reflexivity.
Qed.

(** The statements of [Receipt.UnmarshalRLPFrom] after the root-or-status
    field, for well-formed gas, bloom and logs. *)
Local Ltac receipt_rest Hgas Hbloom Hlogs :=
  step reflexivity;
  step (unfold read_uint64; rewrite Hgas; reflexivity);
  step reflexivity;
  step (apply read_fixed_ok; [exact Hbloom|assumption]);
  cbn [Get GetElems check lookup list_lookup];
  step reflexivity;
  rewrite (Receipt_logs_loop _ _ _ Hlogs).

(** C7.  A receipt whose cumulative gas, bloom filter and logs are well
    formed decodes whatever the length of its first field.  When that
    length is neither 32 nor 1, the status is set to zero and the root is
    left as it was; a first field of 32 bytes is stored as the root, a
    first field of one byte as the status. *)
Theorem Receipt_status_fallback
    (buf : list byte) (gas : Value) (g : N) (bloom : list byte)
    (logsElems : list Value) (logs : list Log.t) (r : Receipt.t) :
  GetUint64 gas = (g, None) ->
  length bloom = 256 ->
  length (Receipt.LogsBloom r) = 256 ->
  Forall2 (fun elem log => Log_UnmarshalRLPFrom elem Log.zero = (Ok tt, log))
          logsElems logs ->
  let v := VArray [VBytes buf; gas; VBytes bloom; VArray logsElems] in
  (length buf <> 32 -> length buf <> 1 ->
   Receipt_UnmarshalRLPFrom v r =
     (Ok tt, Receipt.mk (Receipt.Root r) g bloom (Receipt.Logs r ++ logs)
               (Some 0%N) (Receipt.TransactionType r))) /\
  (length buf = 32 -> length (Receipt.Root r) = 32 ->
   Receipt_UnmarshalRLPFrom v r =
     (Ok tt, Receipt.mk buf g bloom (Receipt.Logs r ++ logs)
               (Receipt.Status r) (Receipt.TransactionType r))) /\
  (forall b, buf = [b] ->
   Receipt_UnmarshalRLPFrom v r =
     (Ok tt, Receipt.mk (Receipt.Root r) g bloom (Receipt.Logs r ++ logs)
               (Some (Byte.to_N b)) (Receipt.TransactionType r))).
Proof.
  intros Hgas Hbloom Hr Hlogs v.
  split; [|split].
  - intros H32 H1. subst v. unfold Receipt_UnmarshalRLPFrom.
    cbn [GetElems check length Nat.eqb negb].
    step reflexivity. step reflexivity. cbn [Bytes check]. step reflexivity.
    cbv zeta.
    rewrite (proj2 (Nat.eqb_neq _ _) H32), (proj2 (Nat.eqb_neq _ _) H1).
    step reflexivity.
    receipt_rest Hgas Hbloom Hlogs. destruct r. reflexivity.
  - intros H32 Hroot. subst v. unfold Receipt_UnmarshalRLPFrom.
    cbn [GetElems check length Nat.eqb negb].
    step reflexivity. step reflexivity. cbn [Bytes check]. step reflexivity.
    cbv zeta. rewrite H32. cbn [Nat.eqb].
    step reflexivity.
    receipt_rest Hgas Hbloom Hlogs.
    rewrite (copy_bytes_full (Receipt.Root r) buf) by lia.
    destruct r. reflexivity.
  - intros b ->. subst v. unfold Receipt_UnmarshalRLPFrom.
    cbn [GetElems check length Nat.eqb negb].
    step reflexivity. step reflexivity. cbn [Bytes check]. step reflexivity.
    cbv zeta. cbn [length Nat.eqb].
    step (erewrite step_ok; [|reflexivity]; reflexivity).
    receipt_rest Hgas Hbloom Hlogs. destruct r. reflexivity.
Qed.

End ReceiptFacts.

(** A receipt whose first field is three bytes long, with no logs, decoded
    into the zero receipt. *)
Lemma Receipt_status_fallback_witness :
  types.Receipt_UnmarshalRLPFrom
    (fastrlp.VArray [ fastrlp.VBytes [x01; x02; x03]; fastrlp.VBytes [x52; x08];
                      fastrlp.VBytes (replicate 256 x00); fastrlp.VArray [] ])
    types.Receipt.zero
  = (Go.Ok tt, types.Receipt.mk (replicate 32 x00) 21000%N (replicate 256 x00) []
                 (Some 0%N) x00).
Proof.
  apply (proj1 (Receipt_status_fallback [x01; x02; x03] (fastrlp.VBytes [x52; x08])
                  21000%N (replicate 256 x00) [] [] types.Receipt.zero
                  ltac:(vm_compute; reflexivity) ltac:(vm_compute; reflexivity)
                  ltac:(vm_compute; reflexivity) ltac:(constructor))).
  - vm_compute. lia.
  - vm_compute. lia.
Defined.

(* ===================================================================== *)
(** ** The scanning loops *)
(* ===================================================================== *)

(** Unfolds the sequencing of statements down to case analyses on the
    results of the calls made. *)
Ltac unfold_seq :=
  cbv beta iota delta [mbind Go.M_bind Go.bind mret Go.M_ret Go.ret Go.check Go.throw Go.modify
                       Go.panic_with Go.index].

Section ScanFacts.
Import Go fastrlp types.
Context (WriteRlp : Value -> list byte)
        (TxTypeLegacy : byte)
        (ToTransactionType : byte -> byte * option error)
        (newTxPayload : byte -> option TxPayload * option error)
        (BytesToAddress : list byte -> list byte)
        (txHash : TxPayload -> list byte).

Local Abbreviation Transactions_UnmarshalRLPFrom :=
  (Transactions_UnmarshalRLPFrom TxTypeLegacy ToTransactionType newTxPayload
     BytesToAddress txHash).
Local Abbreviation Transactions_loop_body :=
  (Transactions_loop_body TxTypeLegacy ToTransactionType newTxPayload
     BytesToAddress txHash).
Local Abbreviation Transactions_scan :=
  (Transactions_scan TxTypeLegacy ToTransactionType newTxPayload BytesToAddress txHash).
Local Abbreviation Transactions_decode_one :=
  (Transactions_decode_one BytesToAddress txHash).
Local Abbreviation Receipts_UnmarshalRLPFrom :=
  (Receipts_UnmarshalRLPFrom TxTypeLegacy ToTransactionType).
Local Abbreviation Receipts_loop_body :=
  (Receipts_loop_body TxTypeLegacy ToTransactionType).
Local Abbreviation Receipts_scan := (Receipts_scan TxTypeLegacy ToTransactionType).

Lemma Transactions_loop_scan_from (txns : list Value) :
  forall rounds i s,
    i <= length txns -> length txns - i < rounds ->
    for_loop rounds (length txns) (Transactions_loop_body txns) i s =
    Transactions_scan (length txns) (drop i txns) s.
Proof.
  induction rounds as [|rounds IH]; intros i s Hi Hr; [lia|].
  cbn [for_loop].
  destruct (Nat.ltb_spec i (length txns)) as [Hlt|Hge].
  2:{ rewrite drop_ge by lia. reflexivity. }
  destruct (lookup_lt_is_Some_2 txns i Hlt) as [e He].
  rewrite (drop_S txns e i He).
  cbn [types.Transactions_scan].
  unfold types.Transactions_loop_body, types.Transactions_decode_one.
  unfold_seq. rewrite He.
  destruct (isTypeBytes e).
  - destruct (with_new _ _ s) as [[ty|err|p|] s1]; try reflexivity.
    destruct (newTxPayload ty) as [payload [err|]]; try reflexivity.
    destruct (txns !! (i + 1)) as [e'|] eqn:He'.
    + pose proof (lookup_lt_Some _ _ _ He') as Hlt'.
      replace (S i) with (i + 1) by lia.
      rewrite (drop_S txns e' (i + 1) He').
      destruct payload as [payload|]; try reflexivity.
      destruct (with_new _ _ s1) as [[payload'|err|p|] s2]; try reflexivity.
      rewrite IH by lia.
      replace (i + 1 + 1) with (S (i + 1)) by lia. reflexivity.
    + apply lookup_ge_None in He'.
      rewrite drop_ge by lia.
      replace (i + 1) with (length txns) by lia. reflexivity.
  - destruct (newTxPayload TxTypeLegacy) as [payload [err|]]; try reflexivity.
    rewrite He.
    destruct payload as [payload|]; try reflexivity.
    destruct (with_new _ _ s) as [[payload'|err|p|] s2]; try reflexivity.
    rewrite IH by lia.
    replace (i + 1) with (S i) by lia. reflexivity.
Qed.

(** The loop of [Transactions.UnmarshalRLPFrom] computes the scan of the
    stream; the bound on the number of rounds is never reached. *)
Lemma Transactions_loop_scan (txns : list Value) (s : list Transaction.t) :
  Transactions_UnmarshalRLPFrom (VArray txns) s =
  Transactions_scan (length txns) txns s.
Proof.
  unfold types.Transactions_UnmarshalRLPFrom. cbn [GetElems check].
  step reflexivity.
  rewrite Transactions_loop_scan_from by lia. reflexivity.
Qed.

Lemma Receipts_loop_scan_from (elems : list Value) :
  forall rounds i s,
    i <= length elems -> length elems - i < rounds ->
    for_loop rounds (length elems) (Receipts_loop_body elems) i s =
    Receipts_scan (length elems) (drop i elems) s.
Proof.
  induction rounds as [|rounds IH]; intros i s Hi Hr; [lia|].
  cbn [for_loop].
  destruct (Nat.ltb_spec i (length elems)) as [Hlt|Hge].
  2:{ rewrite drop_ge by lia. reflexivity. }
  destruct (lookup_lt_is_Some_2 elems i Hlt) as [e He].
  rewrite (drop_S elems e i He).
  cbn [types.Receipts_scan].
  unfold types.Receipts_loop_body, types.Receipts_decode_one.
  unfold_seq. rewrite He.
  destruct (isTypeBytes e).
  - destruct (with_new _ _ s) as [[ty|err|p|] s1]; try reflexivity.
    destruct (elems !! (i + 1)) as [e'|] eqn:He'.
    + pose proof (lookup_lt_Some _ _ _ He') as Hlt'.
      replace (S i) with (i + 1) by lia.
      rewrite (drop_S elems e' (i + 1) He').
      destruct (with_new _ _ s1) as [[rr|err|p|] s2]; try reflexivity.
      rewrite IH by lia.
      replace (i + 1 + 1) with (S (i + 1)) by lia. reflexivity.
    + apply lookup_ge_None in He'.
      rewrite drop_ge by lia.
      replace (i + 1) with (length elems) by lia. reflexivity.
  - rewrite He.
    destruct (with_new _ _ s) as [[rr|err|p|] s2]; try reflexivity.
    rewrite IH by lia.
    replace (i + 1) with (S i) by lia. reflexivity.
Qed.

Lemma Receipts_loop_scan (elems : list Value) (s : list Receipt.t) :
  Receipts_UnmarshalRLPFrom (VArray elems) s =
  Receipts_scan (length elems) elems s.
Proof.
  unfold types.Receipts_UnmarshalRLPFrom. cbn [GetElems check].
  step reflexivity.
  rewrite Receipts_loop_scan_from by lia. reflexivity.
Qed.

End ScanFacts.

(* ===================================================================== *)
(** ** The object decoders come back to their caller *)
(* ===================================================================== *)

Section ReturnsFacts.
Import Go fastrlp types.

Lemma returns_bind {R A B} (m : M R A) (k : A -> M R B) (r : R) :
  returns (m r) ->
  (forall a r', m r = (Ok a, r') -> returns (k a r')) ->
  returns ((m ≫= k) r).
Proof.
  unfold mbind, M_bind, bind, returns.
  destruct (m r) as [[a|e|p|] r']; cbn [fst]; intros H Hk; auto.
  apply (Hk a r'). reflexivity.
Qed.

Lemma returns_with_new {R T A} (init : T) (m : M T A) (r : R) :
  returns (m init) -> returns (with_new init m r).
Proof.
  unfold with_new, returns. destruct (m init) as [[a|e|p|] t]; cbn [fst]; auto.
Qed.

Lemma returns_check {R} (err : option error) (r : R) : returns (check err r).
Proof. destruct err; exact I. Qed.

Lemma returns_for_range {R A} (xs : list A) (body : A -> M R unit) :
  (forall x r, returns (body x r)) -> forall r, returns (for_range xs body r).
Proof.
  intros Hbody. induction xs as [|x xs IH]; intros r; cbn [for_range]; [exact I|].
  change (bind ?m ?k) with (m ≫= k).
  apply returns_bind; [apply Hbody|]. intros _ r' _. apply IH.
Qed.

Section Steps.
Context {R : Type}.

Lemma read_hash_returns e w (field : R -> list byte) set (r : R) :
  returns (read_hash e w field set r).
Proof.
  unfold read_hash. apply returns_bind; [exact I|]. intros a r' _.
  destruct (GetHash e (w (field a))) as [x [err|]]; exact I.
Qed.

Lemma read_addr_returns e w (field : R -> list byte) set (r : R) :
  returns (read_addr e w field set r).
Proof.
  unfold read_addr. apply returns_bind; [exact I|]. intros a r' _.
  destruct (GetAddr e (w (field a))) as [x [err|]]; exact I.
Qed.

Lemma read_fixed_returns e n (field : R -> list byte) set (r : R) :
  returns (read_fixed e n field set r).
Proof.
  unfold read_fixed. apply returns_bind; [exact I|]. intros a r' _.
  destruct (GetBytes e (slice_to0 (field a)) (Some n)) as [[s x] [err|]]; exact I.
Qed.

Lemma read_bytes_returns e (field : R -> list byte) set (r : R) :
  returns (read_bytes e field set r).
Proof.
  unfold read_bytes. apply returns_bind; [exact I|]. intros a r' _.
  destruct (GetBytes e (slice_to0 (field a)) None) as [[s x] [err|]]; exact I.
Qed.

Lemma read_uint64_returns e (set : N -> R -> R) (r : R) :
  returns (read_uint64 e set r).
Proof. unfold read_uint64. destruct (GetUint64 e) as [x [err|]]; exact I. Qed.

Lemma read_bigint_returns e (set : option N -> R -> R) (r : R) :
  returns (read_bigint e set r).
Proof.
  unfold read_bigint. apply returns_bind; [exact I|]. intros _ r' _.
  destruct (GetBigInt e 0%N) as [x [err|]]; exact I.
Qed.

Lemma read_to_returns BytesToAddress v i e (set : option (list byte) -> R -> R) (r : R) :
  Get v i = Some e -> returns (read_to BytesToAddress v i set r).
Proof.
  intros H. unfold read_to. rewrite H.
  destruct (Bytes e) as [vv err]. destruct (length vv =? 20); exact I.
Qed.
End Steps.

End ReturnsFacts.

(** One statement of a method body, for [returns]. *)
Ltac returns_step :=
  apply returns_bind;
  [ first [ exact I | apply read_hash_returns | apply read_addr_returns
          | apply read_fixed_returns | apply read_bytes_returns
          | apply read_uint64_returns | apply read_bigint_returns
          | apply returns_check ]
  | intros ? ? _ ].


Section DecodersReturn.
Import Go fastrlp types.

Context (TxTypeLegacy : byte)
        (ToTransactionType : byte -> byte * option error)
        (BytesToAddress : list byte -> list byte).

Lemma TransactionType_returns (v : Value) (t : byte) :
  returns (TransactionType_UnmarshalRLPFrom ToTransactionType v t).
Proof.
  unfold TransactionType_UnmarshalRLPFrom.
  destruct (Bytes v) as [bytes err].
  returns_step. cbv zeta.
  destruct (Nat.eqb_spec (length bytes) 1) as [H1|H1]; [|exact I]. cbn [negb].
  destruct bytes as [|b0 [|b1 bytes]]; try discriminate.
  apply returns_bind; [exact I|]. intros b r0 _.
  destruct (ToTransactionType b) as [t' [e|]]; exact I.
Qed.

Lemma LegacyTransaction_returns (v : Value) (t : LegacyTransaction.t) :
  returns (LegacyTransaction_UnmarshalRLPFrom BytesToAddress v t).
Proof.
  unfold LegacyTransaction_UnmarshalRLPFrom.
  destruct v as [b|elems]; [exact I|]. cbn [GetElems].
  returns_step. cbv zeta.
  destruct (Nat.eqb_spec (length elems) 9) as [H|H]; [|exact I]. cbn [negb].
  destruct elems as [|e0 [|e1 [|e2 [|e3 [|e4 [|e5 [|e6 [|e7 [|e8 [|e9 elems]]]]]]]]]];
    try discriminate.
  do 6 returns_step.
  apply returns_bind; [apply read_to_returns with (e := e3); reflexivity|intros ? ? _].
  do 9 returns_step.
  apply read_bigint_returns.
Qed.

(** The loop over the signatures stays inside the slice made for them. *)
Lemma Signatures_loop_returns (sigElems : list Value) :
  forall i (t : StateTransaction.t),
    i + length sigElems <= length (StateTransaction.Signatures t) ->
    returns (for_range_from i sigElems (fun i e =>
      t ← get;
      slot ← index (StateTransaction.Signatures t) i;
      let '(s, _, err) := GetBytes e (slice_to0 slot) None in
      modify (StateTransaction.set_Signatures
                (<[i := contents s]> (StateTransaction.Signatures t)));;
      check err) t).
Proof.
  induction sigElems as [|e sigElems IH]; intros i t Hlen; [exact I|].
  cbn [for_range_from length] in *.
  change (bind ?m ?k) with (m ≫= k).
  destruct (lookup_lt_is_Some_2 (StateTransaction.Signatures t) i) as [slot Hslot]; [lia|].
  apply returns_bind.
  - apply returns_bind; [exact I|]. intros t0 t1 [= <- <-].
    apply returns_bind; [unfold index; rewrite Hslot; exact I|]. intros a r' _.
    destruct (GetBytes e (slice_to0 a) None) as [[s x] [err|]]; exact I.
  - intros [] t' Hrun. apply IH.
    revert Hrun. unfold mbind, M_bind, bind, get, index. rewrite Hslot. cbn [ret].
    destruct (GetBytes e (slice_to0 slot) None) as [[s x] [err|]];
      cbn; intros [= <-]; cbn; rewrite length_insert; lia.
Qed.

Lemma StateTransaction_returns (v : Value) (t : StateTransaction.t) :
  returns (StateTransaction_UnmarshalRLPFrom BytesToAddress v t).
Proof.
  unfold StateTransaction_UnmarshalRLPFrom.
  destruct v as [b|elems]; [exact I|]. cbn [GetElems].
  returns_step. cbv zeta.
  destruct (Nat.eqb_spec (length elems) 7) as [H|H]; [|exact I]. cbn [negb].
  destruct elems as [|e0 [|e1 [|e2 [|e3 [|e4 [|e5 [|e6 [|e7 elems]]]]]]]];
    try discriminate.
  do 2 returns_step.
  apply returns_bind; [apply read_to_returns with (e := e1); reflexivity|intros ? ? _].
  do 2 returns_step.
  apply returns_bind; [exact I|]. intros e r0 _.
  destruct (GetElems e) as [sigElems err].
  returns_step.
  apply returns_bind; [exact I|]. intros [] t' [= <-].
  apply returns_bind.
  { apply Signatures_loop_returns. cbn. rewrite length_replicate. lia. }
  intros _ t'' _.
  do 4 returns_step.
  apply read_bigint_returns.
Qed.

Lemma TxPayload_returns (v : Value) (payload : TxPayload) :
  returns (TxPayload_UnmarshalRLPFrom BytesToAddress v payload).
Proof.
  unfold TxPayload_UnmarshalRLPFrom. destruct payload as [t|t].
  - pose proof (LegacyTransaction_returns v t) as H. unfold returns in *.
    destruct (LegacyTransaction_UnmarshalRLPFrom BytesToAddress v t) as [r t']. exact H.
  - pose proof (StateTransaction_returns v t) as H. unfold returns in *.
    destruct (StateTransaction_UnmarshalRLPFrom BytesToAddress v t) as [r t']. exact H.
Qed.

(** The loop over the topics stays inside the slice made for them. *)
Lemma Topics_loop_returns (topicElems : list Value) :
  forall i (l : Log.t),
    i + length topicElems <= length (Log.Topics l) ->
    returns (for_range_from i topicElems (fun indx topic =>
      l ← get;
      slot ← index (Log.Topics l) indx;
      let '(a, err) := GetHash topic (slice_all slot) in
      modify (Log.set_Topics (<[indx := a]> (Log.Topics l)));; check err) l).
Proof.
  induction topicElems as [|e topicElems IH]; intros i l Hlen; [exact I|].
  cbn [for_range_from length] in *.
  change (bind ?m ?k) with (m ≫= k).
  destruct (lookup_lt_is_Some_2 (Log.Topics l) i) as [slot Hslot]; [lia|].
  apply returns_bind.
  - apply returns_bind; [exact I|]. intros t0 t1 [= <- <-].
    apply returns_bind; [unfold index; rewrite Hslot; exact I|]. intros a r' _.
    destruct (GetHash e (slice_all a)) as [x [err|]]; exact I.
  - intros [] t' Hrun. apply IH.
    revert Hrun. unfold mbind, M_bind, bind, get, index. rewrite Hslot. cbn [ret].
    destruct (GetHash e (slice_all slot)) as [x [err|]];
      cbn; intros [= <-]; cbn; rewrite length_insert; lia.
Qed.

Lemma Log_returns (v : Value) (l : Log.t) : returns (Log_UnmarshalRLPFrom v l).
Proof.
  unfold Log_UnmarshalRLPFrom.
  destruct v as [b|elems]; [exact I|]. cbn [GetElems].
  returns_step.
  destruct (Nat.eqb_spec (length elems) 3) as [H|H]; [|exact I]. cbn [negb].
  destruct elems as [|e0 [|e1 [|e2 [|e3 elems]]]]; try discriminate.
  do 2 returns_step.
  apply returns_bind; [exact I|]. intros e r0 _.
  destruct (GetElems e) as [topicElems err].
  returns_step.
  apply returns_bind; [exact I|]. intros [] l' [= <-].
  apply returns_bind.
  { apply Topics_loop_returns. cbn. rewrite length_replicate. lia. }
  intros _ l'' _.
  returns_step.
  apply read_bytes_returns.
Qed.

Lemma Receipt_returns (v : Value) (r : Receipt.t) : returns (Receipt_UnmarshalRLPFrom v r).
Proof.
  unfold Receipt_UnmarshalRLPFrom.
  destruct v as [b|elems]; [exact I|]. cbn [GetElems].
  returns_step.
  destruct (Nat.eqb_spec (length elems) 4) as [H|H]; [|exact I]. cbn [negb].
  destruct elems as [|e0 [|e1 [|e2 [|e3 [|e4 elems]]]]]; try discriminate.
  apply returns_bind; [exact I|]. intros e r0 _.
  destruct (Bytes e) as [buf err].
  returns_step.
  apply returns_bind.
  { cbv zeta. destruct (length buf =? 32); [exact I|].
    destruct (Nat.eqb_spec (length buf) 1) as [H1|H1]; [|exact I].
    destruct buf as [|b0 [|b1 buf]]; try discriminate. exact I. }
  intros _ r2 _.
  do 4 returns_step.
  cbn [Get lookup list_lookup].
  destruct (GetElems e3) as [logsElems err'].
  returns_step.
  apply returns_for_range. intros elem r3.
  apply returns_bind; [apply returns_with_new, Log_returns|]. intros ? ? _. exact I.
Qed.

End DecodersReturn.

(* ===================================================================== *)
(** ** Streams of transactions and receipts *)
(* ===================================================================== *)

Section StreamFacts.
Import Go fastrlp types.
Context (TxTypeLegacy : byte)
        (ToTransactionType : byte -> byte * option error)
        (newTxPayload : byte -> option TxPayload * option error)
        (BytesToAddress : list byte -> list byte)
        (txHash : TxPayload -> list byte).

Local Abbreviation Transactions_UnmarshalRLPFrom :=
  (Transactions_UnmarshalRLPFrom TxTypeLegacy ToTransactionType newTxPayload
     BytesToAddress txHash).
Local Abbreviation Transactions_scan :=
  (Transactions_scan TxTypeLegacy ToTransactionType newTxPayload BytesToAddress txHash).
Local Abbreviation Receipts_UnmarshalRLPFrom :=
  (Receipts_UnmarshalRLPFrom TxTypeLegacy ToTransactionType).
Local Abbreviation Receipts_scan := (Receipts_scan TxTypeLegacy ToTransactionType).

Lemma followed_tail (e : Value) (rest : list Value) :
  followed (e :: rest) -> followed rest.
Proof.
  intros H i b Hi. specialize (H (S i) b Hi). cbn [length] in H. lia.
Qed.

(** A stream decoded without incident is decoded the same way in front of
    further elements, and the decoding goes on with them. *)
Lemma Transactions_scan_app (n n' : nat) (suf : list Value) :
  forall k pre s s1,
    length pre <= k ->
    Transactions_scan n' pre s = (Ok tt, s1) ->
    Transactions_scan n (pre ++ suf) s = Transactions_scan n suf s1.
Proof.
  induction k as [|k IH]; intros pre s s1 Hk Hpre.
  - destruct pre; [|cbn in Hk; lia]. cbn in Hpre. injection Hpre as <-. reflexivity.
  - destruct pre as [|e rest].
    { cbn in Hpre. injection Hpre as <-. reflexivity. }
    cbn [length] in Hk.
    change ((e :: rest) ++ suf) with (e :: (rest ++ suf)).
    cbn [types.Transactions_scan] in *.
    destruct (isTypeBytes e).
    + revert Hpre. unfold_seq.
      destruct (with_new _ _ s) as [[ty|err|p|] s2]; try discriminate.
      destruct (newTxPayload ty) as [payload [err|]]; try discriminate.
      destruct rest as [|e' rest']; [discriminate|].
      change ((e' :: rest') ++ suf) with (e' :: (rest' ++ suf)).
      unfold types.Transactions_decode_one. unfold_seq.
      destruct payload as [payload|]; try discriminate.
      destruct (with_new _ _ s2) as [[payload'|err|p|] s3]; try discriminate.
      intros Hrest. apply (IH rest' _ _ ltac:(cbn [length] in Hk; lia) Hrest).
    + revert Hpre. unfold_seq.
      destruct (newTxPayload TxTypeLegacy) as [payload [err|]]; try discriminate.
      unfold types.Transactions_decode_one. unfold_seq.
      destruct payload as [payload|]; try discriminate.
      destruct (with_new _ _ s) as [[payload'|err|p|] s3]; try discriminate.
      intros Hrest. apply (IH rest _ _ ltac:(lia) Hrest).
Qed.

Lemma Receipts_scan_app (n n' : nat) (suf : list Value) :
  forall k pre s s1,
    length pre <= k ->
    Receipts_scan n' pre s = (Ok tt, s1) ->
    Receipts_scan n (pre ++ suf) s = Receipts_scan n suf s1.
Proof.
  induction k as [|k IH]; intros pre s s1 Hk Hpre.
  - destruct pre; [|cbn in Hk; lia]. cbn in Hpre. injection Hpre as <-. reflexivity.
  - destruct pre as [|e rest].
    { cbn in Hpre. injection Hpre as <-. reflexivity. }
    cbn [length] in Hk.
    change ((e :: rest) ++ suf) with (e :: (rest ++ suf)).
    cbn [types.Receipts_scan] in *.
    destruct (isTypeBytes e).
    + revert Hpre. unfold_seq.
      destruct (with_new _ _ s) as [[ty|err|p|] s2]; try discriminate.
      destruct rest as [|e' rest']; [discriminate|].
      change ((e' :: rest') ++ suf) with (e' :: (rest' ++ suf)).
      unfold types.Receipts_decode_one. unfold_seq.
      destruct (with_new _ _ s2) as [[rr|err|p|] s3]; try discriminate.
      intros Hrest. apply (IH rest' _ _ ltac:(cbn [length] in Hk; lia) Hrest).
    + revert Hpre.
      unfold types.Receipts_decode_one. unfold_seq.
      destruct (with_new _ _ s) as [[rr|err|p|] s3]; try discriminate.
      intros Hrest. apply (IH rest _ _ ltac:(lia) Hrest).
Qed.

(** Reading a one-byte atom whose byte is a known type. *)
Lemma TransactionType_of_tag {R} (b ty : byte) (r : R) :
  ToTransactionType b = (ty, None) ->
  with_new TxTypeLegacy (TransactionType_UnmarshalRLPFrom ToTransactionType (VBytes [b])) r
  = (Ok ty, r).
Proof.
  intros H. apply with_new_ok with (a := tt).
  unfold TransactionType_UnmarshalRLPFrom. cbn [Bytes check length Nat.eqb negb].
  step reflexivity. cbv zeta. cbn [length Nat.eqb negb].
  step reflexivity. rewrite H. reflexivity.
Qed.

(** With every atom followed by an element, the scans come back. *)
Lemma Transactions_scan_returns (n : nat) :
  (forall ty, fst (newTxPayload ty) = None -> snd (newTxPayload ty) <> None) ->
  forall k txns s, length txns <= k -> followed txns ->
                   returns (Transactions_scan n txns s).
Proof.
  intros Hnew. induction k as [|k IH]; intros txns s Hk Hf.
  - destruct txns; [exact I|cbn in Hk; lia].
  - destruct txns as [|e rest]; [exact I|]. cbn [length] in Hk.
    cbn [types.Transactions_scan].
    destruct (isTypeBytes e) eqn:He.
    + apply returns_bind;
        [apply returns_with_new, TransactionType_returns|]. intros ty s1 _.
      pose proof (Hnew ty) as Hty.
      destruct (newTxPayload ty) as [payload [err|]]; [exact I|].
      apply returns_bind; [exact I|]. intros _ s2 _.
      destruct rest as [|e' rest'].
      { destruct e as [b|l]; [|discriminate].
        specialize (Hf 0 b eq_refl). cbn in Hf. lia. }
      destruct payload as [payload|]; [|exfalso; apply Hty; reflexivity].
      apply returns_bind.
      * unfold types.Transactions_decode_one.
        apply returns_bind; [apply returns_with_new, TxPayload_returns|].
        intros ? ? _. exact I.
      * intros _ s3 _. apply IH; [cbn [length] in Hk; lia|].
        apply followed_tail with (e := e'), followed_tail with (e := e), Hf.
    + pose proof (Hnew TxTypeLegacy) as Hty.
      destruct (newTxPayload TxTypeLegacy) as [payload [err|]]; [exact I|].
      apply returns_bind; [exact I|]. intros _ s2 _.
      destruct payload as [payload|]; [|exfalso; apply Hty; reflexivity].
      apply returns_bind.
      * unfold types.Transactions_decode_one.
        apply returns_bind; [apply returns_with_new, TxPayload_returns|].
        intros ? ? _. exact I.
      * intros _ s3 _. apply IH; [lia|].
        apply followed_tail with (e := e), Hf.
Qed.

Lemma Receipts_scan_returns (n : nat) :
  forall k elems s, length elems <= k -> followed elems ->
                    returns (Receipts_scan n elems s).
Proof.
  induction k as [|k IH]; intros elems s Hk Hf.
  - destruct elems; [exact I|cbn in Hk; lia].
  - destruct elems as [|e rest]; [exact I|]. cbn [length] in Hk.
    cbn [types.Receipts_scan].
    destruct (isTypeBytes e) eqn:He.
    + apply returns_bind;
        [apply returns_with_new, TransactionType_returns|]. intros ty s1 _.
      destruct rest as [|e' rest'].
      { destruct e as [b|l]; [|discriminate].
        specialize (Hf 0 b eq_refl). cbn in Hf. lia. }
      apply returns_bind.
      * unfold types.Receipts_decode_one.
        apply returns_bind; [apply returns_with_new, Receipt_returns|].
        intros ? ? _. exact I.
      * intros _ s3 _. apply IH; [cbn [length] in Hk; lia|].
        apply followed_tail with (e := e'), followed_tail with (e := e), Hf.
    + apply returns_bind.
      * unfold types.Receipts_decode_one.
        apply returns_bind; [apply returns_with_new, Receipt_returns|].
        intros ? ? _. exact I.
      * intros _ s3 _. apply IH; [lia|].
        apply followed_tail with (e := e), Hf.
Qed.

(** C6.  With [0x02] a known transaction type whose payload is the typed
    (state) transaction, the stream made of a legacy transaction list, the
    one-byte atom [0x02] and a typed transaction list decodes to two
    transactions, appended to the receiver: the legacy transaction, and
    the typed payload made for the type of byte [0x02].  In general a list
    element met at an element position (after a stream that decoded
    without incident) is decoded in place as a legacy transaction. *)
Theorem Transactions_legacy_then_typed
    (v1 v3 : Value) (l0 lt : LegacyTransaction.t) (s0 st : StateTransaction.t)
    (ty : byte) (txs : list Transaction.t) :
  newTxPayload TxTypeLegacy = (Some (PLegacy l0), None) ->
  ToTransactionType x02 = (ty, None) ->
  newTxPayload ty = (Some (PState s0), None) ->
  isTypeBytes v1 = false ->
  LegacyTransaction_UnmarshalRLPFrom BytesToAddress v1 l0 = (Ok tt, lt) ->
  StateTransaction_UnmarshalRLPFrom BytesToAddress v3 s0 = (Ok tt, st) ->
  Transactions_UnmarshalRLPFrom (VArray [v1; VBytes [x02]; v3]) txs =
    (Ok tt, txs ++ [ Transaction.mk (PLegacy lt) (txHash (PLegacy lt));
                     Transaction.mk (PState st) (txHash (PState st)) ]) /\
  (forall (pre es : list Value) (lt' : LegacyTransaction.t) (txs1 : list Transaction.t),
      Transactions_UnmarshalRLPFrom (VArray pre) txs = (Ok tt, txs1) ->
      LegacyTransaction_UnmarshalRLPFrom BytesToAddress (VArray es) l0 = (Ok tt, lt') ->
      Transactions_UnmarshalRLPFrom (VArray (pre ++ [VArray es])) txs =
        (Ok tt, txs1 ++ [Transaction.mk (PLegacy lt') (txHash (PLegacy lt'))])).
Proof.
  intros Hlegacy Htag Hstate Hv1 Hlt Hst.
  assert (Hone : forall e lt' s,
    LegacyTransaction_UnmarshalRLPFrom BytesToAddress e l0 = (Ok tt, lt') ->
    Transactions_decode_one BytesToAddress txHash (Some (PLegacy l0)) e s =
      (Ok tt, s ++ [Transaction.mk (PLegacy lt') (txHash (PLegacy lt'))])).
  { intros e lt' s H. unfold Transactions_decode_one.
    step (apply with_new_ok with (a := tt); unfold TxPayload_UnmarshalRLPFrom;
          rewrite H; reflexivity).
    reflexivity. }
  split.
  - rewrite Transactions_loop_scan. cbn [types.Transactions_scan]. rewrite Hv1.
    rewrite Hlegacy. cbn [check].
    step reflexivity. step (apply Hone, Hlt).
    cbn [isTypeBytes Value_Type].
    step (apply TransactionType_of_tag, Htag).
    rewrite Hstate. cbn [check].
    step reflexivity.
    step (unfold Transactions_decode_one;
          erewrite step_ok;
          [|apply with_new_ok with (a := tt); unfold TxPayload_UnmarshalRLPFrom;
            rewrite Hst; reflexivity];
          reflexivity).
    rewrite <- app_assoc. reflexivity.
  - intros pre es lt' txs1 Hpre Hes.
    rewrite Transactions_loop_scan in Hpre. rewrite Transactions_loop_scan.
    rewrite (Transactions_scan_app _ _ _ (length pre) pre txs txs1 ltac:(lia) Hpre).
    cbn [types.Transactions_scan isTypeBytes Value_Type].
    rewrite Hlegacy. cbn [check].
    step reflexivity. step (apply Hone, Hes). reflexivity.
Qed.

(** **** Where the collection decoders panic *)

Lemma bind_run {R A B} (m : M R A) (k : A -> M R B) (r r1 : R) (x : result A) :
  m r = (x, r1) ->
  (m ≫= k) r = match x with
               | Ok a => k a r1
               | Err e => (Err e, r1)
               | Panic p => (Panic p, r1)
               | OutOfRounds => (OutOfRounds, r1)
               end.
Proof. intros H. unfold mbind, M_bind, bind. rewrite H. destruct x; reflexivity. Qed.

(** An atom is accepted as a type exactly when it is one byte of a known
    type. *)
Lemma TransactionType_tag_inv {R} (v : Value) (ty : byte) (r r' : R) :
  with_new TxTypeLegacy (TransactionType_UnmarshalRLPFrom ToTransactionType v) r
    = (Ok ty, r') ->
  r' = r /\ exists b, v = VBytes [b] /\ ToTransactionType b = (ty, None).
Proof.
  unfold with_new.
  destruct (TransactionType_UnmarshalRLPFrom ToTransactionType v TxTypeLegacy)
    as [[[]|e|p|] t] eqn:Hrun; try discriminate.
  intros [= -> ->]. split; [reflexivity|].
  revert Hrun. unfold TransactionType_UnmarshalRLPFrom.
  destruct v as [bytes|l]; [|discriminate]. cbn [Bytes check].
  intros H. erewrite step_ok in H by reflexivity. cbv beta zeta in H.
  destruct bytes as [|b [|b' bytes]]; try discriminate.
  cbn [length Nat.eqb negb] in H.
  erewrite step_ok in H by reflexivity. cbv beta in H.
  destruct (ToTransactionType b) as [t' [e|]] eqn:Hb; [discriminate|].
  injection H as ->. exists b. split; [reflexivity|exact Hb].
Qed.

Lemma TransactionType_tag_returns {R} (v : Value) (r : R) :
  returns (with_new TxTypeLegacy (TransactionType_UnmarshalRLPFrom ToTransactionType v) r).
Proof. apply returns_with_new, TransactionType_returns. Qed.

Lemma Receipts_decode_one_returns (ty : byte) (e : Value) (s : list Receipt.t) :
  returns (Receipts_decode_one ty e s).
Proof.
  unfold Receipts_decode_one.
  apply returns_bind; [apply returns_with_new, Receipt_returns|].
  intros ? ? _. exact I.
Qed.

Lemma Transactions_decode_one_returns (payload : TxPayload) (e : Value)
    (s : list Transaction.t) :
  returns (Transactions_decode_one BytesToAddress txHash (Some payload) e s).
Proof.
  unfold Transactions_decode_one.
  apply returns_bind; [apply returns_with_new, TxPayload_returns|].
  intros ? ? _. exact I.
Qed.

(** The scan of the receipts panics in one place only: on the access that
    follows a one-byte atom of a known type with which the stream ends. *)
Lemma Receipts_scan_panic (n : nat) :
  forall k elems s res s',
    length elems <= k ->
    Receipts_scan n elems s = (res, s') ->
    match res with
    | Ok _ | Err _ => True
    | OutOfRounds => False
    | Panic p =>
        p = IndexOutOfRange (Z.of_nat n) n /\
        exists pre b ty,
          elems = pre ++ [VBytes [b]] /\ ToTransactionType b = (ty, None) /\
          forall n', Receipts_scan n' pre s = (Ok tt, s')
    end.
Proof.
  induction k as [|k IH]; intros elems s res s' Hk H.
  { destruct elems; [|cbn in Hk; lia]. injection H as <- <-. exact I. }
  destruct elems as [|e rest]; [injection H as <- <-; exact I|].
  cbn [length] in Hk. cbn [types.Receipts_scan] in H.
  destruct (isTypeBytes e) eqn:He.
  - pose proof (TransactionType_tag_returns e s) as Hret.
    destruct (with_new TxTypeLegacy (TransactionType_UnmarshalRLPFrom ToTransactionType e) s)
      as [[ty|err|p|] s1] eqn:Hty; try destruct Hret;
      rewrite (bind_run _ _ _ _ _ Hty) in H.
    2:{ injection H as <- _. exact I. }
    apply TransactionType_tag_inv in Hty as (-> & b & -> & Hb).
    destruct rest as [|e' rest'].
    { injection H as <- <-. split; [reflexivity|].
      exists [], b, ty. split; [reflexivity|]. split; [exact Hb|]. reflexivity. }
    pose proof (Receipts_decode_one_returns ty e' s) as Hret.
    destruct (Receipts_decode_one ty e' s) as [[[]|err|p|] s2] eqn:Hone;
      try destruct Hret; rewrite (bind_run _ _ _ _ _ Hone) in H.
    2:{ injection H as <- _. exact I. }
    specialize (IH rest' s2 res s' ltac:(cbn [length] in Hk; lia) H).
    destruct res as [a|err|p|]; try exact IH.
    destruct IH as (Hp & pre & b' & ty' & -> & Hb' & Hpre).
    split; [exact Hp|].
    exists (VBytes [b] :: e' :: pre), b', ty'.
    split; [reflexivity|]. split; [exact Hb'|]. intros n'.
    cbn [types.Receipts_scan isTypeBytes Value_Type].
    erewrite step_ok by (apply TransactionType_of_tag, Hb). cbv beta.
    erewrite step_ok by exact Hone. apply Hpre.
  - pose proof (Receipts_decode_one_returns TxTypeLegacy e s) as Hret.
    destruct (Receipts_decode_one TxTypeLegacy e s) as [[[]|err|p|] s2] eqn:Hone;
      try destruct Hret; rewrite (bind_run _ _ _ _ _ Hone) in H.
    2:{ injection H as <- _. exact I. }
    specialize (IH rest s2 res s' ltac:(lia) H).
    destruct res as [a|err|p|]; try exact IH.
    destruct IH as (Hp & pre & b' & ty' & -> & Hb' & Hpre).
    split; [exact Hp|].
    exists (e :: pre), b', ty'.
    split; [reflexivity|]. split; [exact Hb'|]. intros n'.
    cbn [types.Receipts_scan]. rewrite He.
    erewrite step_ok by exact Hone. apply Hpre.
Qed.

(** The scan of the transactions panics there, and where the table of the
    transaction types hands out neither a payload nor an error. *)
Lemma Transactions_scan_panic (n : nat) :
  forall k txns s res s',
    length txns <= k ->
    Transactions_scan n txns s = (res, s') ->
    match res with
    | Ok _ | Err _ => True
    | OutOfRounds => False
    | Panic p =>
        (p = IndexOutOfRange (Z.of_nat n) n /\
         exists pre b ty payload,
           txns = pre ++ [VBytes [b]] /\ ToTransactionType b = (ty, None) /\
           newTxPayload ty = (payload, None) /\
           forall n', Transactions_scan n' pre s = (Ok tt, s')) \/
        (p = NilDereference /\ exists ty, newTxPayload ty = (None, None))
    end.
Proof.
  induction k as [|k IH]; intros txns s res s' Hk H.
  { destruct txns; [|cbn in Hk; lia]. injection H as <- <-. exact I. }
  destruct txns as [|e rest]; [injection H as <- <-; exact I|].
  cbn [length] in Hk. cbn [types.Transactions_scan] in H.
  destruct (isTypeBytes e) eqn:He.
  - pose proof (TransactionType_tag_returns e s) as Hret.
    destruct (with_new TxTypeLegacy (TransactionType_UnmarshalRLPFrom ToTransactionType e) s)
      as [[ty|err|p|] s1] eqn:Hty; try destruct Hret;
      rewrite (bind_run _ _ _ _ _ Hty) in H.
    2:{ injection H as <- _. exact I. }
    apply TransactionType_tag_inv in Hty as (-> & b & -> & Hb).
    destruct (newTxPayload ty) as [payload [err|]] eqn:Hnew.
    { injection H as <- _. exact I. }
    cbn [check] in H. erewrite step_ok in H by reflexivity. cbv beta in H.
    destruct rest as [|e' rest'].
    { injection H as <- <-. left. split; [reflexivity|].
      exists [], b, ty, payload. split; [reflexivity|]. split; [exact Hb|].
      split; [exact Hnew|]. reflexivity. }
    destruct payload as [payload|].
    2:{ injection H as <- _. right. split; [reflexivity|]. exists ty. exact Hnew. }
    pose proof (Transactions_decode_one_returns payload e' s) as Hret.
    destruct (Transactions_decode_one BytesToAddress txHash (Some payload) e' s)
      as [[[]|err|p|] s2] eqn:Hone;
      try destruct Hret; rewrite (bind_run _ _ _ _ _ Hone) in H.
    2:{ injection H as <- _. exact I. }
    specialize (IH rest' s2 res s' ltac:(cbn [length] in Hk; lia) H).
    destruct res as [a|err|p|]; try exact IH.
    destruct IH as [(Hp & pre & b' & ty' & payload' & -> & Hb' & Hnew' & Hpre)|IH];
      [left|right; exact IH].
    split; [exact Hp|].
    exists (VBytes [b] :: e' :: pre), b', ty', payload'.
    split; [reflexivity|]. split; [exact Hb'|]. split; [exact Hnew'|]. intros n'.
    cbn [types.Transactions_scan isTypeBytes Value_Type].
    erewrite step_ok by (apply TransactionType_of_tag, Hb). cbv beta.
    rewrite Hnew. cbn [check]. erewrite step_ok by reflexivity. cbv beta.
    erewrite step_ok by exact Hone. apply Hpre.
  - destruct (newTxPayload TxTypeLegacy) as [payload [err|]] eqn:Hnew.
    { injection H as <- _. exact I. }
    cbn [check] in H. erewrite step_ok in H by reflexivity. cbv beta in H.
    destruct payload as [payload|].
    2:{ injection H as <- _. right. split; [reflexivity|].
        exists TxTypeLegacy. exact Hnew. }
    pose proof (Transactions_decode_one_returns payload e s) as Hret.
    destruct (Transactions_decode_one BytesToAddress txHash (Some payload) e s)
      as [[[]|err|p|] s2] eqn:Hone;
      try destruct Hret; rewrite (bind_run _ _ _ _ _ Hone) in H.
    2:{ injection H as <- _. exact I. }
    specialize (IH rest s2 res s' ltac:(lia) H).
    destruct res as [a|err|p|]; try exact IH.
    destruct IH as [(Hp & pre & b' & ty' & payload' & -> & Hb' & Hnew' & Hpre)|IH];
      [left|right; exact IH].
    split; [exact Hp|].
    exists (e :: pre), b', ty', payload'.
    split; [reflexivity|]. split; [exact Hb'|]. split; [exact Hnew'|]. intros n'.
    cbn [types.Transactions_scan]. rewrite He.
    rewrite Hnew. cbn [check]. erewrite step_ok by reflexivity. cbv beta.
    erewrite step_ok by exact Hone. apply Hpre.
Qed.

(** C10 (amended).  At an element position a bytes atom is read as a type:
    when it is one byte of a known type the index is advanced and the next
    element is accessed unconditionally, and any other atom makes the
    decoder return an error.  So a stream that ends, after elements that
    decode without error, with a one-byte atom of a known type makes both
    collection decoders read [elems[i]] with [i] equal to the length of
    the stream, and the call panics with an index out of range; and this
    is the only stream on which the receipt decoder panics, and, when the
    table of the types never hands out a [nil] payload without an error,
    the only one on which the transaction decoder panics.  The bound on
    the rounds of the loop is never reached.  When every bytes atom of the
    stream is followed by a further element, both decoders come back to
    their caller with a value or an error. *)
Theorem type_tag_without_payload_panics
    (elems : list Value) (txs : list Transaction.t) (rs : list Receipt.t) :
  let n := length elems in
  (forall pre b ty rs1,
      elems = pre ++ [VBytes [b]] ->
      ToTransactionType b = (ty, None) ->
      Receipts_UnmarshalRLPFrom (VArray pre) rs = (Ok tt, rs1) ->
      Receipts_UnmarshalRLPFrom (VArray elems) rs =
        (Panic (IndexOutOfRange (Z.of_nat n) n), rs1)) /\
  (forall pre b ty payload txs1,
      elems = pre ++ [VBytes [b]] ->
      ToTransactionType b = (ty, None) ->
      newTxPayload ty = (Some payload, None) ->
      Transactions_UnmarshalRLPFrom (VArray pre) txs = (Ok tt, txs1) ->
      Transactions_UnmarshalRLPFrom (VArray elems) txs =
        (Panic (IndexOutOfRange (Z.of_nat n) n), txs1)) /\
  (forall p rs1,
      Receipts_UnmarshalRLPFrom (VArray elems) rs = (Panic p, rs1) ->
      p = IndexOutOfRange (Z.of_nat n) n /\
      exists pre b ty,
        elems = pre ++ [VBytes [b]] /\ ToTransactionType b = (ty, None) /\
        Receipts_UnmarshalRLPFrom (VArray pre) rs = (Ok tt, rs1)) /\
  ((forall ty, fst (newTxPayload ty) = None -> snd (newTxPayload ty) <> None) ->
   forall p txs1,
      Transactions_UnmarshalRLPFrom (VArray elems) txs = (Panic p, txs1) ->
      p = IndexOutOfRange (Z.of_nat n) n /\
      exists pre b ty payload,
        elems = pre ++ [VBytes [b]] /\ ToTransactionType b = (ty, None) /\
        newTxPayload ty = (Some payload, None) /\
        Transactions_UnmarshalRLPFrom (VArray pre) txs = (Ok tt, txs1)) /\
  (forall rs1, Receipts_UnmarshalRLPFrom (VArray elems) rs <> (OutOfRounds, rs1)) /\
  (forall txs1, Transactions_UnmarshalRLPFrom (VArray elems) txs <> (OutOfRounds, txs1)) /\
  (followed elems -> returns (Receipts_UnmarshalRLPFrom (VArray elems) rs)) /\
  (followed elems ->
   (forall ty, fst (newTxPayload ty) = None -> snd (newTxPayload ty) <> None) ->
   returns (Transactions_UnmarshalRLPFrom (VArray elems) txs)).
Proof.
  intros n. subst n.
  split; [|split; [|split; [|split; [|split; [|split; [|split]]]]]].
  - intros pre b ty rs1 -> Htag Hpre.
    rewrite Receipts_loop_scan in Hpre. rewrite Receipts_loop_scan.
    rewrite (Receipts_scan_app _ _ _ (length pre) pre rs rs1 ltac:(lia) Hpre).
    cbn [types.Receipts_scan isTypeBytes Value_Type].
    step (apply TransactionType_of_tag, Htag).
    reflexivity.
  - intros pre b ty payload txs1 -> Htag Hpayload Hpre.
    rewrite Transactions_loop_scan in Hpre. rewrite Transactions_loop_scan.
    rewrite (Transactions_scan_app _ _ _ (length pre) pre txs txs1 ltac:(lia) Hpre).
    cbn [types.Transactions_scan isTypeBytes Value_Type].
    step (apply TransactionType_of_tag, Htag).
    rewrite Hpayload. cbn [check].
    step reflexivity. reflexivity.
  - intros p rs1 H. rewrite Receipts_loop_scan in H.
    destruct (Receipts_scan_panic _ (length elems) elems rs _ _ ltac:(lia) H)
      as (Hp & pre & b & ty & Hel & Hb & Hpre).
    split; [exact Hp|]. exists pre, b, ty.
    split; [exact Hel|]. split; [exact Hb|].
    rewrite Receipts_loop_scan. apply Hpre.
  - intros Hnew p txs1 H. rewrite Transactions_loop_scan in H.
    destruct (Transactions_scan_panic _ (length elems) elems txs _ _ ltac:(lia) H)
      as [(Hp & pre & b & ty & payload & Hel & Hb & Hpay & Hpre)|(_ & ty & Hnil)].
    + split; [exact Hp|].
      destruct payload as [payload|].
      2:{ exfalso. apply (Hnew ty); rewrite Hpay; reflexivity. }
      exists pre, b, ty, payload.
      split; [exact Hel|]. split; [exact Hb|]. split; [exact Hpay|].
      rewrite Transactions_loop_scan. apply Hpre.
    + exfalso. apply (Hnew ty); rewrite Hnil; reflexivity.
  - intros rs1 H. rewrite Receipts_loop_scan in H.
    exact (Receipts_scan_panic _ (length elems) elems rs _ _ ltac:(lia) H).
  - intros txs1 H. rewrite Transactions_loop_scan in H.
    exact (Transactions_scan_panic _ (length elems) elems txs _ _ ltac:(lia) H).
  - intros Hf. rewrite Receipts_loop_scan.
    apply (Receipts_scan_returns _ (length elems)); [lia|exact Hf].
  - intros Hf Hnew. rewrite Transactions_loop_scan.
    apply (Transactions_scan_returns _ Hnew (length elems)); [lia|exact Hf].
Qed.

End StreamFacts.

(** The stream of the sample legacy transaction, the atom [0x02] and the
    sample typed transaction, decoded into an empty collection. *)
Lemma Transactions_legacy_then_typed_witness :
  types.Transactions_UnmarshalRLPFrom x00 types.sample_ToTransactionType
    types.sample_newTxPayload (fun a => a) (fun _ => [])
    (fastrlp.VArray [types.sample_legacy; fastrlp.VBytes [x02]; types.sample_typed]) []
  = (Go.Ok tt, [ types.Transaction.mk (types.PLegacy types.sample_legacy_decoded) [];
                 types.Transaction.mk (types.PState types.sample_typed_decoded) [] ]).
Proof.
  apply (proj1 (Transactions_legacy_then_typed x00 types.sample_ToTransactionType
                  types.sample_newTxPayload (fun a => a) (fun _ => [])
                  types.sample_legacy types.sample_typed
                  types.LegacyTransaction.zero types.sample_legacy_decoded
                  types.StateTransaction.zero types.sample_typed_decoded x02 []
                  ltac:(reflexivity) ltac:(reflexivity) ltac:(reflexivity)
                  ltac:(reflexivity) ltac:(vm_compute; reflexivity)
                  ltac:(vm_compute; reflexivity))).
Defined.

(** The stream made of the single atom [0x02], decoded into empty
    collections. *)
Lemma type_tag_without_payload_panics_witness :
  types.Transactions_UnmarshalRLPFrom x00 types.sample_ToTransactionType
    types.sample_newTxPayload (fun a => a) (fun _ => [])
    (fastrlp.VArray [fastrlp.VBytes [x02]]) []
  = (Go.Panic (Go.IndexOutOfRange 1 1), []) /\
  types.Receipts_UnmarshalRLPFrom x00 types.sample_ToTransactionType
    (fastrlp.VArray [fastrlp.VBytes [x02]]) []
  = (Go.Panic (Go.IndexOutOfRange 1 1), []).
Proof.
  destruct (type_tag_without_payload_panics x00 types.sample_ToTransactionType
              types.sample_newTxPayload (fun a => a) (fun _ => [])
              [fastrlp.VBytes [x02]] [] [])
    as (Hr & Ht & _).
  split.
  - apply (Ht [] x02 x02 (types.PState types.StateTransaction.zero) []); reflexivity.
  - apply (Hr [] x02 x02 []); reflexivity.
Defined.

(** C10 as stated fails: streams whose final element is a bytes atom and on
    which no element is accessed out of bounds.  The empty atom is not a
    type, whatever the table of the types; with [0x02] a known type and
    [0x05] none, the streams whose last atom is [0x05], or follows the type
    [0x02] as its payload, are rejected as well.  The decoders return an
    error on each, although the last atom is followed by no element. *)
Lemma final_bytes_atom_returns_an_error :
  let Transactions := types.Transactions_UnmarshalRLPFrom x00 types.sample_ToTransactionType
                        types.sample_newTxPayload (fun a => a) (fun _ => []) in
  let Receipts := types.Receipts_UnmarshalRLPFrom x00 types.sample_ToTransactionType in
  let empty_atom := [fastrlp.VBytes []] in
  let unknown_type := [fastrlp.VBytes [x05]] in
  let atom_payload := [fastrlp.VBytes [x02]; fastrlp.VBytes [x01]] in
  (Transactions (fastrlp.VArray empty_atom) []
     = (Go.Err (Go.Errorf "expected 1 byte transaction type, but size is 0"), []) /\
   Receipts (fastrlp.VArray empty_atom) []
     = (Go.Err (Go.Errorf "expected 1 byte transaction type, but size is 0"), [])) /\
  (Transactions (fastrlp.VArray unknown_type) []
     = (Go.Err (Go.Errorf "undefined transaction type"), []) /\
   Receipts (fastrlp.VArray unknown_type) []
     = (Go.Err (Go.Errorf "undefined transaction type"), [])) /\
  (Transactions (fastrlp.VArray atom_payload) [] = (Go.Err Go.errNoArray, []) /\
   Receipts (fastrlp.VArray atom_payload) [] = (Go.Err Go.errNoArray, [])) /\
  ~ types.followed empty_atom /\ ~ types.followed unknown_type /\
  ~ types.followed atom_payload.
Proof.
  cbv zeta.
  split; [split; vm_compute; reflexivity|].
  split; [split; vm_compute; reflexivity|].
  split; [split; vm_compute; reflexivity|].
  split; [|split].
  - intros H. specialize (H 0 [] eq_refl). cbn in H. lia.
  - intros H. specialize (H 0 [x05] eq_refl). cbn in H. lia.
  - intros H. specialize (H 1 [x01] eq_refl). cbn in H. lia.
Qed.

(* ===================================================================== *)
(** ** Further properties of the fork registry *)
(* ===================================================================== *)

Section SearchBounds.
Import Go.

Lemma search_loop_bounds (f : nat -> bool) :
  forall rounds i j,
    i <= j -> i <= search_loop rounds f i j /\ search_loop rounds f i j <= j.
Proof.
  induction rounds as [|rounds IH]; intros i j Hij; cbn [search_loop]; [lia|].
  destruct (Nat.ltb_spec i j) as [Hlt|Hge]; [|lia].
  assert (i <= (i + j) / 2 /\ (i + j) / 2 < j) as [H1 H2].
  { split; [apply Nat.div_le_lower_bound; lia
           |apply Nat.Div0.div_lt_upper_bound; lia]. }
  destruct (f ((i + j) / 2)); cbn [negb].
  - destruct (IH i ((i + j) / 2) H1). lia.
  - destruct (IH ((i + j) / 2 + 1) j ltac:(lia)). lia.
Qed.

(** [sort.Search(n, f)] answers an index between 0 and [n], whatever [f]. *)
Lemma Search_le (n : nat) (f : nat -> bool) : Search n f <= n.
Proof. unfold Search. apply search_loop_bounds. lia. Qed.

End SearchBounds.

Section ForkRegistryLookups.
Import Go forkmanager.
Context {any : Type} (nil_any : any).

Local Abbreviation forkManager := (@forkManager any).
Local Abbreviation RegisterHandler := (RegisterHandler nil_any).
Local Abbreviation exec := (exec nil_any).
Local Abbreviation run := (run nil_any).

Lemma RegisterFork_forkMap (fm : forkManager) name fromBlock :
  forkMap (RegisterFork fm name fromBlock) = <[name := mkFork name fromBlock]> (forkMap fm).
Proof. unfold RegisterFork. destruct (length (forks fm) =? 0); reflexivity. Qed.

Lemma RegisterFork_handlersMap (fm : forkManager) name fromBlock :
  handlersMap (RegisterFork fm name fromBlock) = handlersMap fm.
Proof. unfold RegisterFork. destruct (length (forks fm) =? 0); reflexivity. Qed.

(** What is registered is what is looked up: after [RegisterFork] the fork
    is supported, [GetForkBlock] returns the height just given and
    [IsForkEnabled] compares the query with it, whatever the registry held
    under that name before; the answers for every other name, and every
    answer of [GetHandler], are as before. *)
Theorem RegisterFork_then_lookup
    (fm : forkManager) (name other : ForkName) (fromBlock blockNumber : uint64)
    (handlerName : ForkHandlerName) :
  other <> name ->
  let fm' := RegisterFork fm name fromBlock in
  IsForkSupported fm' name = true /\
  GetForkBlock fm' name = (fromBlock, None) /\
  IsForkEnabled fm' name blockNumber = (fromBlock <=? blockNumber)%N /\
  IsForkSupported fm' other = IsForkSupported fm other /\
  GetForkBlock fm' other = GetForkBlock fm other /\
  IsForkEnabled fm' other blockNumber = IsForkEnabled fm other blockNumber /\
  GetHandler fm' handlerName blockNumber = GetHandler fm handlerName blockNumber.
Proof.
  intros Hne fm'. subst fm'.
  unfold IsForkSupported, GetForkBlock, IsForkEnabled, GetHandler.
  rewrite RegisterFork_forkMap, RegisterFork_handlersMap.
  rewrite lookup_insert_eq, lookup_insert_ne by auto.
  repeat split.
Qed.

(** *** Registrations only add *)

Lemma exec_forkMap_mono (fm : forkManager) (c : call) (name : ForkName) :
  is_Some (forkMap fm !! name) -> is_Some (forkMap (exec fm c) !! name).
Proof.
  intros H. destruct c as [n b|forkName handlerName handler]; cbn [forkmanager.exec].
  - rewrite RegisterFork_forkMap. rewrite lookup_insert. case_decide; [eauto|exact H].
  - unfold forkmanager.RegisterHandler.
    destruct (forkMap fm !! forkName); [|exact H].
    destruct (handlersMap fm !! handlerName); exact H.
Qed.

Lemma fold_exec_forkMap_mono (calls : list call) (fm : forkManager) (name : ForkName) :
  is_Some (forkMap fm !! name) -> is_Some (forkMap (fold_left exec calls fm) !! name).
Proof.
  revert fm. induction calls as [|c calls IH]; intros fm H; cbn [fold_left]; [exact H|].
  apply IH, exec_forkMap_mono, H.
Qed.

Lemma RegisterFork_forks_elem (fm : forkManager) name fromBlock (f : Fork) :
  f ∈ forks (RegisterFork fm name fromBlock) <->
  f = mkFork name fromBlock \/ f ∈ forks fm.
Proof.
  unfold RegisterFork.
  destruct (Nat.eqb_spec (length (forks fm)) 0) as [Hz|Hnz]; cbn [forks].
  - rewrite elem_of_app, list_elem_of_singleton. tauto.
  - set (index := Search _ _).
    assert (Hle : index <= length (forks fm)) by apply Search_le.
    rewrite insert_at_spec by exact Hle.
    rewrite elem_of_app, elem_of_cons.
    rewrite <- (take_drop index (forks fm)) at 3.
    rewrite elem_of_app. tauto.
Qed.

Lemma RegisterFork_forks_length (fm : forkManager) name fromBlock :
  length (forks (RegisterFork fm name fromBlock)) = S (length (forks fm)).
Proof.
  unfold RegisterFork.
  destruct (length (forks fm) =? 0); cbn [forks].
  - rewrite length_app. cbn. lia.
  - unfold insert_at, copy_within. rewrite length_insert.
    rewrite !length_app, !length_take, !length_drop, !length_app. cbn [length]. lia.
Qed.

Lemma exec_forks (fm : forkManager) (c : call) :
  registers_fork c = false -> forks (exec fm c) = forks fm /\ forkMap (exec fm c) = forkMap fm.
Proof.
  destruct c as [n b|forkName handlerName handler]; [discriminate|]. intros _.
  cbn [forkmanager.exec]. unfold forkmanager.RegisterHandler.
  destruct (forkMap fm !! forkName); [|split; reflexivity].
  destruct (handlersMap fm !! handlerName); split; reflexivity.
Qed.

Lemma exec_map_in_list (fm : forkManager) (c : call) :
  map_in_list fm -> map_in_list (exec fm c).
Proof.
  intros Hinv. destruct (registers_fork c) eqn:Hc.
  - destruct c as [n b|]; [|discriminate]. cbn [forkmanager.exec].
    intros name f. rewrite RegisterFork_forkMap, lookup_insert.
    rewrite RegisterFork_forks_elem. case_decide.
    + intros [= <-]. subst. split; [reflexivity|left; reflexivity].
    + intros H'. destruct (Hinv name f H'). split; [assumption|right; assumption].
  - destruct (exec_forks fm c Hc) as [Hf Hm].
    unfold map_in_list. rewrite Hf, Hm. exact Hinv.
Qed.

Lemma fold_exec_facts (calls : list call) (fm : forkManager) :
  map_in_list fm ->
  map_in_list (fold_left exec calls fm) /\
  length (forks (fold_left exec calls fm)) =
    length (forks fm) + length (filter (fun c => registers_fork c = true) calls) /\
  (forall f, f ∈ forks fm -> f ∈ forks (fold_left exec calls fm)).
Proof.
  revert fm. induction calls as [|c calls IH]; intros fm Hinv; cbn [fold_left].
  - split; [exact Hinv|]. split; [|auto].
    rewrite filter_nil. cbn [length]. lia.
  - destruct (IH (exec fm c) (exec_map_in_list fm c Hinv)) as (H1 & H2 & H3).
    split; [exact H1|]. rewrite H2.
    destruct (registers_fork c) eqn:Hc.
    + destruct c as [n b|]; [|discriminate]. cbn [forkmanager.exec] in *.
      rewrite RegisterFork_forks_length.
      rewrite filter_cons_True by reflexivity. cbn [length].
      split; [lia|]. intros f Hf. apply H3, RegisterFork_forks_elem. right. exact Hf.
    + destruct (exec_forks fm c Hc) as [Hf _]. rewrite Hf.
      rewrite filter_cons_False by (rewrite Hc; discriminate).
      split; [lia|]. intros f Hin. apply H3. rewrite Hf. exact Hin.
Qed.

(** Nothing is ever taken out of the registry.  In every state reached by
    a start-up sequence the base fork is supported and its genesis entry
    stands in the fork list; a fork that is supported stays supported
    whatever is registered afterwards; the fork list holds one entry per
    call of [RegisterFork] (a name registered twice has two entries),
    besides the genesis entry; and the fork the map files under a name
    carries that name and stands in the list. *)
Theorem registry_only_grows
    (calls more : list call) (name : ForkName) (f : Fork) :
  IsForkSupported (run calls) name = true ->
  forkMap (run calls) !! name = Some f ->
  IsForkSupported (run (calls ++ more)) name = true /\
  IsForkSupported (run (calls ++ more)) BaseFork = true /\
  mkFork BaseFork 0%N ∈ forks (run (calls ++ more)) /\
  length (forks (run calls)) =
    S (length (filter (fun c => registers_fork c = true) calls)) /\
  Name f = name /\ f ∈ forks (run calls) /\ f ∈ forks (run (calls ++ more)).
Proof.
  intros Hsup Hf.
  assert (Hinit : map_in_list (@newInstance any)).
  { intros n g. cbn [newInstance forkMap forks].
    intros H. apply lookup_singleton_Some in H as [<- <-].
    split; [reflexivity|]. apply list_elem_of_singleton. reflexivity. }
  assert (Hsupp : forall (fm : forkManager) n, IsForkSupported fm n = true <->
                                is_Some (forkMap fm !! n)).
  { intros fm n. unfold IsForkSupported.
    destruct (forkMap fm !! n); split; intros H; eauto; try discriminate.
    destruct H; discriminate. }
  unfold forkmanager.run in *. rewrite fold_left_app.
  destruct (fold_exec_facts calls newInstance Hinit) as (Hinv & Hlen & Hkeep).
  destruct (fold_exec_facts more _ Hinv) as (Hinv' & _ & Hkeep').
  destruct (Hinv name f Hf) as [Hname Hin].
  repeat split.
  - apply Hsupp, fold_exec_forkMap_mono, Hsupp, Hsup.
  - apply Hsupp. do 2 apply fold_exec_forkMap_mono.
    cbn [newInstance forkMap]. rewrite lookup_singleton_eq. eauto.
  - apply Hkeep', Hkeep. cbn [newInstance forks].
    apply list_elem_of_singleton. reflexivity.
  - rewrite Hlen. reflexivity.
  - exact Hname.
  - exact Hin.
  - apply Hkeep', Hin.
Qed.

End ForkRegistryLookups.

Section ForkRegistryHandlers.
Import Go forkmanager.
Context {any : Type} (nil_any : any).

Local Abbreviation forkManager := (@forkManager any).
Local Abbreviation RegisterHandler := (RegisterHandler nil_any).
Local Abbreviation exec := (exec nil_any).
Local Abbreviation run := (run nil_any).

(** The first handler of a capability.  Registered for a fork that
    activates at height [b], it is what [GetHandler] returns from [b] on;
    below [b] the index computed is [-1] and [GetHandler] panics. *)
Theorem first_handler_from_its_height
    (fm : forkManager) (forkName : ForkName) (handlerName : ForkHandlerName)
    (handler : any) (fork : Fork) (blockNumber : uint64) :
  forkMap fm !! forkName = Some fork ->
  handlersMap fm !! handlerName = None ->
  GetHandler (fst (RegisterHandler fm forkName handlerName handler))
             handlerName blockNumber =
    if (blockNumber <? FromBlockNumber fork)%N
    then Panics (IndexOutOfRange (-1) 1)
    else Returns handler.
Proof.
  intros Hfork Hnone.
  unfold forkmanager.RegisterHandler. rewrite Hfork, Hnone. cbn [fst].
  unfold GetHandler. cbn [handlersMap]. rewrite lookup_insert_eq.
  unfold Search. cbn [length search_loop Nat.ltb Nat.leb].
  change ((0 + 1) / 2) with 0.
  cbn [lookup list_lookup HFromBlockNumber].
  destruct (blockNumber <? FromBlockNumber fork)%N; reflexivity.
Qed.

(** In an ascending table the entry [GetHandler] answers with is the only
    one that is active with nothing active after it. *)
Lemma last_active_unique (handlers : list (@ForkHandler any)) (blockNumber : uint64)
    (i j : nat) (a b : ForkHandler) :
  handlers !! i = Some a -> handlers !! j = Some b ->
  (HFromBlockNumber a <= blockNumber)%N -> (HFromBlockNumber b <= blockNumber)%N ->
  (forall k e, i < k -> handlers !! k = Some e -> (blockNumber < HFromBlockNumber e)%N) ->
  (forall k e, j < k -> handlers !! k = Some e -> (blockNumber < HFromBlockNumber e)%N) ->
  i = j.
Proof.
  intros Ha Hb Hka Hkb Hafter_i Hafter_j.
  destruct (Nat.lt_trichotomy i j) as [H|[H|H]]; [|exact H|].
  - specialize (Hafter_i j b H Hb). lia.
  - specialize (Hafter_j i a H Ha). lia.
Qed.

Lemma lookup_middle {A} (before after : list A) (x : A) (k : nat) :
  (k < length before -> (before ++ x :: after) !! k = (before ++ after) !! k) /\
  (length before < k -> (before ++ x :: after) !! k = (before ++ after) !! (k - 1)).
Proof.
  split; intros H.
  - rewrite !lookup_app_l by lia. reflexivity.
  - rewrite !lookup_app_r by lia.
    replace (k - length before) with (S (k - 1 - length before)) by lia.
    reflexivity.
Qed.

(** A handler registered for a height at which the capability already has
    a handler is never answered: it is filed before the entries of its own
    height and [GetHandler] answers with the last active entry, so every
    answer of [GetHandler] is what it was before the registration. *)
Theorem same_height_handler_is_shadowed
    (calls : list call) (forkName : ForkName) (handlerName : ForkHandlerName)
    (handler : any) (fork : Fork) (handlers : list ForkHandler) (e : ForkHandler)
    (blockNumber : uint64) (answer : any) :
  forkMap (run calls) !! forkName = Some fork ->
  handlersMap (run calls) !! handlerName = Some handlers ->
  e ∈ handlers ->
  HFromBlockNumber e = FromBlockNumber fork ->
  GetHandler (fst (RegisterHandler (run calls) forkName handlerName handler))
             handlerName blockNumber = Returns answer
  <-> GetHandler (run calls) handlerName blockNumber = Returns answer.
Proof.
  intros Hfork Htable He Hheight.
  pose proof (proj2 (run_ascending nil_any calls) _ _ Htable) as Hasc.
  destruct (RegisterHandler_table nil_any (run calls) forkName handlerName handler fork
              handlers Hfork Htable Hasc)
    as (before & after & Hsplit & Hreg & Hbefore & Hafter & Hasc').
  set (x := mkForkHandler (FromBlockNumber fork) handler) in *.
  rewrite Hreg. cbn [fst].
  set (fm' := mkForkManager _ _ _).
  assert (Htable' : handlersMap fm' !! handlerName = Some (before ++ x :: after)).
  { subst fm'. cbn [handlersMap]. apply lookup_insert_eq. }
  (* the entry of the same height stands after the new one *)
  assert (He' : exists k, after !! k = Some e).
  { subst handlers. apply elem_of_app in He as [He|He].
    - pose proof (proj1 (Forall_forall _ _) Hbefore e He) as Hlt. cbv beta in Hlt. lia.
    - apply list_elem_of_lookup in He. exact He. }
  destruct He' as [ke Hke].
  destruct (decide (Exists (fun a => (HFromBlockNumber a <= blockNumber)%N) handlers))
    as [Hact|Hnone].
  - (* some entry is active: both calls answer, with the same entry *)
    apply Exists_exists in Hact as (a0 & Ha0 & Ha0k).
    destruct (GetHandler_ascending (run calls) handlerName blockNumber handlers
                Htable Hasc (ex_intro _ a0 (conj Ha0 Ha0k)))
      as (pos & a & Hpos & Hget & Hk & Hlater & _).
    assert (Ha0' : a0 ∈ before ++ x :: after).
    { subst handlers. rewrite elem_of_app in Ha0. rewrite elem_of_app, elem_of_cons. tauto. }
    destruct (GetHandler_ascending fm' handlerName blockNumber (before ++ x :: after)
                Htable' Hasc' (ex_intro _ a0 (conj Ha0' Ha0k)))
      as (pos' & a' & Hpos' & Hget' & Hk' & Hlater' & _).
    rewrite Hget, Hget'.
    assert (Haa : a' = a).
    { subst handlers.
      destruct (Nat.lt_trichotomy pos' (length before)) as [Hlt|[Heq|Hgt]].
      - (* the answer stands before the new entry *)
        rewrite (proj1 (lookup_middle before after x pos') Hlt) in Hpos'.
        assert (pos' = pos); [|congruence].
        apply (last_active_unique (before ++ after) blockNumber pos' pos a' a);
          auto.
        intros k c Hk1 Hc.
        destruct (Nat.lt_ge_cases k (length before)) as [Hkb|Hkb].
        + apply (Hlater' k c Hk1).
          rewrite (proj1 (lookup_middle before after x k) Hkb). exact Hc.
        + apply (Hlater' (S k) c ltac:(lia)).
          rewrite (proj2 (lookup_middle before after x (S k)) ltac:(lia)).
          replace (S k - 1) with k by lia. exact Hc.
      - (* the answer cannot be the new entry: the old one of the same
           height comes later and is active with it *)
        exfalso. subst pos'.
        rewrite lookup_app_r, Nat.sub_diag in Hpos' by lia.
        cbn in Hpos'. injection Hpos' as <-.
        specialize (Hlater' (length before + S ke) e ltac:(lia)).
        rewrite lookup_app_r in Hlater' by lia.
        replace (length before + S ke - length before) with (S ke) in Hlater' by lia.
        specialize (Hlater' Hke). subst x. cbn [HFromBlockNumber] in Hk'. lia.
      - (* the answer stands after the new entry *)
        rewrite (proj2 (lookup_middle before after x pos') Hgt) in Hpos'.
        assert (pos' - 1 = pos); [|congruence].
        apply (last_active_unique (before ++ after) blockNumber (pos' - 1) pos a' a);
          auto.
        intros k c Hk1 Hc.
        apply (Hlater' (S k) c ltac:(lia)).
        rewrite (proj2 (lookup_middle before after x (S k)) ltac:(lia)).
        replace (S k - 1) with k by lia. exact Hc. }
    rewrite Haa. reflexivity.
  - (* no entry is active: both calls panic *)
    apply not_Exists_Forall in Hnone; [|intros a; apply _].
    assert (Hall : Forall (fun a => (blockNumber < HFromBlockNumber a)%N) handlers).
    { eapply Forall_impl; [exact Hnone|]. intros a Ha. unfold compose in Ha. cbv beta in Ha. lia. }
    assert (Hall' : Forall (fun a => (blockNumber < HFromBlockNumber a)%N)
                           (before ++ x :: after)).
    { subst handlers. apply Forall_app in Hall as [Hb Ha].
      apply Forall_app. split; [exact Hb|]. constructor; [|exact Ha].
      pose proof (proj1 (Forall_lookup _ _) Ha ke e Hke) as Hlt.
      cbv beta in Hlt. subst x. cbn [HFromBlockNumber]. lia. }
    rewrite (GetHandler_below_first (run calls) handlerName blockNumber handlers Htable Hall).
    rewrite (GetHandler_below_first fm' handlerName blockNumber _ Htable' Hall').
    split; discriminate.
Qed.

(** *** A handler of height zero *)

Lemma exec_table_grows (fm : forkManager) (c : call) (name : ForkHandlerName)
    (handlers : list ForkHandler) :
  tables_ascending fm ->
  handlersMap fm !! name = Some handlers ->
  exists handlers', handlersMap (exec fm c) !! name = Some handlers' /\
                    forall e, e ∈ handlers -> e ∈ handlers'.
Proof.
  intros Hinv Htable.
  destruct c as [n b|forkName handlerName handler]; cbn [forkmanager.exec].
  - rewrite RegisterFork_handlersMap. eauto.
  - destruct (forkMap fm !! forkName) as [fork|] eqn:Hfork.
    2:{ unfold forkmanager.RegisterHandler. rewrite Hfork. cbn [fst]. eauto. }
    destruct (decide (handlerName = name)) as [->|Hne].
    + destruct (RegisterHandler_table nil_any fm forkName name handler fork handlers
                  Hfork Htable (proj2 Hinv _ _ Htable))
        as (before & after & -> & -> & _).
      cbn [fst handlersMap]. rewrite lookup_insert_eq.
      eexists. split; [reflexivity|].
      intros e. rewrite !elem_of_app, elem_of_cons. tauto.
    + unfold forkmanager.RegisterHandler. rewrite Hfork.
      destruct (handlersMap fm !! handlerName); cbn [fst handlersMap];
        rewrite lookup_insert_ne by exact Hne; eauto.
Qed.

Lemma fold_exec_table_grows (calls : list call) (fm : forkManager)
    (name : ForkHandlerName) (handlers : list ForkHandler) :
  tables_ascending fm ->
  handlersMap fm !! name = Some handlers ->
  exists handlers', handlersMap (fold_left exec calls fm) !! name = Some handlers' /\
                    forall e, e ∈ handlers -> e ∈ handlers'.
Proof.
  revert fm handlers. induction calls as [|c calls IH]; intros fm handlers Hinv Htable;
    cbn [fold_left]; [eauto|].
  destruct (exec_table_grows fm c name handlers Hinv Htable) as (h1 & Hh1 & Hsub1).
  destruct (IH (exec fm c) h1 (exec_ascending nil_any fm c Hinv) Hh1) as (h2 & Hh2 & Hsub2).
  exists h2. split; [exact Hh2|]. auto.
Qed.

(** Once a capability has a handler of activation height zero,
    [GetHandler] answers at every height, and no later registration, of a
    fork or of a handler, can bring the panic back. *)
Theorem zero_height_handler_makes_GetHandler_total
    (calls more : list call) (handlerName : ForkHandlerName)
    (handlers : list ForkHandler) (e : ForkHandler) (blockNumber : uint64) :
  handlersMap (run calls) !! handlerName = Some handlers ->
  e ∈ handlers ->
  HFromBlockNumber e = 0%N ->
  exists answer, GetHandler (run (calls ++ more)) handlerName blockNumber = Returns answer.
Proof.
  intros Htable He Hzero.
  unfold forkmanager.run in *. rewrite fold_left_app.
  destruct (fold_exec_table_grows more _ handlerName handlers
              (run_ascending nil_any calls) Htable) as (handlers' & Htable' & Hsub).
  pose proof (fold_exec_ascending nil_any more _ (run_ascending nil_any calls)) as Hinv.
  destruct (GetHandler_ascending _ handlerName blockNumber handlers' Htable'
              (proj2 Hinv _ _ Htable')) as (pos & a & _ & Hget & _).
  { exists e. split; [apply Hsub, He|]. rewrite Hzero. lia. }
  exists (Handler a). exact Hget.
Qed.

End ForkRegistryHandlers.

(** The fresh registry, the fork "london" registered at height 10 and
    queried at height 12, the base fork as the other name. *)
Lemma RegisterFork_then_lookup_witness :
  let fm' := forkmanager.RegisterFork (@forkmanager.newInstance string) "london" 10%N in
  forkmanager.IsForkSupported fm' "london" = true /\
  forkmanager.GetForkBlock fm' "london" = (10%N, None) /\
  forkmanager.IsForkEnabled fm' "london" 12%N = true /\
  forkmanager.IsForkEnabled fm' "basev1" 12%N = true.
Proof.
  cbv zeta.
  destruct (RegisterFork_then_lookup (@forkmanager.newInstance string)
              "london" "basev1" 10%N 12%N "extra")
    as (H1 & H2 & H3 & _ & _ & H6 & _).
  - discriminate.
  - split; [exact H1|]. split; [exact H2|]. split; [exact H3|].
    rewrite H6. reflexivity.
Defined.

(** The fork-ordering scenario, followed by one more fork registration. *)
Lemma registry_only_grows_witness :
  let calls := forkmanager.scenario "extra" "base" "h100" "h50" "h200" in
  let more := [ forkmanager.CallRegisterFork (any := string) "berlin" 50%N ] in
  forkmanager.IsForkSupported (forkmanager.run "nil" (calls ++ more)) "fork50" = true /\
  length (forkmanager.forks (forkmanager.run "nil" calls)) = 4 /\
  forkmanager.mkFork "fork50" 50%N ∈ forkmanager.forks (forkmanager.run "nil" (calls ++ more)).
Proof.
  cbv zeta.
  destruct (registry_only_grows "nil"
              (forkmanager.scenario "extra" "base" "h100" "h50" "h200")
              [ forkmanager.CallRegisterFork (any := string) "berlin" 50%N ]
              "fork50" (forkmanager.mkFork "fork50" 50%N))
    as (H1 & _ & _ & H4 & _ & _ & H7).
  - vm_compute. reflexivity.
  - vm_compute. reflexivity.
  - split; [exact H1|]. split; [exact H4 | exact H7].
Defined.

(** The capability "extra" gets its first handler, for the fork "london" of
    height 10, and is queried at heights 9 and 10. *)
Lemma first_handler_from_its_height_witness :
  let fm := forkmanager.RegisterFork (@forkmanager.newInstance string) "london" 10%N in
  let fm' := fst (forkmanager.RegisterHandler "nil" fm "london" "extra" "h10") in
  forkmanager.GetHandler fm' "extra" 9%N = Go.Panics (Go.IndexOutOfRange (-1) 1) /\
  forkmanager.GetHandler fm' "extra" 10%N = Go.Returns "h10".
Proof.
  cbv zeta. split.
  - apply (first_handler_from_its_height "nil"
             (forkmanager.RegisterFork (@forkmanager.newInstance string) "london" 10%N)
             "london" "extra" "h10" (forkmanager.mkFork "london" 10%N) 9%N);
      vm_compute; reflexivity.
  - apply (first_handler_from_its_height "nil"
             (forkmanager.RegisterFork (@forkmanager.newInstance string) "london" 10%N)
             "london" "extra" "h10" (forkmanager.mkFork "london" 10%N) 10%N);
      vm_compute; reflexivity.
Defined.

(** After the fork-ordering scenario a second handler is registered for the
    fork of height 50; at height 75 the answer is still the first one. *)
Lemma same_height_handler_is_shadowed_witness :
  let fm := forkmanager.run "nil" (forkmanager.scenario "extra" "base" "h100" "h50" "h200") in
  forkmanager.GetHandler (fst (forkmanager.RegisterHandler "nil" fm "fork50" "extra" "h50bis"))
                         "extra" 75%N = Go.Returns "h50".
Proof.
  cbv zeta.
  apply (same_height_handler_is_shadowed "nil"
           (forkmanager.scenario "extra" "base" "h100" "h50" "h200")
           "fork50" "extra" "h50bis" (forkmanager.mkFork "fork50" 50%N)
           [ forkmanager.mkForkHandler 0%N "base"; forkmanager.mkForkHandler 50%N "h50";
             forkmanager.mkForkHandler 100%N "h100"; forkmanager.mkForkHandler 200%N "h200" ]
           (forkmanager.mkForkHandler 50%N "h50") 75%N "h50").
  - vm_compute. reflexivity.
  - vm_compute. reflexivity.
  - apply list_elem_of_lookup. exists 1. reflexivity.
  - reflexivity.
  - vm_compute. reflexivity.
Defined.

(** The fork-ordering scenario has a handler of the base fork; a fork and a
    handler registered afterwards leave height 3 answered. *)
Lemma zero_height_handler_makes_GetHandler_total_witness :
  let calls := forkmanager.scenario "extra" "base" "h100" "h50" "h200" in
  let more := [ forkmanager.CallRegisterFork "berlin" 5%N;
                forkmanager.CallRegisterHandler "berlin" "extra" "h5" ] in
  exists answer,
    forkmanager.GetHandler (forkmanager.run "nil" (calls ++ more)) "extra" 3%N =
      Go.Returns answer.
Proof.
  cbv zeta.
  apply (zero_height_handler_makes_GetHandler_total "nil"
           (forkmanager.scenario "extra" "base" "h100" "h50" "h200")
           [ forkmanager.CallRegisterFork "berlin" 5%N;
             forkmanager.CallRegisterHandler "berlin" "extra" "h5" ]
           "extra"
           [ forkmanager.mkForkHandler 0%N "base"; forkmanager.mkForkHandler 50%N "h50";
             forkmanager.mkForkHandler 100%N "h100"; forkmanager.mkForkHandler 200%N "h200" ]
           (forkmanager.mkForkHandler 0%N "base") 3%N).
  - vm_compute. reflexivity.
  - apply list_elem_of_lookup. exists 0. reflexivity.
  - reflexivity.
Defined.

(* ===================================================================== *)
(** ** The header-extra handlers together *)
(* ===================================================================== *)

Section ExtraHandlersTogether.
Import Go polybft.
Context {Signature ValidatorSetDelta CheckpointData Logger : Type}
        (emptySignature : Signature).

Local Abbreviation Extra := (@Extra Signature ValidatorSetDelta CheckpointData Logger).
Local Abbreviation london_clean :=
  (ExtraHandlerAdditionalLondon_GetIbftExtraClean emptySignature).
Local Abbreviation nikaragva_clean :=
  (ExtraHandlerAdditionalNikaragva_GetIbftExtraClean emptySignature).

(** Cleaning twice is cleaning once, for either handler, and the london
    cleaning absorbs the nikaragva one on either side. *)
Theorem GetIbftExtraClean_idempotent (extra : Extra) :
  london_clean (london_clean extra) = london_clean extra /\
  nikaragva_clean (nikaragva_clean extra) = nikaragva_clean extra /\
  london_clean (nikaragva_clean extra) = london_clean extra /\
  nikaragva_clean (london_clean extra) = london_clean extra.
Proof. repeat split. Qed.

(** A handler validates the extra it has cleaned as it validates the
    original.  An extra cleaned by the london handler never passes the
    nikaragva validation: [Dummy2] is gone, so the call returns the
    [dummy1] error of the original or else the [dummy2] error. *)
Theorem ValidateAdditional_after_clean
    (extra : Extra) (header : types.Header.t) (logger : option Logger) :
  ExtraHandlerLondon_ValidateAdditional (london_clean extra) header logger =
    ExtraHandlerLondon_ValidateAdditional extra header logger /\
  ExtraHandlerNikaragva_ValidateAdditional (nikaragva_clean extra) header logger =
    ExtraHandlerNikaragva_ValidateAdditional extra header logger /\
  ExtraHandlerLondon_ValidateAdditional (nikaragva_clean extra) header logger =
    ExtraHandlerLondon_ValidateAdditional extra header logger /\
  (forall l : Logger,
      ExtraHandlerNikaragva_ValidateAdditional (london_clean extra) header (Some l) =
        Returns (["ValidateAdditional Nikaragva style"],
                 Some (Errorf ((if String.eqb (Dummy1 extra) EmptyString
                                then "dummy1 is empty for block "
                                else "dummy2 is empty for block ")
                               +:+ fmt_d_N (types.Header.Number header))))).
Proof.
  repeat split. intros l.
  unfold ExtraHandlerNikaragva_ValidateAdditional,
    ExtraHandlerAdditionalLondon_GetIbftExtraClean.
  cbn [Dummy1 Dummy2].
  destruct (String.eqb (Dummy1 extra) EmptyString); reflexivity.
Qed.

(** The two validations side by side.  Without a logger both panic,
    whatever the extra holds.  With one, whenever the london validation
    returns an error the nikaragva validation returns the same error, and
    an extra the nikaragva validation accepts is accepted by the london
    one; each writes its one line before it decides. *)
Theorem ValidateAdditional_london_weaker
    (extra : Extra) (header : types.Header.t) (logger : Logger) :
  ExtraHandlerLondon_ValidateAdditional extra header None = Panics NilDereference /\
  ExtraHandlerNikaragva_ValidateAdditional extra header None = Panics NilDereference /\
  (forall err,
      returned_error (ExtraHandlerLondon_ValidateAdditional extra header (Some logger))
        = Some err ->
      returned_error (ExtraHandlerNikaragva_ValidateAdditional extra header (Some logger))
        = Some err) /\
  (returned_error (ExtraHandlerNikaragva_ValidateAdditional extra header (Some logger))
     = None ->
   returned_error (ExtraHandlerLondon_ValidateAdditional extra header (Some logger))
     = None) /\
  (exists err, ExtraHandlerLondon_ValidateAdditional extra header (Some logger) =
                 Returns (["ValidateAdditional London style"], err)) /\
  (exists err, ExtraHandlerNikaragva_ValidateAdditional extra header (Some logger) =
                 Returns (["ValidateAdditional Nikaragva style"], err)).
Proof.
  unfold ExtraHandlerLondon_ValidateAdditional, ExtraHandlerNikaragva_ValidateAdditional.
  destruct (String.eqb (Dummy1 extra) EmptyString);
    destruct (String.eqb (Dummy2 extra) EmptyString);
    cbn [returned_error];
    (split; [reflexivity|]); (split; [reflexivity|]);
    (split; [intros err H; first [exact H | discriminate]|]);
    (split; [intros H; first [reflexivity | discriminate]|]);
    split; eexists; reflexivity.
Qed.

End ExtraHandlersTogether.

(* ===================================================================== *)
(** ** What a decoder that came back has read *)
(* ===================================================================== *)

Section InversionFacts.
Import Go fastrlp types.

Lemma bind_ok_inv {R A B} (m : M R A) (k : A -> M R B) (r r2 : R) (b : B) :
  (m ≫= k) r = (Ok b, r2) -> exists a r1, m r = (Ok a, r1) /\ k a r1 = (Ok b, r2).
Proof.
  unfold mbind, M_bind, bind.
  destruct (m r) as [[a|e|p|] r1]; try discriminate. eauto.
Qed.

Lemma bind_err {R A B} (m : M R A) (k : A -> M R B) (r r1 : R) (e : error) :
  m r = (Err e, r1) -> (m ≫= k) r = (Err e, r1).
Proof. intros H. unfold mbind, M_bind, bind. rewrite H. reflexivity. Qed.

Lemma check_ok_inv {R} (err : option error) (r r' : R) (a : unit) :
  check err r = (Ok a, r') -> err = None /\ r' = r.
Proof. destruct err; [discriminate|]. intros [= _ <-]. auto. Qed.

Lemma be_value_bound (b : list byte) : (be_value b < 256 ^ N.of_nat (length b))%N.
Proof.
  induction b as [|x b IH] using rev_ind; [cbn; lia|].
  rewrite be_value_snoc, length_app. cbn [length].
  rewrite Nat.add_1_r, Nat2N.inj_succ, N.pow_succ_r'.
  pose proof (Byte.to_N_bounded x). lia.
Qed.

Lemma be_value_uint64 (b : list byte) : length b <= 8 -> (be_value b < 2 ^ 64)%N.
Proof.
  intros H. pose proof (be_value_bound b) as Hb.
  eapply N.lt_le_trans; [exact Hb|].
  change (2 ^ 64)%N with (256 ^ 8)%N.
  apply N.pow_le_mono_r; lia.
Qed.

Lemma GetUint64_atom (b : list byte) :
  length b <= 8 -> GetUint64 (VBytes b) = (be_value b, None).
Proof.
  intros H. unfold GetUint64.
  destruct (Nat.ltb_spec 8 (length b)) as [H'|_]; [lia|].
  unfold Uint64. rewrite be_value_zeros. reflexivity.
Qed.

Lemma GetUint64_ok_inv (e : Value) (x : N) :
  GetUint64 e = (x, None) -> exists b, e = VBytes b /\ length b <= 8 /\ x = be_value b.
Proof.
  destruct e as [b|l]; [|discriminate]. unfold GetUint64.
  destruct (Nat.ltb_spec 8 (length b)) as [H|H]; [discriminate|].
  intros [= <-]. exists b. repeat split; [lia|].
  unfold Uint64. apply be_value_zeros.
Qed.

Lemma GetBytes_width_inv (e : Value) (dst : slice) (n : nat) s a :
  cap dst = n ->
  GetBytes e dst (Some n) = (s, a, None) ->
  exists b, e = VBytes b /\ length b = n /\ a = b.
Proof.
  intros Hcap. destruct e as [b|l]; [|discriminate]. unfold GetBytes.
  destruct (Nat.eqb_spec (length b) n) as [Hb|Hb]; [|discriminate]. cbn [negb].
  unfold append_reset. rewrite Hb, Hcap, Nat.leb_refl.
  intros [= _ <-]. exists b. repeat split; [exact Hb|].
  unfold cap in Hcap. rewrite drop_ge by lia. apply app_nil_r.
Qed.

Section Steps.
Context {R : Type} (field : R -> list byte) (set : list byte -> R -> R).

Lemma read_hash_inv (e : Value) (w : list byte -> slice) (r r' : R) (a : unit) :
  cap (w (field r)) = 32 ->
  read_hash e w field set r = (Ok a, r') ->
  exists b, e = VBytes b /\ length b = 32 /\ r' = set b r.
Proof.
  intros Hcap. unfold read_hash, GetHash.
  erewrite step_ok by reflexivity. cbv beta.
  destruct (GetBytes e (w (field r)) (Some 32)) as [[s x] err] eqn:Hget.
  intros H. apply bind_ok_inv in H as ([] & r1 & [= <-] & H).
  apply check_ok_inv in H as [-> ->].
  destruct (GetBytes_width_inv _ _ _ _ _ Hcap Hget) as (b & -> & Hb & ->). eauto.
Qed.

Lemma read_addr_inv (e : Value) (w : list byte -> slice) (r r' : R) (a : unit) :
  cap (w (field r)) = 20 ->
  read_addr e w field set r = (Ok a, r') ->
  exists b, e = VBytes b /\ length b = 20 /\ r' = set b r.
Proof.
  intros Hcap. unfold read_addr, GetAddr.
  erewrite step_ok by reflexivity. cbv beta.
  destruct (GetBytes e (w (field r)) (Some 20)) as [[s x] err] eqn:Hget.
  intros H. apply bind_ok_inv in H as ([] & r1 & [= <-] & H).
  apply check_ok_inv in H as [-> ->].
  destruct (GetBytes_width_inv _ _ _ _ _ Hcap Hget) as (b & -> & Hb & ->). eauto.
Qed.

Lemma read_fixed_inv (e : Value) (n : nat) (r r' : R) (a : unit) :
  length (field r) = n ->
  read_fixed e n field set r = (Ok a, r') ->
  exists b, e = VBytes b /\ length b = n /\ r' = set b r.
Proof.
  intros Hcap. unfold read_fixed.
  erewrite step_ok by reflexivity. cbv beta.
  destruct (GetBytes e (slice_to0 (field r)) (Some n)) as [[s x] err] eqn:Hget.
  intros H. apply bind_ok_inv in H as ([] & r1 & [= <-] & H).
  apply check_ok_inv in H as [-> ->].
  destruct (GetBytes_width_inv _ (slice_to0 (field r)) _ _ _ Hcap Hget)
    as (b & -> & Hb & ->).
  eauto.
Qed.

Lemma read_bytes_inv (e : Value) (r r' : R) (a : unit) :
  read_bytes e field set r = (Ok a, r') ->
  exists b, e = VBytes b /\ r' = set b r.
Proof.
  unfold read_bytes.
  erewrite step_ok by reflexivity. cbv beta.
  destruct e as [b|l].
  - destruct (GetBytes_any b (slice_to0 (field r))) as (s & x & -> & Hs).
    intros H. apply bind_ok_inv in H as ([] & r1 & [= <-] & H).
    apply check_ok_inv in H as [_ ->]. rewrite Hs. eauto.
  - cbn [GetBytes]. intros H. apply bind_ok_inv in H as ([] & r1 & _ & H).
    discriminate.
Qed.
End Steps.

Lemma read_uint64_inv {R} (e : Value) (set : N -> R -> R) (r r' : R) (a : unit) :
  read_uint64 e set r = (Ok a, r') ->
  exists b, e = VBytes b /\ length b <= 8 /\ r' = set (be_value b) r.
Proof.
  unfold read_uint64. destruct (GetUint64 e) as [x err] eqn:Hget.
  intros H. apply bind_ok_inv in H as ([] & r1 & [= <-] & H).
  apply check_ok_inv in H as [-> ->].
  apply GetUint64_ok_inv in Hget as (b & -> & Hb & ->). eauto.
Qed.

Lemma read_uint64_atom {R} (b : list byte) (set : N -> R -> R) (r : R) :
  length b <= 8 -> read_uint64 (VBytes b) set r = (Ok tt, set (be_value b) r).
Proof. intros H. unfold read_uint64. rewrite (GetUint64_atom b H). reflexivity. Qed.

Lemma read_bigint_inv {R} (e : Value) (set : option N -> R -> R) (r r' : R) (a : unit) :
  read_bigint e set r = (Ok a, r') ->
  exists b, e = VBytes b /\ r' = set (Some (be_value b)) (set (Some 0%N) r).
Proof.
  unfold read_bigint. intros H.
  apply bind_ok_inv in H as ([] & r1 & [= <-] & H).
  destruct e as [b|l]; cbn [GetBigInt] in H.
  - apply bind_ok_inv in H as ([] & r2 & [= <-] & H).
    apply check_ok_inv in H as [_ ->]. eauto.
  - apply bind_ok_inv in H as ([] & r2 & _ & H). discriminate.
Qed.

Lemma read_bigint_atom {R} (b : list byte) (set : option N -> R -> R) (r : R) :
  read_bigint (VBytes b) set r = (Ok tt, set (Some (be_value b)) (set (Some 0%N) r)).
Proof. reflexivity. Qed.

End InversionFacts.

(** One statement of a method body that is known to have returned
    normally: the statement [lem] inverts and what is left of the body. *)
Tactic Notation "ran" hyp(H) "index" :=
  erewrite step_ok in H by reflexivity; cbv beta in H.

(* ===================================================================== *)
(** ** The header decoder on any input *)
(* ===================================================================== *)

Section HeaderDecoder.
Import Go fastrlp types.
Context (WriteRlp : Value -> list byte).

Lemma Header_returns (v : Value) (h : Header.t) :
  returns (Header_UnmarshalRLPFrom WriteRlp v h).
Proof.
  unfold Header_UnmarshalRLPFrom.
  destruct v as [b|elems]; [exact I|]. cbn [GetElems].
  returns_step. cbv zeta.
  destruct (Nat.eqb_spec (length elems) 15) as [H|H]; [|exact I]. cbn [negb].
  destruct elems as [|e0 [|e1 [|e2 [|e3 [|e4 [|e5 [|e6 [|e7 [|e8 [|e9 [|e10 [|e11
                    [|e12 [|e13 [|e14 [|e15 elems]]]]]]]]]]]]]]]]; try discriminate.
  do 28 returns_step.
  apply returns_bind; [exact I|]. intros e r0 _.
  destruct (GetUint64 e) as [nonce [err|]]; exact I.
Qed.

Local Abbreviation decoded_header := (decoded_header WriteRlp).

Lemma Header_decode_shape (v : Value) (h h' : Header.t) :
  wf_Header h ->
  Header_UnmarshalRLPFrom WriteRlp v h = (Ok tt, h') ->
  exists parent uncles miner state tx receipts bloom
         difficulty number gasLimit gasUsed timestamp extra mix nonce,
    header_atoms v parent uncles miner state tx receipts bloom
      difficulty number gasLimit gasUsed timestamp extra mix nonce /\
    h' = decoded_header h parent uncles miner state tx receipts bloom
           difficulty number gasLimit gasUsed timestamp extra mix nonce.
Proof.
  intros (Q1 & Q2 & Q3 & Q4 & Q5 & Q6 & Q7 & Q8 & Q9 & Q10) H.
  unfold Header_UnmarshalRLPFrom in H.
  destruct v as [b|elems]; [discriminate|]. cbn [GetElems] in H.
  ran H index. cbv zeta in H.
  destruct (Nat.eqb_spec (length elems) 15) as [Hn|Hn]; [|discriminate]. cbn [negb] in H.
  destruct elems as [|e0 [|e1 [|e2 [|e3 [|e4 [|e5 [|e6 [|e7 [|e8 [|e9 [|e10 [|e11
                    [|e12 [|e13 [|e14 [|e15 elems]]]]]]]]]]]]]]]]; try discriminate.
  clear Hn.
  ran H index. apply bind_ok_inv in H as ([] & r0 & Hs & H).
  apply read_hash_inv in Hs as (parent & -> & L0 & ->); [|exact Q1].
  ran H index. apply bind_ok_inv in H as ([] & r1 & Hs & H).
  apply read_hash_inv in Hs as (uncles & -> & L1 & ->); [|exact Q2].
  ran H index. apply bind_ok_inv in H as ([] & r2 & Hs & H).
  apply read_addr_inv in Hs as (miner & -> & L2 & ->); [|exact Q3].
  ran H index. apply bind_ok_inv in H as ([] & r3 & Hs & H).
  apply read_hash_inv in Hs as (state & -> & L3 & ->); [|exact Q4].
  ran H index. apply bind_ok_inv in H as ([] & r4 & Hs & H).
  apply read_hash_inv in Hs as (tx & -> & L4 & ->); [|exact Q5].
  ran H index. apply bind_ok_inv in H as ([] & r5 & Hs & H).
  apply read_hash_inv in Hs as (receipts & -> & L5 & ->); [|exact Q6].
  ran H index. apply bind_ok_inv in H as ([] & r6 & Hs & H).
  apply read_fixed_inv in Hs as (bloom & -> & L6 & ->); [|exact Q7].
  ran H index. apply bind_ok_inv in H as ([] & r7 & Hs & H).
  apply read_uint64_inv in Hs as (difficulty & -> & L7 & ->).
  ran H index. apply bind_ok_inv in H as ([] & r8 & Hs & H).
  apply read_uint64_inv in Hs as (number & -> & L8 & ->).
  ran H index. apply bind_ok_inv in H as ([] & r9 & Hs & H).
  apply read_uint64_inv in Hs as (gasLimit & -> & L9 & ->).
  ran H index. apply bind_ok_inv in H as ([] & r10 & Hs & H).
  apply read_uint64_inv in Hs as (gasUsed & -> & L10 & ->).
  ran H index. apply bind_ok_inv in H as ([] & r11 & Hs & H).
  apply read_uint64_inv in Hs as (timestamp & -> & L11 & ->).
  ran H index. apply bind_ok_inv in H as ([] & r12 & Hs & H).
  apply read_bytes_inv in Hs as (extra & -> & ->).
  ran H index. apply bind_ok_inv in H as ([] & r13 & Hs & H).
  apply read_hash_inv in Hs as (mix & -> & L13 & ->); [|exact Q8].
  ran H index.
  destruct (GetUint64 e14) as [x err] eqn:Hnonce.
  apply bind_ok_inv in H as ([] & r14 & Hs & H).
  apply check_ok_inv in Hs as [-> ->].
  apply GetUint64_ok_inv in Hnonce as (nonce & -> & L14 & ->).
  injection H as <-.
  exists parent, uncles, miner, state, tx, receipts, bloom,
         difficulty, number, gasLimit, gasUsed, timestamp, extra, mix, nonce.
  split; [repeat split; assumption|].
  destruct h. reflexivity.
Qed.

Lemma Header_decode_atoms (v : Value) (h : Header.t)
    parent uncles miner state tx receipts bloom
    difficulty number gasLimit gasUsed timestamp extra mix nonce :
  wf_Header h ->
  header_atoms v parent uncles miner state tx receipts bloom
    difficulty number gasLimit gasUsed timestamp extra mix nonce ->
  Header_UnmarshalRLPFrom WriteRlp v h =
    (Ok tt, decoded_header h parent uncles miner state tx receipts bloom
              difficulty number gasLimit gasUsed timestamp extra mix nonce).
Proof.
  intros (Q1 & Q2 & Q3 & Q4 & Q5 & Q6 & Q7 & Q8 & Q9 & Q10)
         (-> & L0 & L1 & L2 & L3 & L4 & L5 & L6 & L7 & L8 & L9 & L10 & L11 & L13 & L14).
  unfold Header_UnmarshalRLPFrom.
  cbn [GetElems length Nat.eqb negb check].
  step reflexivity.
  step reflexivity. step (apply read_hash_all; assumption).
  step reflexivity. step (apply read_hash_all; assumption).
  step reflexivity. step (apply read_addr_all; assumption).
  step reflexivity. step (apply read_hash_all; assumption).
  step reflexivity. step (apply read_hash_all; assumption).
  step reflexivity. step (apply read_hash_all; assumption).
  step reflexivity. step (apply read_fixed_ok; assumption).
  step reflexivity. step (apply read_uint64_atom; assumption).
  step reflexivity. step (apply read_uint64_atom; assumption).
  step reflexivity. step (apply read_uint64_atom; assumption).
  step reflexivity. step (apply read_uint64_atom; assumption).
  step reflexivity. step (apply read_uint64_atom; assumption).
  step reflexivity. step (apply read_bytes_ok).
  step reflexivity. step (apply read_hash_to0; assumption).
  step reflexivity.
  rewrite (GetUint64_atom _ L14).
  cbn [check]. step reflexivity. step reflexivity. step reflexivity.
  destruct h. reflexivity.
Qed.

(** [Header.UnmarshalRLPFrom] accepts exactly the lists of fifteen atoms
    whose hashes are 32 bytes wide, whose miner is 20 bytes wide, whose
    bloom filter is 256 bytes wide and whose six numbers are at most eight
    bytes wide.  The header it leaves has the atoms as its fields, the
    nonce padded to eight bytes, and the hash of its own encoding as its
    cached hash. *)
Theorem Header_decode_success_iff (v : Value) (h h' : Header.t) :
  wf_Header h ->
  (Header_UnmarshalRLPFrom WriteRlp v h = (Ok tt, h') <->
   exists parent uncles miner state tx receipts bloom
          difficulty number gasLimit gasUsed timestamp extra mix nonce,
     header_atoms v parent uncles miner state tx receipts bloom
       difficulty number gasLimit gasUsed timestamp extra mix nonce /\
     h' = decoded_header h parent uncles miner state tx receipts bloom
            difficulty number gasLimit gasUsed timestamp extra mix nonce).
Proof.
  intros Hwf. split.
  - apply Header_decode_shape, Hwf.
  - intros (parent & uncles & miner & state & tx & receipts & bloom &
            difficulty & number & gasLimit & gasUsed & timestamp & extra & mix & nonce &
            Hatoms & ->).
    apply Header_decode_atoms; assumption.
Qed.

(** A header that was decoded, from whatever input, is encoded to a list
    that decodes to the same header, cached hash included: the decoder
    normalises its input, and encoding is a right inverse of it on every
    header it can produce. *)
Theorem Header_decoded_reencodes (v : Value) (h h0 h' : Header.t) :
  (forall x, length (WriteRlp x) = 32) ->
  wf_Header h -> wf_Header h0 ->
  Header_UnmarshalRLPFrom WriteRlp v h = (Ok tt, h') ->
  wf_Header h' /\ uint64_Header h' /\
  Header.Hash h' = WriteRlp (Header_MarshalRLPWith h') /\
  Header_UnmarshalRLPFrom WriteRlp (Header_MarshalRLPWith h') h0 = (Ok tt, h').
Proof.
  intros Hdigest Hwf Hwf0 H.
  destruct (Header_decode_shape v h h' Hwf H)
    as (parent & uncles & miner & state & tx & receipts & bloom &
        difficulty & number & gasLimit & gasUsed & timestamp & extra & mix & nonce &
        (_ & L0 & L1 & L2 & L3 & L4 & L5 & L6 & L7 & L8 & L9 & L10 & L11 & L13 & L14) & ->).
  assert (Hwf' : wf_Header (decoded_header h parent uncles miner state tx receipts bloom
                             difficulty number gasLimit gasUsed timestamp extra mix nonce)).
  { unfold wf_Header, decoded_header, Header_ComputeHash. cbn.
    repeat split;
      first [assumption | apply (length_be_bytes 8) | apply Hdigest]. }
  assert (Hu : uint64_Header (decoded_header h parent uncles miner state tx receipts bloom
                             difficulty number gasLimit gasUsed timestamp extra mix nonce)).
  { unfold uint64_Header, decoded_header, Header_ComputeHash. cbn.
    repeat split; apply be_value_uint64; assumption. }
  split; [exact Hwf'|]. split; [exact Hu|]. split; [reflexivity|].
  rewrite (Header_decode_encode WriteRlp _ h0 Hwf' Hu Hwf0). reflexivity.
Qed.

End HeaderDecoder.

(* ===================================================================== *)
(** ** What a decoder leaves alone *)
(* ===================================================================== *)

Section FrameFacts.
Import Go fastrlp types.
Context {R T : Type} (f : R -> T).

Lemma frames_bind {A B} (m : M R A) (k : A -> M R B) :
  frames f m -> (forall a, frames f (k a)) -> frames f (m ≫= k).
Proof.
  intros Hm Hk r. specialize (Hm r). unfold mbind, M_bind, bind.
  destruct (m r) as [[a|e|p|] r1]; cbn [snd] in *; try exact Hm.
  rewrite (Hk a r1). exact Hm.
Qed.

Lemma frames_ret {A} (a : A) : frames f (mret a).
Proof. intros r. reflexivity. Qed.

Lemma frames_check (err : option error) : frames f (check err).
Proof. intros r. destruct err; reflexivity. Qed.

Lemma frames_throw {A} (e : error) : frames f (throw (A := A) e).
Proof. intros r. reflexivity. Qed.

Lemma frames_panic_with {A} (p : panic) : frames f (panic_with (A := A) p).
Proof. intros r. reflexivity. Qed.

Lemma frames_get : frames f get.
Proof. intros r. reflexivity. Qed.

Lemma frames_index {A} (s : list A) (i : nat) : frames f (index s i).
Proof. intros r. unfold index. destruct (s !! i); reflexivity. Qed.

Lemma frames_modify (g : R -> R) : (forall r, f (g r) = f r) -> frames f (modify g).
Proof. intros H r. apply H. Qed.

Lemma frames_with_new {U A} (init : U) (m : M U A) : frames f (with_new init m).
Proof. intros r. unfold with_new. destruct (m init) as [[a|e|p|] t]; reflexivity. Qed.

Lemma frames_for_range {A} (xs : list A) (body : A -> M R unit) :
  (forall x, frames f (body x)) -> frames f (for_range xs body).
Proof.
  intros Hbody. induction xs as [|x xs IH]; cbn [for_range]; [apply frames_ret|].
  change (bind ?m ?k) with (m ≫= k).
  apply frames_bind; [apply Hbody|intros _; exact IH].
Qed.

Lemma frames_for_range_from {A} (xs : list A) (body : nat -> A -> M R unit) :
  (forall i x, frames f (body i x)) -> forall i, frames f (for_range_from i xs body).
Proof.
  intros Hbody. induction xs as [|x xs IH]; intros i; cbn [for_range_from];
    [apply frames_ret|].
  change (bind ?m ?k) with (m ≫= k).
  apply frames_bind; [apply Hbody|intros _; apply IH].
Qed.

Lemma frames_read_hash e w field set :
  (forall x r, f (set x r) = f r) -> frames f (read_hash e w field set).
Proof.
  intros H. unfold read_hash. apply frames_bind; [apply frames_get|]. intros r.
  destruct (GetHash e (w (field r))) as [a err].
  apply frames_bind; [apply frames_modify, H|intros _; apply frames_check].
Qed.

Lemma frames_read_addr e w field set :
  (forall x r, f (set x r) = f r) -> frames f (read_addr e w field set).
Proof.
  intros H. unfold read_addr. apply frames_bind; [apply frames_get|]. intros r.
  destruct (GetAddr e (w (field r))) as [a err].
  apply frames_bind; [apply frames_modify, H|intros _; apply frames_check].
Qed.

Lemma frames_read_fixed e n field set :
  (forall x r, f (set x r) = f r) -> frames f (read_fixed e n field set).
Proof.
  intros H. unfold read_fixed. apply frames_bind; [apply frames_get|]. intros r.
  destruct (GetBytes e (slice_to0 (field r)) (Some n)) as [[s a] err].
  apply frames_bind; [apply frames_modify, H|intros _; apply frames_check].
Qed.

Lemma frames_read_bytes e field set :
  (forall x r, f (set x r) = f r) -> frames f (read_bytes e field set).
Proof.
  intros H. unfold read_bytes. apply frames_bind; [apply frames_get|]. intros r.
  destruct (GetBytes e (slice_to0 (field r)) None) as [[s a] err].
  apply frames_bind; [apply frames_modify, H|intros _; apply frames_check].
Qed.

Lemma frames_read_uint64 e (set : N -> R -> R) :
  (forall x r, f (set x r) = f r) -> frames f (read_uint64 e set).
Proof.
  intros H. unfold read_uint64. destruct (GetUint64 e) as [x err].
  apply frames_bind; [apply frames_modify, H|intros _; apply frames_check].
Qed.

Lemma frames_read_bigint e (set : option N -> R -> R) :
  (forall x r, f (set x r) = f r) -> frames f (read_bigint e set).
Proof.
  intros H. unfold read_bigint.
  apply frames_bind; [apply frames_modify, H|intros _].
  destruct (GetBigInt e 0%N) as [x err].
  apply frames_bind; [apply frames_modify, H|intros _; apply frames_check].
Qed.

Lemma frames_read_to BytesToAddress v i (set : option (list byte) -> R -> R) :
  (forall x r, f (set x r) = f r) -> frames f (read_to BytesToAddress v i set).
Proof.
  intros H. unfold read_to. destruct (Get v i) as [e|]; [|apply frames_panic_with].
  destruct (Bytes e) as [vv err].
  destruct (length vv =? 20); apply frames_modify, H.
Qed.

Lemma frames_unless_ok_bind {A B} (m : M R A) (k : A -> M R B) :
  frames f m -> (forall a, frames_unless_ok f (k a)) -> frames_unless_ok f (m ≫= k).
Proof.
  intros Hm Hk r. specialize (Hm r). unfold mbind, M_bind, bind.
  destruct (m r) as [[a|e|p|] r1]; cbn [snd] in *; intros Hfail; try exact Hm.
  rewrite (Hk a r1 Hfail). exact Hm.
Qed.

Lemma frames_unless_ok_of_frames {A} (m : M R A) : frames f m -> frames_unless_ok f m.
Proof. intros H r _. apply H. Qed.

End FrameFacts.

(** One statement of a method body, for [frames]. *)
Ltac frames_step :=
  first [ apply frames_index | apply frames_check | apply frames_get
        | apply frames_ret | apply frames_throw | apply frames_panic_with
        | apply frames_with_new
        | apply frames_read_hash; reflexivity | apply frames_read_addr; reflexivity
        | apply frames_read_fixed; reflexivity | apply frames_read_bytes; reflexivity
        | apply frames_read_uint64; reflexivity | apply frames_read_bigint; reflexivity
        | apply frames_read_to; reflexivity
        | apply frames_modify; reflexivity ].

Section HeaderFrames.
Import Go fastrlp types.
Context (WriteRlp : Value -> list byte).

(** The cached hash of a header is written by the last statement of the
    decoder alone.  A decoding that returns normally leaves the hash of
    the encoding of the header decoded, whatever the input was; a decoding
    that fails leaves the cached hash as it was. *)
Theorem Header_decode_cached_hash (v : Value) (h : Header.t) :
  match Header_UnmarshalRLPFrom WriteRlp v h with
  | (Ok _, h') => Header.Hash h' = WriteRlp (Header_MarshalRLPWith h')
  | (_, h') => Header.Hash h' = Header.Hash h
  end.
Proof.
  assert (Hfail : frames_unless_ok Header.Hash (Header_UnmarshalRLPFrom WriteRlp v)).
  { unfold Header_UnmarshalRLPFrom.
    destruct (GetElems v) as [elems err].
    apply frames_unless_ok_bind; [frames_step|intros _]. cbv zeta.
    destruct (negb (length elems =? 15));
      [apply frames_unless_ok_of_frames; frames_step|].
    do 28 (apply frames_unless_ok_bind; [frames_step|intros ?]).
    apply frames_unless_ok_bind; [frames_step|intros e].
    destruct (GetUint64 e) as [nonce [err'|]].
    - intros r _. reflexivity.
    - intros r Hne. exfalso. apply (Hne tt). reflexivity. }
  specialize (Hfail h).
  destruct (Header_UnmarshalRLPFrom WriteRlp v h) as [[[]|e|p|] h'] eqn:Hrun;
    cbn [fst snd] in Hfail; try (apply Hfail; intros a; discriminate).
  clear Hfail. revert Hrun.
  unfold Header_UnmarshalRLPFrom.
  destruct (GetElems v) as [elems err]. intros H.
  apply bind_ok_inv in H as (? & ? & _ & H). cbv zeta in H.
  destruct (negb (length elems =? 15)); [discriminate|].
  do 29 (apply bind_ok_inv in H as (? & ? & _ & H)).
  destruct (GetUint64 _) as [nonce err'].
  apply bind_ok_inv in H as (? & ? & Hc & H).
  apply check_ok_inv in Hc as [-> ->].
  injection H as <-. reflexivity.
Qed.

(** The decoder writes into its receiver as it goes: when the input is a
    list of fifteen elements whose first is an atom of 32 bytes, the
    parent hash of the receiver is that atom afterwards, also when a
    later element is rejected and the decoding fails. *)
Theorem Header_failed_decode_keeps_fields_read
    (parent : list byte) (rest : list Value) (h : Header.t) :
  length parent = 32 -> length rest = 14 ->
  length (Header.ParentHash h) = 32 ->
  Header.ParentHash (snd (Header_UnmarshalRLPFrom WriteRlp (VArray (VBytes parent :: rest)) h))
    = parent.
Proof.
  intros Hp Hrest Hh.
  unfold Header_UnmarshalRLPFrom. cbn [GetElems length].
  rewrite Hrest. cbn [Nat.eqb negb check].
  step reflexivity. step reflexivity.
  step (apply read_hash_all; assumption).
  match goal with
  | |- Header.ParentHash (snd (?m ?r)) = _ =>
      assert (Hfr : frames Header.ParentHash m)
  end.
  { do 13 (apply frames_bind; [frames_step|intros ?];
           apply frames_bind; [frames_step|intros ?]).
    apply frames_bind; [frames_step|intros e].
    destruct (GetUint64 e) as [nonce err'].
    do 3 (apply frames_bind; [frames_step|intros ?]).
    frames_step. }
  rewrite (Hfr _). reflexivity.
Qed.

End HeaderFrames.

(* ===================================================================== *)
(** ** The transaction payload and log decoders on any input *)
(* ===================================================================== *)

Section PayloadDecoders.
Import Go fastrlp types.
Context (BytesToAddress : list byte -> list byte).

Local Abbreviation recipient := (recipient BytesToAddress).

Lemma read_to_run {R} (v : Value) (i : nat) (e : Value)
    (set : option (list byte) -> R -> R) (r : R) :
  Get v i = Some e ->
  read_to BytesToAddress v i set r = (Ok tt, set (recipient e) r).
Proof.
  intros H. unfold read_to. rewrite H.
  destruct e as [b|l]; cbn [Bytes types.recipient length Nat.eqb].
  - destruct (length b =? 20); reflexivity.
  - reflexivity.
Qed.

(** [LegacyTransaction.UnmarshalRLPFrom] accepts exactly the lists of nine
    elements of which all but the fourth are atoms, the nonce and the gas
    being at most eight bytes wide.  The fourth element, the recipient, is
    never rejected: a 20-byte atom is an address, and anything else, a
    list included, leaves the transaction without a recipient.  The
    transaction decoded owes nothing to what the receiver held. *)
Theorem LegacyTransaction_decode_success_iff
    (v : Value) (t t' : LegacyTransaction.t) :
  LegacyTransaction_UnmarshalRLPFrom BytesToAddress v t = (Ok tt, t') <->
  exists nonce gasPrice gas to value input sv sr ss,
    v = VArray [ VBytes nonce; VBytes gasPrice; VBytes gas; to; VBytes value;
                 VBytes input; VBytes sv; VBytes sr; VBytes ss ] /\
    length nonce <= 8 /\ length gas <= 8 /\
    t' = LegacyTransaction.mk (be_value nonce) (Some (be_value gasPrice)) (be_value gas)
           (recipient to) (Some (be_value value)) input
           (Some (be_value sv)) (Some (be_value sr)) (Some (be_value ss)).
Proof.
  split.
  - intros H. unfold LegacyTransaction_UnmarshalRLPFrom in H.
    destruct v as [b|elems]; [discriminate|]. cbn [GetElems] in H.
    ran H index. cbv zeta in H.
    destruct (Nat.eqb_spec (length elems) 9) as [Hn|Hn]; [|discriminate].
    cbn [negb] in H.
    destruct elems as [|e0 [|e1 [|e2 [|e3 [|e4 [|e5 [|e6 [|e7 [|e8 [|e9 elems]]]]]]]]]];
      try discriminate.
    clear Hn.
    ran H index. apply bind_ok_inv in H as ([] & r0 & Hs & H).
    apply read_uint64_inv in Hs as (nonce & -> & L0 & ->).
    ran H index. apply bind_ok_inv in H as ([] & r1 & Hs & H).
    apply read_bigint_inv in Hs as (gasPrice & -> & ->).
    ran H index. apply bind_ok_inv in H as ([] & r2 & Hs & H).
    apply read_uint64_inv in Hs as (gas & -> & L2 & ->).
    erewrite step_ok in H by (apply read_to_run with (e := e3); reflexivity).
    cbv beta in H.
    ran H index. apply bind_ok_inv in H as ([] & r4 & Hs & H).
    apply read_bigint_inv in Hs as (value & -> & ->).
    ran H index. apply bind_ok_inv in H as ([] & r5 & Hs & H).
    apply read_bytes_inv in Hs as (input & -> & ->).
    ran H index. apply bind_ok_inv in H as ([] & r6 & Hs & H).
    apply read_bigint_inv in Hs as (sv & -> & ->).
    ran H index. apply bind_ok_inv in H as ([] & r7 & Hs & H).
    apply read_bigint_inv in Hs as (sr & -> & ->).
    ran H index.
    apply read_bigint_inv in H as (ss & -> & ->).
    exists nonce, gasPrice, gas, e3, value, input, sv, sr, ss.
    repeat split; assumption.
  - intros (nonce & gasPrice & gas & to & value & input & sv & sr & ss &
            -> & L0 & L2 & ->).
    unfold LegacyTransaction_UnmarshalRLPFrom.
    cbn [GetElems length Nat.eqb negb check].
    step reflexivity.
    step reflexivity. step (apply read_uint64_atom; assumption).
    step reflexivity. step (apply read_bigint_atom).
    step reflexivity. step (apply read_uint64_atom; assumption).
    step (apply read_to_run with (e := to); reflexivity).
    step reflexivity. step (apply read_bigint_atom).
    step reflexivity. step (apply read_bytes_ok).
    step reflexivity. step (apply read_bigint_atom).
    step reflexivity. step (apply read_bigint_atom).
    step reflexivity. rewrite read_bigint_atom.
    reflexivity.
Qed.

(** **** The loop over the signatures of a state transaction *)

Local Abbreviation sig_body :=
  (fun (i : nat) (e : Value) =>
     t ← get;
     slot ← index (StateTransaction.Signatures t) i;
     let '(s, _, err) := GetBytes e (slice_to0 slot) None in
     modify (StateTransaction.set_Signatures
               (<[i := contents s]> (StateTransaction.Signatures t)));;
     check err).

Lemma sig_body_atom (i : nat) (b slot : list byte) (t : StateTransaction.t) :
  StateTransaction.Signatures t !! i = Some slot ->
  sig_body i (VBytes b) t =
    (Ok tt, StateTransaction.set_Signatures
              (<[i := b]> (StateTransaction.Signatures t)) t).
Proof.
  intros Hslot. cbv beta. step reflexivity.
  step (unfold index; rewrite Hslot; reflexivity).
  destruct (GetBytes_any b (slice_to0 slot)) as (s & a & -> & ->). reflexivity.
Qed.

Lemma sig_body_inv (i : nat) (e : Value) (slot : list byte)
    (t t' : StateTransaction.t) (a : unit) :
  StateTransaction.Signatures t !! i = Some slot ->
  sig_body i e t = (Ok a, t') ->
  exists b, e = VBytes b /\
            t' = StateTransaction.set_Signatures
                   (<[i := b]> (StateTransaction.Signatures t)) t.
Proof.
  intros Hslot H. cbv beta in H.
  erewrite step_ok in H by reflexivity. cbv beta in H.
  erewrite step_ok in H by (unfold index; rewrite Hslot; reflexivity). cbv beta in H.
  destruct e as [b|l].
  - destruct (GetBytes_any b (slice_to0 slot)) as (s & x & Hget & Hs).
    rewrite Hget in H. destruct a. injection H as <-. rewrite Hs. eauto.
  - discriminate.
Qed.

Lemma insert_middle {A} (pre : list A) (x y : A) (post : list A) :
  <[length pre := x]> (pre ++ y :: post) = pre ++ x :: post.
Proof. rewrite insert_app_r_alt by lia. rewrite Nat.sub_diag. reflexivity. Qed.

Lemma sig_loop_atoms (sigs : list (list byte)) :
  forall (pre : list (list byte)) (t : StateTransaction.t),
    StateTransaction.Signatures t = pre ++ replicate (length sigs) [] ->
    for_range_from (length pre) (map VBytes sigs) sig_body t =
      (Ok tt, StateTransaction.set_Signatures (pre ++ sigs) t).
Proof.
  induction sigs as [|b sigs IH]; intros pre t Ht.
  - cbn [map for_range_from]. cbn in Ht. destruct t. cbn in *. subst. reflexivity.
  - cbn [map for_range_from length replicate] in *.
    change (bind ?m ?k) with (m ≫= k).
    erewrite step_ok;
      [|apply sig_body_atom with (slot := []); rewrite Ht;
        rewrite lookup_app_r, Nat.sub_diag by lia; reflexivity].
    cbv beta. rewrite Ht, insert_middle.
    specialize (IH (pre ++ [b])
                   (StateTransaction.set_Signatures
                      (pre ++ b :: replicate (length sigs) []) t)).
    rewrite length_app in IH. cbn [length] in IH. rewrite Nat.add_1_r in IH.
    rewrite IH by (cbn; rewrite <- app_assoc; reflexivity).
    rewrite <- app_assoc. reflexivity.
Qed.

Lemma sig_loop_inv (sigElems : list Value) :
  forall (pre : list (list byte)) (t t' : StateTransaction.t) (a : unit),
    StateTransaction.Signatures t = pre ++ replicate (length sigElems) [] ->
    for_range_from (length pre) sigElems sig_body t = (Ok a, t') ->
    exists sigs, sigElems = map VBytes sigs /\
                 t' = StateTransaction.set_Signatures (pre ++ sigs) t.
Proof.
  induction sigElems as [|e sigElems IH]; intros pre t t' a Ht H.
  - cbn [for_range_from] in H. injection H as <-. exists [].
    split; [reflexivity|]. cbn in Ht. rewrite app_nil_r in *.
    destruct t. cbn in *. subst. reflexivity.
  - cbn [for_range_from length replicate] in *.
    change (bind ?m ?k) with (m ≫= k) in H.
    apply bind_ok_inv in H as ([] & t1 & Hs & H).
    apply sig_body_inv with (slot := []) in Hs as (b & -> & ->);
      [|rewrite Ht; rewrite lookup_app_r, Nat.sub_diag by lia; reflexivity].
    rewrite Ht, insert_middle in H.
    specialize (IH (pre ++ [b])
                   (StateTransaction.set_Signatures
                      (pre ++ b :: replicate (length sigElems) []) t) t' a).
    rewrite length_app in IH. cbn [length] in IH. rewrite Nat.add_1_r in IH.
    destruct IH as (sigs & -> & ->);
      [cbn; rewrite <- app_assoc; reflexivity|exact H|].
    exists (b :: sigs). split; [reflexivity|].
    rewrite <- app_assoc. reflexivity.
Qed.

(** [StateTransaction.UnmarshalRLPFrom] accepts exactly the lists of seven
    elements whose fourth is a list of atoms, the signatures, and whose
    others, the recipient apart, are atoms, the nonce being at most eight
    bytes wide.  The signatures decoded are the atoms, as many and in the
    same order, and they replace the signatures of the receiver. *)
Theorem StateTransaction_decode_success_iff
    (v : Value) (t t' : StateTransaction.t) :
  StateTransaction_UnmarshalRLPFrom BytesToAddress v t = (Ok tt, t') <->
  exists nonce to input sigs sv sr ss,
    v = VArray [ VBytes nonce; to; VBytes input; VArray (map VBytes sigs);
                 VBytes sv; VBytes sr; VBytes ss ] /\
    length nonce <= 8 /\
    t' = StateTransaction.mk (be_value nonce) (recipient to) input sigs
           (Some (be_value sv)) (Some (be_value sr)) (Some (be_value ss)).
Proof.
  split.
  - intros H. unfold StateTransaction_UnmarshalRLPFrom in H.
    destruct v as [b|elems]; [discriminate|]. cbn [GetElems] in H.
    ran H index. cbv zeta in H.
    destruct (Nat.eqb_spec (length elems) 7) as [Hn|Hn]; [|discriminate].
    cbn [negb] in H.
    destruct elems as [|e0 [|e1 [|e2 [|e3 [|e4 [|e5 [|e6 [|e7 elems]]]]]]]];
      try discriminate.
    clear Hn.
    ran H index. apply bind_ok_inv in H as ([] & r0 & Hs & H).
    apply read_uint64_inv in Hs as (nonce & -> & L0 & ->).
    erewrite step_ok in H by (apply read_to_run with (e := e1); reflexivity).
    cbv beta in H.
    ran H index. apply bind_ok_inv in H as ([] & r2 & Hs & H).
    apply read_bytes_inv in Hs as (input & -> & ->).
    ran H index.
    destruct e3 as [b3|sigElems]; [discriminate|]. cbn [GetElems] in H.
    ran H index. ran H index.
    apply bind_ok_inv in H as ([] & r3 & Hs & H).
    apply (sig_loop_inv sigElems []) in Hs as (sigs & -> & ->); [|reflexivity].
    ran H index. apply bind_ok_inv in H as ([] & r4 & Hs & H).
    apply read_bigint_inv in Hs as (sv & -> & ->).
    ran H index. apply bind_ok_inv in H as ([] & r5 & Hs & H).
    apply read_bigint_inv in Hs as (sr & -> & ->).
    ran H index.
    apply read_bigint_inv in H as (ss & -> & ->).
    exists nonce, e1, input, sigs, sv, sr, ss.
    repeat split; assumption.
  - intros (nonce & to & input & sigs & sv & sr & ss & -> & L0 & ->).
    unfold StateTransaction_UnmarshalRLPFrom.
    cbn [GetElems length Nat.eqb negb check].
    step reflexivity.
    step reflexivity. step (apply read_uint64_atom; assumption).
    step (apply read_to_run with (e := to); reflexivity).
    step reflexivity. step (apply read_bytes_ok).
    step reflexivity. cbn [GetElems]. step reflexivity. step reflexivity.
    step (apply (sig_loop_atoms sigs []); cbn; rewrite length_map; reflexivity).
    step reflexivity. step (apply read_bigint_atom).
    step reflexivity. step (apply read_bigint_atom).
    step reflexivity. rewrite read_bigint_atom.
    reflexivity.
Qed.

End PayloadDecoders.

Section LogDecoder.
Import Go fastrlp types.

Local Abbreviation topic_body :=
  (fun (indx : nat) (topic : Value) =>
     l ← get;
     slot ← index (Log.Topics l) indx;
     let '(a, err) := GetHash topic (slice_all slot) in
     modify (Log.set_Topics (<[indx := a]> (Log.Topics l)));; check err).

Lemma topic_body_atom (i : nat) (b slot : list byte) (l : Log.t) :
  Log.Topics l !! i = Some slot -> length slot = 32 -> length b = 32 ->
  topic_body i (VBytes b) l = (Ok tt, Log.set_Topics (<[i := b]> (Log.Topics l)) l).
Proof.
  intros Hslot Hs Hb. cbv beta. step reflexivity.
  step (unfold index; rewrite Hslot; reflexivity).
  unfold GetHash. rewrite (GetBytes_width b (slice_all slot) 32 Hb Hs). reflexivity.
Qed.

Lemma topic_body_inv (i : nat) (e : Value) (slot : list byte) (l l' : Log.t) (a : unit) :
  Log.Topics l !! i = Some slot -> length slot = 32 ->
  topic_body i e l = (Ok a, l') ->
  exists b, e = VBytes b /\ length b = 32 /\
            l' = Log.set_Topics (<[i := b]> (Log.Topics l)) l.
Proof.
  intros Hslot Hs H. cbv beta in H.
  erewrite step_ok in H by reflexivity. cbv beta in H.
  erewrite step_ok in H by (unfold index; rewrite Hslot; reflexivity). cbv beta in H.
  unfold GetHash in H.
  destruct (GetBytes e (slice_all slot) (Some 32)) as [[s x] err] eqn:Hget.
  apply bind_ok_inv in H as ([] & r1 & [= <-] & H).
  apply check_ok_inv in H as [-> ->].
  destruct (GetBytes_width_inv _ (slice_all slot) _ _ _ Hs Hget) as (b & -> & Hb & ->).
  eauto.
Qed.

Lemma topic_loop_atoms (topics : list (list byte)) :
  Forall (fun t => length t = 32) topics ->
  forall (pre : list (list byte)) (l : Log.t),
    Log.Topics l = pre ++ replicate (length topics) (replicate 32 x00) ->
    for_range_from (length pre) (map VBytes topics) topic_body l =
      (Ok tt, Log.set_Topics (pre ++ topics) l).
Proof.
  induction 1 as [|b topics Hb _ IH]; intros pre l Hl.
  - cbn [map for_range_from]. cbn in Hl. destruct l. cbn in *. subst. reflexivity.
  - cbn [map for_range_from length] in *.
    change (replicate (S ?n) ?x) with (x :: replicate n x) in Hl.
    change (bind ?m ?k) with (m ≫= k).
    erewrite step_ok;
      [|apply topic_body_atom with (slot := replicate 32 x00);
        [rewrite Hl; rewrite lookup_app_r, Nat.sub_diag by lia; reflexivity
        |reflexivity|exact Hb]].
    cbv beta. rewrite Hl, insert_middle.
    specialize (IH (pre ++ [b])
                   (Log.set_Topics
                      (pre ++ b :: replicate (length topics) (replicate 32 x00)) l)).
    rewrite length_app in IH. cbn [length] in IH. rewrite Nat.add_1_r in IH.
    rewrite IH by (cbn; rewrite <- app_assoc; reflexivity).
    rewrite <- app_assoc. reflexivity.
Qed.

Lemma topic_loop_inv (topicElems : list Value) :
  forall (pre : list (list byte)) (l l' : Log.t) (a : unit),
    Log.Topics l = pre ++ replicate (length topicElems) (replicate 32 x00) ->
    for_range_from (length pre) topicElems topic_body l = (Ok a, l') ->
    exists topics, topicElems = map VBytes topics /\
                   Forall (fun t => length t = 32) topics /\
                   l' = Log.set_Topics (pre ++ topics) l.
Proof.
  induction topicElems as [|e topicElems IH]; intros pre l l' a Hl H.
  - cbn [for_range_from] in H. injection H as <-. exists [].
    split; [reflexivity|]. split; [constructor|].
    cbn in Hl. rewrite app_nil_r in *.
    destruct l. cbn in *. subst. reflexivity.
  - cbn [for_range_from length] in *.
    change (replicate (S ?n) ?x) with (x :: replicate n x) in Hl.
    change (bind ?m ?k) with (m ≫= k) in H.
    apply bind_ok_inv in H as ([] & l1 & Hs & H).
    apply topic_body_inv with (slot := replicate 32 x00) in Hs as (b & -> & Hb & ->);
      [|rewrite Hl; rewrite lookup_app_r, Nat.sub_diag by lia; reflexivity
       |reflexivity].
    rewrite Hl, insert_middle in H.
    specialize (IH (pre ++ [b])
                   (Log.set_Topics
                      (pre ++ b :: replicate (length topicElems) (replicate 32 x00)) l)
                   l' a).
    rewrite length_app in IH. cbn [length] in IH. rewrite Nat.add_1_r in IH.
    destruct IH as (topics & -> & Hall & ->);
      [cbn; rewrite <- app_assoc; reflexivity|exact H|].
    exists (b :: topics). split; [reflexivity|]. split; [constructor; assumption|].
    rewrite <- app_assoc. reflexivity.
Qed.

(** [Log.UnmarshalRLPFrom] accepts exactly the lists of three elements
    made of an address of 20 bytes, a list of topics that are atoms of 32
    bytes, and the data, an atom.  The log decoded has the topics of the
    input, as many and in the same order, in the place of whatever topics
    the receiver held. *)
Theorem Log_decode_success_iff (v : Value) (l l' : Log.t) :
  length (Log.Address l) = 20 ->
  (Log_UnmarshalRLPFrom v l = (Ok tt, l') <->
   exists address topics data,
     v = VArray [VBytes address; VArray (map VBytes topics); VBytes data] /\
     length address = 20 /\
     Forall (fun t => length t = 32) topics /\
     l' = Log.mk address topics data).
Proof.
  intros Haddr. split.
  - intros H. unfold Log_UnmarshalRLPFrom in H.
    destruct v as [b|elems]; [discriminate|]. cbn [GetElems] in H.
    ran H index.
    destruct (Nat.eqb_spec (length elems) 3) as [Hn|Hn]; [|discriminate].
    cbn [negb] in H.
    destruct elems as [|e0 [|e1 [|e2 [|e3 elems]]]]; try discriminate.
    clear Hn.
    ran H index. apply bind_ok_inv in H as ([] & r0 & Hs & H).
    apply read_addr_inv in Hs as (address & -> & L0 & ->); [|exact Haddr].
    ran H index.
    destruct e1 as [b1|topicElems]; [discriminate|]. cbn [GetElems] in H.
    ran H index. ran H index.
    apply bind_ok_inv in H as ([] & r1 & Hs & H).
    apply (topic_loop_inv topicElems []) in Hs as (topics & -> & Hall & ->);
      [|reflexivity].
    ran H index.
    apply read_bytes_inv in H as (data & -> & ->).
    exists address, topics, data. repeat split; assumption.
  - intros (address & topics & data & -> & L0 & Hall & ->).
    unfold Log_UnmarshalRLPFrom.
    cbn [GetElems length Nat.eqb negb check].
    step reflexivity.
    step reflexivity. step (apply read_addr_all; assumption).
    step reflexivity. cbn [GetElems]. step reflexivity. step reflexivity.
    step (apply (topic_loop_atoms topics Hall []); cbn; rewrite length_map; reflexivity).
    step reflexivity. rewrite read_bytes_ok.
    reflexivity.
Qed.

End LogDecoder.

(* ===================================================================== *)
(** ** The collection decoders on any stream *)
(* ===================================================================== *)

Section StreamsAppend.
Import Go fastrlp types.
Context (TxTypeLegacy : byte)
        (ToTransactionType : byte -> byte * option error)
        (newTxPayload : byte -> option TxPayload * option error)
        (BytesToAddress : list byte -> list byte)
        (txHash : TxPayload -> list byte).

Local Abbreviation Transactions_UnmarshalRLPFrom :=
  (Transactions_UnmarshalRLPFrom TxTypeLegacy ToTransactionType newTxPayload
     BytesToAddress txHash).
Local Abbreviation Transactions_scan :=
  (Transactions_scan TxTypeLegacy ToTransactionType newTxPayload BytesToAddress txHash).
Local Abbreviation Transactions_decode_one :=
  (Transactions_decode_one BytesToAddress txHash).
Local Abbreviation Receipts_UnmarshalRLPFrom :=
  (Receipts_UnmarshalRLPFrom TxTypeLegacy ToTransactionType).
Local Abbreviation Receipts_scan := (Receipts_scan TxTypeLegacy ToTransactionType).

Lemma bind_fail {R A B} (m : M R A) (k : A -> M R B) (r r' : R) (res : result A) :
  m r = (res, r') -> (forall a, res <> Ok a) ->
  exists res', (m ≫= k) r = (res', r') /\ forall b, res' <> Ok b.
Proof.
  intros H Hne. unfold mbind, M_bind, bind. rewrite H.
  destruct res as [a|e|p|]; [destruct (Hne a eq_refl)| | |];
    eexists; (split; [reflexivity|discriminate]).
Qed.

Lemma with_new_cases {R T A} (init : T) (m : M T A) (r : R) :
  (exists t, with_new init m r = (Ok t, r) /\ exists a, m init = (Ok a, t)) \/
  (exists res, with_new init m r = (res, r) /\ forall t, res <> Ok t).
Proof.
  unfold with_new. destruct (m init) as [[a|e|p|] t].
  - left. exists t. split; [reflexivity|]. exists a. reflexivity.
  - right. eexists. split; [reflexivity|discriminate].
  - right. eexists. split; [reflexivity|discriminate].
  - right. eexists. split; [reflexivity|discriminate].
Qed.

Lemma TxPayload_atom_rejected (b : list byte) (payload payload' : TxPayload) (a : unit) :
  TxPayload_UnmarshalRLPFrom BytesToAddress (VBytes b) payload <> (Ok a, payload').
Proof. destruct payload; discriminate. Qed.

Lemma Receipt_atom_rejected (b : list byte) (r r' : Receipt.t) (a : unit) :
  Receipt_UnmarshalRLPFrom (VBytes b) r <> (Ok a, r').
Proof. discriminate. Qed.

Lemma Transactions_decode_one_cases (payload : option TxPayload) (e : Value)
    (s : list Transaction.t) :
  (exists txn, Transactions_decode_one payload e s = (Ok tt, s ++ [txn]) /\
               Transaction.Hash txn = txHash (Transaction.Payload txn) /\
               isTypeBytes e = false) \/
  (exists res, Transactions_decode_one payload e s = (res, s) /\ forall a, res <> Ok a).
Proof.
  unfold types.Transactions_decode_one.
  destruct payload as [payload|].
  2:{ right. eexists. split; [reflexivity|discriminate]. }
  destruct (with_new_cases payload (TxPayload_UnmarshalRLPFrom BytesToAddress e) s)
    as [(p' & Hrun & a & Hdec)|(res & Hrun & Hne)].
  - left. eexists. split; [erewrite step_ok by exact Hrun; reflexivity|].
    split; [reflexivity|].
    destruct e as [b|l]; [|reflexivity].
    destruct (TxPayload_atom_rejected _ _ _ _ Hdec).
  - right. apply (bind_fail _ _ _ _ _ Hrun Hne).
Qed.

Lemma Receipts_decode_one_cases (txType : byte) (e : Value) (s : list Receipt.t) :
  (exists rr, Receipts_decode_one txType e s = (Ok tt, s ++ [rr]) /\
              isTypeBytes e = false) \/
  (exists res, Receipts_decode_one txType e s = (res, s) /\ forall a, res <> Ok a).
Proof.
  unfold types.Receipts_decode_one.
  destruct (with_new_cases (Receipt.set_TransactionType txType Receipt.zero)
              (Receipt_UnmarshalRLPFrom e) s)
    as [(rr & Hrun & a & Hdec)|(res & Hrun & Hne)].
  - left. eexists. split; [erewrite step_ok by exact Hrun; reflexivity|].
    destruct e as [b|l]; [|reflexivity].
    destruct (Receipt_atom_rejected _ _ _ _ Hdec).
  - right. apply (bind_fail _ _ _ _ _ Hrun Hne).
Qed.

Local Abbreviation is_list := (fun e : Value => isTypeBytes e = false).

Lemma filter_atom (e : Value) (rest : list Value) :
  isTypeBytes e = true -> filter is_list (e :: rest) = filter is_list rest.
Proof. intros H. rewrite filter_cons_False; [reflexivity|]. cbv beta. congruence. Qed.

Lemma filter_list (e : Value) (rest : list Value) :
  isTypeBytes e = false -> filter is_list (e :: rest) = e :: filter is_list rest.
Proof. intros H. rewrite filter_cons_True; [reflexivity|exact H]. Qed.

Lemma Transactions_scan_appends (n : nat) :
  forall k txns s, length txns <= k ->
    exists res added,
      Transactions_scan n txns s = (res, s ++ added) /\
      Forall (fun t => Transaction.Hash t = txHash (Transaction.Payload t)) added /\
      (forall a, res = Ok a -> length added = length (filter is_list txns)).
Proof.
  induction k as [|k IH]; intros txns s Hk.
  { destruct txns; [|cbn in Hk; lia].
    exists (Ok tt), []. rewrite app_nil_r. repeat split; constructor. }
  destruct txns as [|e rest].
  { exists (Ok tt), []. rewrite app_nil_r. repeat split; constructor. }
  cbn [length] in Hk. cbn [types.Transactions_scan].
  assert (Hstop : forall (m : M (list Transaction.t) unit) res,
             m s = (res, s) -> (forall a, res <> Ok a) ->
             exists res' added,
               m s = (res', s ++ added) /\
               Forall (fun t => Transaction.Hash t = txHash (Transaction.Payload t)) added /\
               (forall a, res' = Ok a ->
                          length added = length (filter is_list (e :: rest)))).
  { intros m res Hm Hne. exists res, []. rewrite app_nil_r.
    split; [exact Hm|]. split; [constructor|]. intros a ->. destruct (Hne a eq_refl). }
  destruct (isTypeBytes e) eqn:He.
  - destruct (with_new_cases TxTypeLegacy
                (TransactionType_UnmarshalRLPFrom ToTransactionType e) s)
      as [(ty & Hrun & _)|(res & Hrun & Hne)].
    2:{ destruct (bind_fail _ (fun txType =>
            let '(payload, err) := newTxPayload txType in
            check err;;
            match rest with
            | [] => panic_with (IndexOutOfRange (Z.of_nat n) n)
            | e' :: rest' => Transactions_decode_one payload e';; Transactions_scan n rest'
            end) _ _ _ Hrun Hne) as (res' & Hres & Hne').
        apply (Hstop _ res' Hres Hne'). }
    erewrite step_ok by exact Hrun. cbv beta.
    destruct (newTxPayload ty) as [payload [err|]].
    { apply (Hstop _ (Err err)); [reflexivity|discriminate]. }
    cbn [check]. step reflexivity.
    destruct rest as [|e' rest'].
    { apply (Hstop _ (Panic (IndexOutOfRange (Z.of_nat n) n))); [reflexivity|discriminate]. }
    destruct (Transactions_decode_one_cases payload e' s)
      as [(txn & Hone & Hhash & He')|(res & Hone & Hne)].
    2:{ destruct (bind_fail _ (fun _ => Transactions_scan n rest') _ _ _ Hone Hne)
          as (res' & Hres & Hne').
        apply (Hstop _ res' Hres Hne'). }
    erewrite step_ok by exact Hone. cbv beta.
    destruct (IH rest' (s ++ [txn]) ltac:(cbn [length] in Hk; lia))
      as (res & added & Hscan & Hall & Hcount).
    exists res, (txn :: added). rewrite Hscan, <- app_assoc.
    split; [reflexivity|]. split; [constructor; assumption|].
    intros a Ha. rewrite (filter_atom e _ He), (filter_list e' _ He').
    cbn [length]. rewrite (Hcount a Ha). reflexivity.
  - destruct (newTxPayload TxTypeLegacy) as [payload [err|]].
    { apply (Hstop _ (Err err)); [reflexivity|discriminate]. }
    cbn [check]. step reflexivity.
    destruct (Transactions_decode_one_cases payload e s)
      as [(txn & Hone & Hhash & _)|(res & Hone & Hne)].
    2:{ destruct (bind_fail _ (fun _ => Transactions_scan n rest) _ _ _ Hone Hne)
          as (res' & Hres & Hne').
        apply (Hstop _ res' Hres Hne'). }
    erewrite step_ok by exact Hone. cbv beta.
    destruct (IH rest (s ++ [txn]) ltac:(lia)) as (res & added & Hscan & Hall & Hcount).
    exists res, (txn :: added). rewrite Hscan, <- app_assoc.
    split; [reflexivity|]. split; [constructor; assumption|].
    intros a Ha. rewrite (filter_list e _ He).
    cbn [length]. rewrite (Hcount a Ha). reflexivity.
Qed.

Lemma Receipts_scan_appends (n : nat) :
  forall k elems s, length elems <= k ->
    exists res added,
      Receipts_scan n elems s = (res, s ++ added) /\
      (forall a, res = Ok a -> length added = length (filter is_list elems)).
Proof.
  induction k as [|k IH]; intros elems s Hk.
  { destruct elems; [|cbn in Hk; lia].
    exists (Ok tt), []. rewrite app_nil_r. repeat split. }
  destruct elems as [|e rest].
  { exists (Ok tt), []. rewrite app_nil_r. repeat split. }
  cbn [length] in Hk. cbn [types.Receipts_scan].
  assert (Hstop : forall (m : M (list Receipt.t) unit) res,
             m s = (res, s) -> (forall a, res <> Ok a) ->
             exists res' added,
               m s = (res', s ++ added) /\
               (forall a, res' = Ok a ->
                          length added = length (filter is_list (e :: rest)))).
  { intros m res Hm Hne. exists res, []. rewrite app_nil_r.
    split; [exact Hm|]. intros a ->. destruct (Hne a eq_refl). }
  destruct (isTypeBytes e) eqn:He.
  - destruct (with_new_cases TxTypeLegacy
                (TransactionType_UnmarshalRLPFrom ToTransactionType e) s)
      as [(ty & Hrun & _)|(res & Hrun & Hne)].
    2:{ destruct (bind_fail _ (fun txType =>
            match rest with
            | [] => panic_with (IndexOutOfRange (Z.of_nat n) n)
            | e' :: rest' => Receipts_decode_one txType e';; Receipts_scan n rest'
            end) _ _ _ Hrun Hne) as (res' & Hres & Hne').
        apply (Hstop _ res' Hres Hne'). }
    erewrite step_ok by exact Hrun. cbv beta.
    destruct rest as [|e' rest'].
    { apply (Hstop _ (Panic (IndexOutOfRange (Z.of_nat n) n))); [reflexivity|discriminate]. }
    destruct (Receipts_decode_one_cases ty e' s)
      as [(rr & Hone & He')|(res & Hone & Hne)].
    2:{ destruct (bind_fail _ (fun _ => Receipts_scan n rest') _ _ _ Hone Hne)
          as (res' & Hres & Hne').
        apply (Hstop _ res' Hres Hne'). }
    erewrite step_ok by exact Hone. cbv beta.
    destruct (IH rest' (s ++ [rr]) ltac:(cbn [length] in Hk; lia))
      as (res & added & Hscan & Hcount).
    exists res, (rr :: added). rewrite Hscan, <- app_assoc.
    split; [reflexivity|].
    intros a Ha. rewrite (filter_atom e _ He), (filter_list e' _ He').
    cbn [length]. rewrite (Hcount a Ha). reflexivity.
  - destruct (Receipts_decode_one_cases TxTypeLegacy e s)
      as [(rr & Hone & _)|(res & Hone & Hne)].
    2:{ destruct (bind_fail _ (fun _ => Receipts_scan n rest) _ _ _ Hone Hne)
          as (res' & Hres & Hne').
        apply (Hstop _ res' Hres Hne'). }
    erewrite step_ok by exact Hone. cbv beta.
    destruct (IH rest (s ++ [rr]) ltac:(lia)) as (res & added & Hscan & Hcount).
    exists res, (rr :: added). rewrite Hscan, <- app_assoc.
    split; [reflexivity|].
    intros a Ha. rewrite (filter_list e _ He).
    cbn [length]. rewrite (Hcount a Ha). reflexivity.
Qed.

(** The collection decoders only append.  However the decoding of a
    stream ends, the receiver holds what it held before followed by the
    objects decoded so far, and every transaction appended has the hash of
    its payload as its cached hash.  When the decoding returns normally,
    the objects appended are as many as the list elements of the stream:
    every atom of the stream has been read as a type. *)
Theorem collection_decoders_append
    (elems : list Value) (txs : list Transaction.t) (rs : list Receipt.t) :
  (exists res added,
      Transactions_UnmarshalRLPFrom (VArray elems) txs = (res, txs ++ added) /\
      Forall (fun t => Transaction.Hash t = txHash (Transaction.Payload t)) added /\
      (forall a, res = Ok a -> length added = length (filter is_list elems))) /\
  (exists res added,
      Receipts_UnmarshalRLPFrom (VArray elems) rs = (res, rs ++ added) /\
      (forall a, res = Ok a -> length added = length (filter is_list elems))).
Proof.
  split.
  - rewrite Transactions_loop_scan.
    apply (Transactions_scan_appends _ (length elems)). lia.
  - rewrite Receipts_loop_scan.
    apply (Receipts_scan_appends _ (length elems)). lia.
Qed.

End StreamsAppend.

(* ===================================================================== *)
(** ** The object decoders never panic; the block decoder *)
(* ===================================================================== *)

Section ObjectDecoders.
Import Go fastrlp types.
Context (WriteRlp : Value -> list byte)
        (TxTypeLegacy : byte)
        (ToTransactionType : byte -> byte * option error)
        (newTxPayload : byte -> option TxPayload * option error)
        (BytesToAddress : list byte -> list byte)
        (txHash : TxPayload -> list byte).

Local Abbreviation Header_UnmarshalRLPFrom := (Header_UnmarshalRLPFrom WriteRlp).
Local Abbreviation Transactions_UnmarshalRLPFrom :=
  (Transactions_UnmarshalRLPFrom TxTypeLegacy ToTransactionType newTxPayload
     BytesToAddress txHash).
Local Abbreviation Block_UnmarshalRLPFrom :=
  (Block_UnmarshalRLPFrom WriteRlp TxTypeLegacy ToTransactionType newTxPayload
     BytesToAddress txHash).

(** The decoders of the single objects come back to their caller on every
    element and with every receiver: whatever the input, they return
    normally or with an error, and never run into a panic. *)
Theorem object_decoders_never_panic
    (v : Value) (ty : byte) (h : Header.t) (l : Log.t) (r : Receipt.t)
    (lt : LegacyTransaction.t) (st : StateTransaction.t) :
  returns (TransactionType_UnmarshalRLPFrom ToTransactionType v ty) /\
  returns (Header_UnmarshalRLPFrom v h) /\
  returns (Log_UnmarshalRLPFrom v l) /\
  returns (Receipt_UnmarshalRLPFrom v r) /\
  returns (LegacyTransaction_UnmarshalRLPFrom BytesToAddress v lt) /\
  returns (StateTransaction_UnmarshalRLPFrom BytesToAddress v st).
Proof.
  split; [apply TransactionType_returns|].
  split; [apply Header_returns|].
  split; [apply Log_returns|].
  split; [apply Receipt_returns|].
  split; [apply LegacyTransaction_returns|apply StateTransaction_returns].
Qed.

Lemma zoom_run {R T A} (proj : R -> T) (inj : T -> R -> R) (m : M T A) (r : R) :
  zoom proj inj m r = (fst (m (proj r)), inj (snd (m (proj r))) r).
Proof. unfold zoom. destruct (m (proj r)); reflexivity. Qed.

Lemma Block_header_run (e : Value) (b : Block.t) :
  zoom (fun b => default Header.zero (Block.Header b))
       (fun h => Block.set_Header (Some h))
       (Header_UnmarshalRLPFrom e) (Block.set_Header (Some Header.zero) b) =
    (fst (Header_UnmarshalRLPFrom e Header.zero),
     Block.mk (Some (snd (Header_UnmarshalRLPFrom e Header.zero)))
              (Block.Transactions b) (Block.Uncles b)).
Proof. rewrite zoom_run. reflexivity. Qed.

Lemma Block_uncles_loop (uncles : list Value) (hs : list Header.t) :
  Forall2 (fun uncle hu => Header_UnmarshalRLPFrom uncle Header.zero = (Ok tt, hu))
          uncles hs ->
  forall b : Block.t,
    for_range uncles (fun uncle =>
      bUncle ← with_new Header.zero (Header_UnmarshalRLPFrom uncle);
      modify (fun b => Block.set_Uncles (Block.Uncles b ++ [bUncle]) b)) b
    = (Ok tt, Block.set_Uncles (Block.Uncles b ++ hs) b).
Proof.
  induction 1 as [|uncle hu uncles hs Hu _ IH]; intros b.
  - cbn [for_range]. rewrite app_nil_r. destruct b. reflexivity.
  - cbn [for_range].
    change (bind ?m ?k) with (m ≫= k).
    step (erewrite step_ok; [|apply (with_new_ok _ _ _ _ _ Hu)]; reflexivity).
    rewrite IH. destruct b. cbn. rewrite <- app_assoc. reflexivity.
Qed.

(** A block is decoded from its three parts.  The header is decoded into
    a new header, the transactions into a new collection that replaces the
    transactions of the receiver, and the uncles are appended, in order,
    to the uncles the receiver already holds. *)
Theorem Block_decode_success
    (eh et : Value) (uncles : list Value) (b : Block.t)
    (h : Header.t) (txns : list Transaction.t) (hs : list Header.t) :
  Header_UnmarshalRLPFrom eh Header.zero = (Ok tt, h) ->
  Transactions_UnmarshalRLPFrom et [] = (Ok tt, txns) ->
  Forall2 (fun uncle hu => Header_UnmarshalRLPFrom uncle Header.zero = (Ok tt, hu))
          uncles hs ->
  Block_UnmarshalRLPFrom (VArray [eh; et; VArray uncles]) b =
    (Ok tt, Block.mk (Some h) txns (Block.Uncles b ++ hs)).
Proof.
  intros Hh Ht Hu. unfold types.Block_UnmarshalRLPFrom.
  cbn [GetElems length Nat.eqb negb check].
  step reflexivity. step reflexivity. step reflexivity.
  step (unfold modify; rewrite Block_header_run, Hh; reflexivity).
  step reflexivity.
  step (apply (with_new_ok _ _ _ _ _ Ht)).
  step reflexivity. step reflexivity.
  cbn [GetElems check]. step reflexivity.
  rewrite (Block_uncles_loop uncles hs Hu). reflexivity.
Qed.

(** A failure of the header decoder or of the transaction decoder is the
    failure of the block decoder, error or panic alike.  The receiver is
    not left as it was: its header is the new header as far as it was
    read; its transactions and uncles are untouched. *)
Theorem Block_decode_failure
    (eh et e2 : Value) (b : Block.t) (res : result unit)
    (h : Header.t) (txs : list Transaction.t) :
  (forall a, res <> Ok a) ->
  (Header_UnmarshalRLPFrom eh Header.zero = (res, h) \/
   (Header_UnmarshalRLPFrom eh Header.zero = (Ok tt, h) /\
    Transactions_UnmarshalRLPFrom et [] = (res, txs))) ->
  Block_UnmarshalRLPFrom (VArray [eh; et; e2]) b =
    (res, Block.mk (Some h) (Block.Transactions b) (Block.Uncles b)).
Proof.
  intros Hne [Hh|[Hh Ht]]; unfold types.Block_UnmarshalRLPFrom;
    cbn [GetElems length Nat.eqb negb check];
    (step reflexivity); (step reflexivity); (step reflexivity).
  - unfold mbind, M_bind, bind. unfold modify. rewrite Block_header_run, Hh. cbn [fst snd].
    destruct res as [a| | |]; [destruct (Hne a eq_refl)| | |]; reflexivity.
  - step (unfold modify; rewrite Block_header_run, Hh; reflexivity).
    step reflexivity.
    unfold mbind, M_bind, bind, with_new. rewrite Ht.
    destruct res as [a| | |]; [destruct (Hne a eq_refl)| | |]; reflexivity.
Qed.

End ObjectDecoders.

(* ===================================================================== *)
(** ** Decoding from raw bytes: the parser pool and the leading type byte *)
(* ===================================================================== *)

Section TopLevelDecoders.
Import Go fastrlp types.
Context (Parse : list byte -> Value * option error)
        (RLPSingleByteUpperLimit : byte)
        (WriteRlp : Value -> list byte)
        (TxTypeLegacy : byte)
        (ToTransactionType : byte -> byte * option error)
        (newTxPayload : byte -> option TxPayload * option error)
        (BytesToAddress : list byte -> list byte)
        (txHash : TxPayload -> list byte).

Local Abbreviation UnmarshalRlp := (UnmarshalRlp Parse).
Local Abbreviation Header_UnmarshalRLP := (Header_UnmarshalRLP Parse WriteRlp).
Local Abbreviation Block_UnmarshalRLP :=
  (Block_UnmarshalRLP Parse WriteRlp TxTypeLegacy ToTransactionType newTxPayload
     BytesToAddress txHash).
Local Abbreviation Receipts_UnmarshalRLP :=
  (Receipts_UnmarshalRLP Parse TxTypeLegacy ToTransactionType).
Local Abbreviation Receipt_UnmarshalRLP :=
  (Receipt_UnmarshalRLP Parse RLPSingleByteUpperLimit TxTypeLegacy ToTransactionType).
Local Abbreviation Transaction_UnmarshalRLP :=
  (Transaction_UnmarshalRLP Parse RLPSingleByteUpperLimit TxTypeLegacy
     ToTransactionType newTxPayload BytesToAddress).
Local Abbreviation leading_type :=
  (leading_type RLPSingleByteUpperLimit TxTypeLegacy ToTransactionType).

Lemma UnmarshalRlp_run {R} (obj : Value -> M R unit) (input : list byte)
    (r : R) (log : list pool_event) :
  UnmarshalRlp obj input (r, log) =
    match Parse input with
    | (_, Some e) => (Err e, (r, log ++ [PoolGet; PoolPut]))
    | (v, None) =>
        match obj v r with
        | (Ok _, r') => (Ok tt, (r', log ++ [PoolGet; PoolPut]))
        | (Err e, r') => (Err e, (r', log ++ [PoolGet; PoolPut]))
        | (Panic p, r') => (Panic p, (r', log ++ [PoolGet]))
        | (OutOfRounds, r') => (OutOfRounds, (r', log ++ [PoolGet]))
        end
    end.
Proof.
  unfold types.UnmarshalRlp.
  destruct (Parse input) as [v [e|]].
  - unfold_seq. unfold pool_call, modify. cbn. rewrite <- app_assoc. reflexivity.
  - unfold_seq. unfold pool_call, modify, error_of, on_receiver, zoom. cbn.
    destruct (obj v r) as [[a|e|p|] r']; cbn; rewrite <- ?app_assoc; reflexivity.
Qed.

(** [UnmarshalRlp] takes one parser from the pool and hands it back on
    every path on which it returns, with or without an error.  Nothing is
    deferred: when the decoder it calls panics, the parser has been taken
    and is not handed back.  The receiver is left as the decoder left it,
    and as it was when the input does not parse. *)
Theorem UnmarshalRlp_parser_pool {R} (obj : Value -> M R unit) (input : list byte)
    (r : R) (log : list pool_event) :
  let '(res, (r', log')) := UnmarshalRlp obj input (r, log) in
  log' = log ++ (match res with
                 | Ok _ | Err _ => [PoolGet; PoolPut]
                 | Panic _ | OutOfRounds => [PoolGet]
                 end) /\
  match Parse input with
  | (_, Some e) => res = Err e /\ r' = r
  | (v, None) => r' = snd (obj v r) /\
                 match res, fst (obj v r) with
                 | Ok _, Ok _ => True
                 | Err e, Err e' => e = e'
                 | Panic p, Panic p' => p = p'
                 | OutOfRounds, OutOfRounds => True
                 | _, _ => False
                 end
  end.
Proof.
  rewrite UnmarshalRlp_run.
  destruct (Parse input) as [v [e|]]; [auto|].
  destruct (obj v r) as [[a|e|p|] r']; cbn; auto.
Qed.

(** Decoding a header from raw bytes always returns, and the parser is
    back in the pool when it does; bytes that parse to the encoding of a
    header decode to that header. *)
Theorem Header_UnmarshalRLP_returns
    (input : list byte) (h : Header.t) (log : list pool_event) :
  exists res h',
    Header_UnmarshalRLP input (h, log) = (res, (h', log ++ [PoolGet; PoolPut])) /\
    (forall p, res <> Panic p) /\ res <> OutOfRounds /\
    (forall h0, Parse input = (Header_MarshalRLPWith h0, None) ->
                wf_Header h0 -> uint64_Header h0 -> wf_Header h ->
                res = Ok tt /\ h' = Header_ComputeHash WriteRlp h0).
Proof.
  unfold types.Header_UnmarshalRLP. rewrite UnmarshalRlp_run.
  destruct (Parse input) as [v [e|]] eqn:HP.
  - exists (Err e), h. split; [reflexivity|]. split; [discriminate|].
    split; [discriminate|]. intros h0 Hs. discriminate.
  - pose proof (Header_returns WriteRlp v h) as Hret.
    destruct (Header_UnmarshalRLPFrom WriteRlp v h) as [[[]|e|p|] h'] eqn:Hrun;
      try destruct Hret.
    + exists (Ok tt), h'. split; [reflexivity|]. split; [discriminate|].
      split; [discriminate|]. intros h0 [= ->] Hwf0 Hu Hwf.
      rewrite (Header_decode_encode WriteRlp h0 h Hwf0 Hu Hwf) in Hrun.
      injection Hrun as <-. auto.
    + exists (Err e), h'. split; [reflexivity|]. split; [discriminate|].
      split; [discriminate|]. intros h0 [= ->] Hwf0 Hu Hwf.
      rewrite (Header_decode_encode WriteRlp h0 h Hwf0 Hu Hwf) in Hrun.
      discriminate.
Qed.

(** A stream that ends with the atom of a known type makes the collection
    decoder panic, and the panic goes through [UnmarshalRlp]: decoding
    receipts from raw bytes that parse to such a stream panics with the
    parser taken from the pool and not handed back. *)
Theorem dangling_type_tag_keeps_parser
    (input : list byte) (pre : list Value) (b ty : byte)
    (rs rs1 : list Receipt.t) (log : list pool_event) :
  Parse input = (VArray (pre ++ [VBytes [b]]), None) ->
  ToTransactionType b = (ty, None) ->
  Receipts_UnmarshalRLPFrom TxTypeLegacy ToTransactionType (VArray pre) rs = (Ok tt, rs1) ->
  let n := length (pre ++ [VBytes [b]]) in
  Receipts_UnmarshalRLP input (rs, log) =
    (Panic (IndexOutOfRange (Z.of_nat n) n), (rs1, log ++ [PoolGet])).
Proof.
  intros HP Htag Hpre n.
  unfold types.Receipts_UnmarshalRLP. rewrite UnmarshalRlp_run, HP.
  rewrite Receipts_loop_scan in Hpre. rewrite Receipts_loop_scan.
  rewrite (Receipts_scan_app _ _ _ _ _ (length pre) pre rs rs1 ltac:(lia) Hpre).
  cbn [types.Receipts_scan isTypeBytes Value_Type].
  erewrite step_ok by (apply TransactionType_of_tag, Htag).
  reflexivity.
Qed.

(** **** The leading type byte *)

(** The type that the opening of [Receipt.UnmarshalRLP] and of
    [Transaction.UnmarshalRLP] settles on, and the rest of the input. *)
Lemma leading_type_cases {R} (input : list byte) (r : R) :
  (exists b0 rest ty e,
      input = b0 :: rest /\
      (Byte.to_N b0 <= Byte.to_N RLPSingleByteUpperLimit)%N /\
      ToTransactionType b0 = (ty, Some e) /\
      leading_type input r = (Err e, r)) \/
  (exists b0 rest ty,
      input = b0 :: rest /\
      (Byte.to_N b0 <= Byte.to_N RLPSingleByteUpperLimit)%N /\
      ToTransactionType b0 = (ty, None) /\
      leading_type input r = (Ok (ty, 1), r)) \/
  ((forall b0 rest, input = b0 :: rest ->
                    (Byte.to_N RLPSingleByteUpperLimit < Byte.to_N b0)%N) /\
   leading_type input r = (Ok (TxTypeLegacy, 0), r)).
Proof.
  unfold types.leading_type. destruct input as [|b0 rest].
  - right. right. split; [discriminate|reflexivity].
  - destruct (N.leb_spec (Byte.to_N b0) (Byte.to_N RLPSingleByteUpperLimit)) as [Hle|Hgt].
    + destruct (ToTransactionType b0) as [ty [e|]] eqn:Hty.
      * left. exists b0, rest, ty, e. auto.
      * right. left. exists b0, rest, ty. auto.
    + right. right. split; [|reflexivity]. intros ? ? [= <- <-]. exact Hgt.
Qed.

Lemma Receipt_frames_TransactionType (v : Value) :
  frames Receipt.TransactionType (Receipt_UnmarshalRLPFrom v).
Proof.
  unfold Receipt_UnmarshalRLPFrom.
  destruct (GetElems v) as [elems err].
  apply frames_bind; [frames_step|intros _].
  destruct (negb (length elems =? 4)); [frames_step|].
  apply frames_bind; [frames_step|intros e].
  destruct (Bytes e) as [buf err'].
  apply frames_bind; [frames_step|intros _].
  apply frames_bind.
  { cbv zeta. destruct (length buf =? 32); [frames_step|].
    destruct (length buf =? 1); [|frames_step].
    apply frames_bind; [frames_step|intros b0]. frames_step. }
  intros _.
  do 4 (apply frames_bind; [frames_step|intros ?]).
  destruct (Get v 3) as [e3|]; [|frames_step].
  destruct (GetElems e3) as [logsElems err''].
  apply frames_bind; [frames_step|intros _].
  apply frames_for_range. intros elem.
  apply frames_bind; [frames_step|intros log]. frames_step.
Qed.

(** [Receipt.UnmarshalRLP] never panics.  A first byte that is not above
    [RLPSingleByteUpperLimit] is read as the type of the receipt: when it
    is not a known type the call returns the error at once, with the
    receiver untouched and no parser taken.  In every other case one
    parser is taken and handed back, and the receiver has the type
    settled on, the legacy type when no type byte leads, also when the
    decoding then fails. *)
Theorem Receipt_UnmarshalRLP_outcome
    (input : list byte) (r : Receipt.t) (log : list pool_event) :
  exists res r' log',
    Receipt_UnmarshalRLP input (r, log) = (res, (r', log')) /\
    (forall p, res <> Panic p) /\ res <> OutOfRounds /\
    ((exists b0 rest ty e,
         input = b0 :: rest /\
         (Byte.to_N b0 <= Byte.to_N RLPSingleByteUpperLimit)%N /\
         ToTransactionType b0 = (ty, Some e) /\
         res = Err e /\ r' = r /\ log' = log) \/
     (log' = log ++ [PoolGet; PoolPut] /\
      Receipt.TransactionType r' =
        match input with
        | b0 :: _ =>
            if (Byte.to_N b0 <=? Byte.to_N RLPSingleByteUpperLimit)%N
            then fst (ToTransactionType b0) else TxTypeLegacy
        | [] => TxTypeLegacy
        end)).
Proof.
  assert (Hrest : forall ty offset,
    exists res r' ,
      (modify (fun s : pooled Receipt.t =>
                 (Receipt.set_TransactionType ty (fst s), snd s));;
       UnmarshalRlp Receipt_UnmarshalRLPFrom (drop offset input)) (r, log)
      = (res, (r', log ++ [PoolGet; PoolPut])) /\
      (forall p, res <> Panic p) /\ res <> OutOfRounds /\
      Receipt.TransactionType r' = ty).
  { intros ty offset. step reflexivity. cbn [fst snd].
    rewrite UnmarshalRlp_run.
    destruct (Parse (drop offset input)) as [v [e|]].
    - exists (Err e). eexists. split; [reflexivity|].
      split; [discriminate|]. split; [discriminate|]. reflexivity.
    - pose proof (Receipt_returns v (Receipt.set_TransactionType ty r)) as Hret.
      pose proof (Receipt_frames_TransactionType v (Receipt.set_TransactionType ty r))
        as Hfr.
      destruct (Receipt_UnmarshalRLPFrom v (Receipt.set_TransactionType ty r))
        as [[[]|e|p|] r'] eqn:Hrun; try destruct Hret; cbn [snd] in Hfr.
      + exists (Ok tt), r'. split; [reflexivity|].
        split; [discriminate|]. split; [discriminate|]. exact Hfr.
      + exists (Err e), r'. split; [reflexivity|].
        split; [discriminate|]. split; [discriminate|]. exact Hfr. }
  unfold types.Receipt_UnmarshalRLP.
  destruct (leading_type_cases input (r, log))
    as [(b0 & rest & ty & e & -> & Hle & Hty & Hrun)
       |[(b0 & rest & ty & -> & Hle & Hty & Hrun)|(Hgt & Hrun)]].
  - exists (Err e), r, log. split; [apply bind_err, Hrun|].
    split; [discriminate|]. split; [discriminate|].
    left. exists b0, rest, ty, e. repeat split; assumption.
  - destruct (Hrest ty 1) as (res & r' & Hr & Hp & Ho & Hty').
    exists res, r', (log ++ [PoolGet; PoolPut]).
    split; [erewrite step_ok by exact Hrun; exact Hr|].
    split; [exact Hp|]. split; [exact Ho|]. right. split; [reflexivity|].
    rewrite (proj2 (N.leb_le _ _) Hle), Hty. exact Hty'.
  - destruct (Hrest TxTypeLegacy 0) as (res & r' & Hr & Hp & Ho & Hty').
    exists res, r', (log ++ [PoolGet; PoolPut]).
    split; [erewrite step_ok by exact Hrun; exact Hr|].
    split; [exact Hp|]. split; [exact Ho|]. right. split; [reflexivity|].
    destruct input as [|b0 rest]; [exact Hty'|].
    specialize (Hgt b0 rest eq_refl).
    rewrite (proj2 (N.leb_gt _ _) Hgt). exact Hty'.
Qed.

Lemma TransactionFields_decode_run (payload : TxPayload) (v : Value)
    (t : TransactionFields) :
  zoom (fun _ => payload)
       (fun p t => mkTransactionFields (Some p) (FHash t))
       (TxPayload_UnmarshalRLPFrom BytesToAddress v) t =
    (fst (TxPayload_UnmarshalRLPFrom BytesToAddress v payload),
     mkTransactionFields
       (Some (snd (TxPayload_UnmarshalRLPFrom BytesToAddress v payload))) (FHash t)).
Proof.
  unfold zoom. destruct (TxPayload_UnmarshalRLPFrom BytesToAddress v payload).
  reflexivity.
Qed.

(** [Transaction.UnmarshalRLP] replaces the payload of the receiver and
    never writes its cached hash: whatever the input and however the call
    ends, the hash is the one the receiver held, where the collection
    decoder computes the hash of every transaction it appends.  The call
    panics only when the table of the transaction types gives neither a
    payload nor an error, and then before a parser is taken. *)
Theorem Transaction_UnmarshalRLP_keeps_hash
    (input : list byte) (t : TransactionFields) (log : list pool_event) :
  exists res t' log',
    Transaction_UnmarshalRLP input (t, log) = (res, (t', log')) /\
    FHash t' = FHash t /\
    (forall a, res = Ok a ->
       log' = log ++ [PoolGet; PoolPut] /\ exists p, FPayload t' = Some p) /\
    (forall p, res = Panic p ->
       p = NilDereference /\ log' = log /\ FPayload t' = None /\
       exists ty, newTxPayload ty = (None, None)) /\
    res <> OutOfRounds.
Proof.
  assert (Hrest : forall ty offset,
    exists res t' log',
      (let '(payload, err) := newTxPayload ty in
       modify (fun s : pooled TransactionFields =>
                 (mkTransactionFields payload (FHash (fst s)), snd s));;
       check err;;
       match payload with
       | None => panic_with NilDereference
       | Some payload =>
           UnmarshalRlp
             (fun v => zoom (fun _ => payload)
                            (fun p t => mkTransactionFields (Some p) (FHash t))
                            (TxPayload_UnmarshalRLPFrom BytesToAddress v))
             (drop offset input)
       end) (t, log) = (res, (t', log')) /\
      FHash t' = FHash t /\
      (forall a, res = Ok a ->
         log' = log ++ [PoolGet; PoolPut] /\ exists p, FPayload t' = Some p) /\
      (forall p, res = Panic p ->
         p = NilDereference /\ log' = log /\ FPayload t' = None /\
         exists ty, newTxPayload ty = (None, None)) /\
      res <> OutOfRounds).
  { intros ty offset.
    destruct (newTxPayload ty) as [payload [err|]] eqn:Hnew.
    { step reflexivity. exists (Err err). eexists. eexists.
      split; [reflexivity|]. cbn [fst snd FHash].
      split; [reflexivity|]. repeat split; discriminate. }
    step reflexivity. step reflexivity. cbn [fst snd].
    destruct payload as [payload|].
    2:{ exists (Panic NilDereference). eexists. eexists.
        split; [reflexivity|]. split; [reflexivity|].
        split; [discriminate|]. split; [|discriminate].
        intros p [= <-]. repeat split. exists ty. exact Hnew. }
    rewrite UnmarshalRlp_run.
    destruct (Parse (drop offset input)) as [v [e|]].
    { exists (Err e). eexists. eexists. split; [reflexivity|].
      split; [reflexivity|]. repeat split; discriminate. }
    rewrite TransactionFields_decode_run.
    pose proof (TxPayload_returns BytesToAddress v payload) as Hret.
    destruct (TxPayload_UnmarshalRLPFrom BytesToAddress v payload)
      as [[[]|e|p|] payload'] eqn:Hrun; try destruct Hret; cbn [fst snd].
    - exists (Ok tt). eexists. eexists. split; [reflexivity|].
      split; [reflexivity|]. split; [|split; discriminate].
      intros _ _. split; [reflexivity|]. eexists. reflexivity.
    - exists (Err e). eexists. eexists. split; [reflexivity|].
      split; [reflexivity|]. repeat split; discriminate. }
  unfold types.Transaction_UnmarshalRLP.
  destruct (leading_type_cases input (t, log))
    as [(b0 & rest & ty & e & -> & Hle & Hty & Hrun)
       |[(b0 & rest & ty & -> & Hle & Hty & Hrun)|(Hgt & Hrun)]].
  - exists (Err e), t, log. split; [apply bind_err, Hrun|].
    split; [reflexivity|]. repeat split; discriminate.
  - destruct (Hrest ty 1) as (res & t' & log' & Hr & Hrest').
    exists res, t', log'.
    split; [erewrite step_ok by exact Hrun; exact Hr|exact Hrest'].
  - destruct (Hrest TxTypeLegacy 0) as (res & t' & log' & Hr & Hrest').
    exists res, t', log'.
    split; [erewrite step_ok by exact Hrun; exact Hr|exact Hrest'].
Qed.

End TopLevelDecoders.

(* ===================================================================== *)
(** ** The decoders run on sample inputs *)
(* ===================================================================== *)

(** Fifteen atoms with short numbers and a nonce of two bytes, read into
    the zero header. *)
Lemma Header_decode_success_iff_witness :
  types.Header_UnmarshalRLPFrom (fun _ => replicate 32 xff)
    (fastrlp.VArray
       [ fastrlp.VBytes (replicate 32 x01); fastrlp.VBytes (replicate 32 x02);
         fastrlp.VBytes (replicate 20 x03); fastrlp.VBytes (replicate 32 x04);
         fastrlp.VBytes (replicate 32 x05); fastrlp.VBytes (replicate 32 x06);
         fastrlp.VBytes (replicate 256 x07); fastrlp.VBytes []; fastrlp.VBytes [x03; xe8];
         fastrlp.VBytes [x7a; x12; x00]; fastrlp.VBytes [x52; x08]; fastrlp.VBytes [x65];
         fastrlp.VBytes [x0a; x0b]; fastrlp.VBytes (replicate 32 xaa);
         fastrlp.VBytes [x01; x02] ])
    types.Header.zero
  = (Go.Ok tt,
     types.decoded_header (fun _ => replicate 32 xff) types.Header.zero
       (replicate 32 x01) (replicate 32 x02) (replicate 20 x03) (replicate 32 x04)
       (replicate 32 x05) (replicate 32 x06) (replicate 256 x07)
       [] [x03; xe8] [x7a; x12; x00] [x52; x08] [x65]
       [x0a; x0b] (replicate 32 xaa) [x01; x02]).
Proof.
  apply (proj2 (Header_decode_success_iff (fun _ => replicate 32 xff) _
                  types.Header.zero _ ltac:(vm_compute; repeat split))).
  exists (replicate 32 x01), (replicate 32 x02), (replicate 20 x03), (replicate 32 x04),
         (replicate 32 x05), (replicate 32 x06), (replicate 256 x07),
         [], [x03; xe8], [x7a; x12; x00], [x52; x08], [x65],
         [x0a; x0b], (replicate 32 xaa), [x01; x02].
  split; [|reflexivity].
  unfold types.header_atoms. split; [reflexivity|].
  vm_compute. repeat split; lia.
Defined.

(** The same atoms: the header decoded has the nonce on eight bytes, and its
    encoding, which differs from the input, decodes to it again. *)
Lemma Header_decoded_reencodes_witness :
  let v := fastrlp.VArray
       [ fastrlp.VBytes (replicate 32 x01); fastrlp.VBytes (replicate 32 x02);
         fastrlp.VBytes (replicate 20 x03); fastrlp.VBytes (replicate 32 x04);
         fastrlp.VBytes (replicate 32 x05); fastrlp.VBytes (replicate 32 x06);
         fastrlp.VBytes (replicate 256 x07); fastrlp.VBytes []; fastrlp.VBytes [x03; xe8];
         fastrlp.VBytes [x7a; x12; x00]; fastrlp.VBytes [x52; x08]; fastrlp.VBytes [x65];
         fastrlp.VBytes [x0a; x0b]; fastrlp.VBytes (replicate 32 xaa);
         fastrlp.VBytes [x01; x02] ] in
  let h' := snd (types.Header_UnmarshalRLPFrom (fun _ => replicate 32 xff) v
                   types.Header.zero) in
  types.Header.Nonce h' = [x00; x00; x00; x00; x00; x00; x01; x02] /\
  types.Header_MarshalRLPWith h' <> v /\
  types.Header_UnmarshalRLPFrom (fun _ => replicate 32 xff)
    (types.Header_MarshalRLPWith h') types.Header.zero = (Go.Ok tt, h').
Proof.
  cbv zeta.
  split; [vm_compute; reflexivity|]. split; [vm_compute; discriminate|].
  match goal with
  | |- types.Header_UnmarshalRLPFrom ?W (types.Header_MarshalRLPWith (snd (_ _ ?v _))) _ = _ =>
      apply (Header_decoded_reencodes W v types.Header.zero types.Header.zero)
  end.
  - intros x. reflexivity.
  - vm_compute. repeat split.
  - vm_compute. repeat split.
  - vm_compute. reflexivity.
Defined.

(** A parent hash followed by fourteen empty lists: the decoding fails at
    the second element, and the parent hash has been written. *)
Lemma Header_failed_decode_keeps_fields_read_witness :
  let v := fastrlp.VArray (fastrlp.VBytes (replicate 32 x01)
                             :: replicate 14 (fastrlp.VArray [])) in
  types.Header_UnmarshalRLPFrom (fun _ => replicate 32 xff) v types.Header.zero
    = (Go.Err Go.errNoBytes,
       types.Header.set_ParentHash (replicate 32 x01) types.Header.zero) /\
  types.Header.ParentHash
    (snd (types.Header_UnmarshalRLPFrom (fun _ => replicate 32 xff) v types.Header.zero))
    = replicate 32 x01.
Proof.
  cbv zeta. split; [vm_compute; reflexivity|].
  apply (Header_failed_decode_keeps_fields_read (fun _ => replicate 32 xff)
           (replicate 32 x01) (replicate 14 (fastrlp.VArray [])) types.Header.zero);
    vm_compute; reflexivity.
Defined.

(** A log with two topics, read into the zero log. *)
Lemma Log_decode_success_iff_witness :
  types.Log_UnmarshalRLPFrom
    (fastrlp.VArray [ fastrlp.VBytes (replicate 20 x11);
                      fastrlp.VArray (map fastrlp.VBytes
                                        [replicate 32 x21; replicate 32 x22]);
                      fastrlp.VBytes [xca; xfe] ])
    types.Log.zero
  = (Go.Ok tt, types.Log.mk (replicate 20 x11) [replicate 32 x21; replicate 32 x22]
                 [xca; xfe]).
Proof.
  apply (proj2 (Log_decode_success_iff _ types.Log.zero _ ltac:(reflexivity))).
  exists (replicate 20 x11), [replicate 32 x21; replicate 32 x22], [xca; xfe].
  split; [reflexivity|]. split; [reflexivity|]. split; [|reflexivity].
  repeat constructor.
Defined.

(** A block made of the encoding of the zero header, the sample legacy
    transaction and one uncle, read into a block that holds one uncle. *)
Lemma Block_decode_success_witness :
  let W := fun _ : fastrlp.Value => replicate 32 xff in
  let eh := types.Header_MarshalRLPWith types.Header.zero in
  let b := types.Block.mk None [] [types.Header.zero] in
  types.Block_UnmarshalRLPFrom W x00 types.sample_ToTransactionType
    types.sample_newTxPayload (fun a => a) (fun _ => [])
    (fastrlp.VArray [eh; fastrlp.VArray [types.sample_legacy]; fastrlp.VArray [eh]]) b
  = (Go.Ok tt,
     types.Block.mk
       (Some (types.Header_ComputeHash W types.Header.zero))
       [types.Transaction.mk (types.PLegacy types.sample_legacy_decoded) []]
       [types.Header.zero; types.Header_ComputeHash W types.Header.zero]).
Proof.
  cbv zeta.
  apply (Block_decode_success (fun _ => replicate 32 xff) x00
           types.sample_ToTransactionType types.sample_newTxPayload
           (fun a => a) (fun _ => [])
           (types.Header_MarshalRLPWith types.Header.zero)
           (fastrlp.VArray [types.sample_legacy])
           [types.Header_MarshalRLPWith types.Header.zero]
           (types.Block.mk None [] [types.Header.zero])
           (types.Header_ComputeHash (fun _ => replicate 32 xff) types.Header.zero)
           [types.Transaction.mk (types.PLegacy types.sample_legacy_decoded) []]
           [types.Header_ComputeHash (fun _ => replicate 32 xff) types.Header.zero]).
  - vm_compute. reflexivity.
  - vm_compute. reflexivity.
  - constructor; [vm_compute; reflexivity|constructor].
Defined.

(** A block whose transaction stream is the single atom [0x02]: the panic
    of the transaction decoder is the panic of the block decoder, and the
    block is left with the new header. *)
Lemma Block_decode_failure_witness :
  let W := fun _ : fastrlp.Value => replicate 32 xff in
  let eh := types.Header_MarshalRLPWith types.Header.zero in
  types.Block_UnmarshalRLPFrom W x00 types.sample_ToTransactionType
    types.sample_newTxPayload (fun a => a) (fun _ => [])
    (fastrlp.VArray [eh; fastrlp.VArray [fastrlp.VBytes [x02]]; fastrlp.VArray []])
    types.Block.zero
  = (Go.Panic (Go.IndexOutOfRange 1 1),
     types.Block.mk (Some (types.Header_ComputeHash W types.Header.zero)) [] []).
Proof.
  cbv zeta.
  apply (Block_decode_failure (fun _ => replicate 32 xff) x00
           types.sample_ToTransactionType types.sample_newTxPayload
           (fun a => a) (fun _ => [])
           (types.Header_MarshalRLPWith types.Header.zero)
           (fastrlp.VArray [fastrlp.VBytes [x02]]) (fastrlp.VArray [])
           types.Block.zero (Go.Panic (Go.IndexOutOfRange 1 1))
           (types.Header_ComputeHash (fun _ => replicate 32 xff) types.Header.zero) []).
  - discriminate.
  - right. split; vm_compute; reflexivity.
Defined.

(** Raw bytes that parse to the stream made of the single atom [0x02],
    decoded as receipts: one parser is taken and none is handed back. *)
Lemma dangling_type_tag_keeps_parser_witness :
  types.Receipts_UnmarshalRLP (fun _ => (fastrlp.VArray [fastrlp.VBytes [x02]], None))
    x00 types.sample_ToTransactionType [xc1; x02] ([], [])
  = (Go.Panic (Go.IndexOutOfRange 1 1), ([], [types.PoolGet])).
Proof.
  apply (dangling_type_tag_keeps_parser
           (fun _ => (fastrlp.VArray [fastrlp.VBytes [x02]], None))
           x00 types.sample_ToTransactionType [xc1; x02] [] x02 x02 [] [] []).
  - reflexivity.
  - reflexivity.
  - vm_compute. reflexivity.
Defined.
